(** * Modelo numerico de interior estelar: embedding and verification

    A shallow embedding of the Python modules [energia], [politropo],
    [transporte], [primera_derivada], [derydif], [valor_estimado],
    [valor_calculado], [valores_frontera], [faseB] and [estrella], and of
    the two searches and of the table of the script [ajuste].

    Numbers are the real numbers of the Standard Library: the program's
    arithmetic is read as exact arithmetic.  Python's partial operations
    (division, [**], [math.sqrt], array indexing) return a result in the
    error monad [res]; the unbounded [while] loops take a fuel argument and
    answer [Agotado] when it runs out.

    In exact arithmetic the interval that the search of the central
    temperature hands to the fine fit has the width 0.05, which gives 500
    trial temperatures for arrays of 501 entries (lemma [ajuste_hueco]).
    The properties of the stages of [star] are therefore stated on the
    stages themselves, for every result of the stages that run before them,
    and not on the value of [star].  The two places where the rounding of
    binary64 decides, the number of trial temperatures and the radius of
    the last layer of Phase 0, are computed again on the primitive floats
    in the module [binary64]. *)

From Stdlib Require Import Floats.
From Stdlib Require Import Reals Lra Lia ZArith.
From stdpp Require Import base list.

Local Open Scope R_scope.

(** ** Outcomes of a computation *)

(** The ways in which the Python code stops without a value.  The names are
    those of the Python exceptions.  A division by zero on [numpy.float64]
    scalars does not raise (it gives [inf] or [nan] and a warning); the real
    numbers have neither, and the model stops with [ZeroDivisionError] there
    as well.  [NoReal] stands for a value that left the real line: the
    complex result of a negative base raised to a non-integer exponent. *)
Inductive Fallo : Type :=
  | ZeroDivisionError
  | ValueError
  | TypeError
  | IndexError
  | UnboundLocalError
  | NoReal.

Inductive res (A : Type) : Type :=
  | Ok (a : A)
  | Err (e : Fallo)
  | Agotado.

Arguments Ok {A} a.
Arguments Err {A} e.
Arguments Agotado {A}.

#[global] Instance res_ret : MRet res := fun A a => Ok a.

#[global] Instance res_bind : MBind res := fun A B f m =>
  match m with
  | Ok a => f a
  | Err e => Err e
  | Agotado => Agotado
  end.

(** [siempre m P]: whenever the computation [m] returns a value, the value
    satisfies [P] (partial correctness). *)
Definition siempre {A : Type} (m : res A) (P : A -> Prop) : Prop :=
  match m with
  | Ok a => P a
  | _ => True
  end.

(** ** Python arithmetic over the reals *)

(** [x / y] *)
Definition div_py (x y : R) : res R :=
  if Req_dec_T y 0 then Err ZeroDivisionError else Ok (x / y).

(** [x ** y] on floats ([float_pow] of CPython): anything to the power 0 is
    1; zero to a negative power raises; a negative base with a non-integer
    exponent gives a complex number. *)
Definition pow_py (x y : R) : res R :=
  if Req_dec_T y 0 then Ok 1
  else if Rlt_dec 0 x then Ok (Rpower x y)
  else if Req_dec_T x 0 then
    (if Rlt_dec y 0 then Err ZeroDivisionError else Ok 0)
  else if Req_dec_T (frac_part y) 0 then Ok (powerRZ x (Int_part y))
  else Err NoReal.

(** [math.sqrt x] *)
Definition sqrt_py (x : R) : res R :=
  if Rlt_dec x 0 then Err ValueError else Ok (sqrt x).

Infix "/!" := div_py (at level 40, left associativity).
Infix "^!" := pow_py (at level 30, right associativity).

#[global] Instance R_eq_dec : EqDecision R := Req_dec_T.

(** Comparisons as booleans. *)
Definition Rltb (x y : R) : bool := if Rlt_dec x y then true else false.
Definition Rleb (x y : R) : bool := if Rle_dec x y then true else false.
Definition Reqb (x y : R) : bool := if Req_dec_T x y then true else false.

Infix "<?" := Rltb (at level 70, no associativity) : R_scope.
Infix "<=?" := Rleb (at level 70, no associativity) : R_scope.
Infix "=?" := Reqb (at level 70, no associativity) : R_scope.

(** ** energia.py *)

(** Labels of the energy-generation cycle; [Nulo] is the string ['--']. *)
Inductive Ciclo : Type := PP | CN | Nulo.

#[global] Instance Ciclo_eq_dec : EqDecision Ciclo.
Proof. solve_decision. Defined.

Module energia.

(** Lines 30-48: coefficients of the proton-proton chain. *)
Definition coef_pp (T_i : R) : res (R * R) :=
  if (0.4 <? T_i) && (T_i <=? 0.6) then E1 ← 10 ^! (-6.84); Ok (E1, 6.0)
  else if (0.6 <? T_i) && (T_i <=? 0.95) then E1 ← 10 ^! (-6.04); Ok (E1, 5.0)
  else if (0.95 <? T_i) && (T_i <=? 1.2) then E1 ← 10 ^! (-5.56); Ok (E1, 4.5)
  else if (1.2 <? T_i) && (T_i <=? 1.65) then E1 ← 10 ^! (-5.02); Ok (E1, 4.0)
  else if (1.65 <? T_i) && (T_i <=? 2.4) then E1 ← 10 ^! (-4.40); Ok (E1, 3.5)
  else Ok (0, 0).

(** Line 51: rate of the proton-proton chain. *)
Definition ritmo_pp (T_i X E1_pp nu_pp : R) : res R :=
  x2 ← X ^! 2;
  p ← (10 * T_i) ^! nu_pp;
  Ok (E1_pp * x2 * p).

(** Lines 54-71: coefficients of the CN cycle. *)
Definition coef_CN (T_i : R) : res (R * R) :=
  if (1.2 <? T_i) && (T_i <=? 1.6) then E1 ← 10 ^! (-22.2); Ok (E1, 20.0)
  else if (1.6 <? T_i) && (T_i <=? 2.25) then E1 ← 10 ^! (-19.8); Ok (E1, 18.0)
  else if (2.25 <? T_i) && (T_i <=? 2.75) then E1 ← 10 ^! (-17.1); Ok (E1, 16.0)
  else if (2.75 <? T_i) && (T_i <=? 3.60) then E1 ← 10 ^! (-15.6); Ok (E1, 15.0)
  else if (3.60 <? T_i) && (T_i <=? 5.0) then E1 ← 10 ^! (-12.5); Ok (E1, 13.0)
  else Ok (0, 0).

(** Lines 74-75: rate of the CN cycle. *)
Definition ritmo_CN (T_i X Y E1_CN nu_CN : R) : res R :=
  let Z := 1 - X - Y in
  p ← (10 * T_i) ^! nu_CN;
  Ok (1 / 3 * E1_CN * X * Z * p).

(** Lines 80-92: the predominant cycle. *)
Definition predominante (E_pp E_CN E1_pp nu_pp E1_CN nu_CN : R)
  : Ciclo * R * R :=
  if E_CN <? E_pp then (PP, E1_pp, nu_pp)
  else if E_pp <? E_CN then (CN, E1_CN, nu_CN)
  else (Nulo, 0, 0).

(** The two evaluated rates, in the order of the source. *)
Definition ritmos (T_i X Y : R) : res (R * R) :=
  '(E1_pp, nu_pp) ← coef_pp T_i;
  E_pp ← ritmo_pp T_i X E1_pp nu_pp;
  '(E1_CN, nu_CN) ← coef_CN T_i;
  E_CN ← ritmo_CN T_i X Y E1_CN nu_CN;
  Ok (E_pp, E_CN).

Definition ciclo (T_i X Y : R) : res (Ciclo * R * R) :=
  '(E1_pp, nu_pp) ← coef_pp T_i;
  E_pp ← ritmo_pp T_i X E1_pp nu_pp;
  '(E1_CN, nu_CN) ← coef_CN T_i;
  E_CN ← ritmo_CN T_i X Y E1_CN nu_CN;
  Ok (predominante E_pp E_CN E1_pp nu_pp E1_CN nu_CN).

End energia.

(** ** politropo.py *)

Module politropo.

Definition cte_k (P_i1 T_i1 : R) : res R :=
  t ← T_i1 ^! 2.5;
  P_i1 /! t.

Definition presion (T_i1 k : R) : res R :=
  if T_i1 <=? 0 then Ok 0
  else t ← T_i1 ^! 2.5; Ok (k * t).

End politropo.

(** ** transporte.py *)

Module transporte.

Definition n_mas_1 (P_i1 T_i1 dP_i1 dT_i1 : R) : res R :=
  a ← T_i1 /! P_i1;
  b ← dP_i1 /! dT_i1;
  Ok (a * b).

End transporte.

(** ** primera_derivada.py *)

(** The keyword argument [transfer]: its default value, or the string
    ['CONVECTIVE']. *)
Inductive Transfer : Type := PorDefecto | CONVECTIVE.

Module primera_derivada.

Definition presion (r_i P_i T_i M_i mu : R) (P_cte : bool) : res R :=
  if P_cte then Ok 0
  else
    q ← P_i /! T_i;
    r2 ← r_i ^! 2;
    m ← M_i /! r2;
    Ok (-8.084 * mu * q * m).

Definition temperatura (r_i P_i T_i M_i L_i mu X Y : R)
    (T_cte : bool) (transfer : Transfer) : res R :=
  if T_cte then Ok 0
  else
    match transfer with
    | CONVECTIVE =>
        r2 ← r_i ^! 2;
        m ← M_i /! r2;
        Ok (-3.234 * mu * m)
    | PorDefecto =>
        let Z := 1 - X - Y in
        mu2 ← mu ^! 2;
        P2 ← P_i ^! 2;
        T85 ← T_i ^! 8.5;
        q ← P2 /! T85;
        r2 ← r_i ^! 2;
        l ← L_i /! r2;
        Ok (-0.01679 * Z * (X + 1) * mu2 * q * l)
    end.

Definition masa (r_i P_i T_i mu : R) (M_cte : bool) : res R :=
  if M_cte then Ok 0
  else
    q ← P_i /! T_i;
    r2 ← r_i ^! 2;
    Ok (0.01523 * mu * q * r2).

(** Lines 123-131: mass fractions of the predominant cycle. *)
Definition fracciones (CICLO : Ciclo) (X Y : R) : R * R :=
  match CICLO with
  | PP => (X, X)
  | CN => (X, 1 / 3 * (1 - X - Y))
  | Nulo => (0, 0)
  end.

Definition luminosidad (r_i P_i T_i mu X Y : R) (L_cte : bool)
  : res (R * Ciclo) :=
  if L_cte then Ok (0, Nulo)
  else
    '(CICLO, E1, nu) ← energia.ciclo T_i X Y;
    let '(X1, X2) := fracciones CICLO X Y in
    p10 ← 10 ^! nu;
    mu2 ← mu ^! 2;
    P2 ← P_i ^! 2;
    Tn ← T_i ^! (nu - 2);
    r2 ← r_i ^! 2;
    Ok (0.01845 * E1 * (X1 * X2) * p10 * mu2 * P2 * Tn * r2, CICLO).

End primera_derivada.

(** ** derydif.py *)

Module derydif.

(** The list [f = [dP, dT, dM, dL]] is a 4-tuple. *)
Definition derivadas (r_i P_i T_i M_i L_i mu X Y : R)
    (P_cte T_cte M_cte L_cte : bool) (transfer : Transfer)
  : res (R * R * R * R) :=
  dP ← primera_derivada.presion r_i P_i T_i M_i mu P_cte;
  dT ← primera_derivada.temperatura r_i P_i T_i M_i L_i mu X Y T_cte transfer;
  dM ← primera_derivada.masa r_i P_i T_i mu M_cte;
  '(dL, CICLO) ← primera_derivada.luminosidad r_i P_i T_i mu X Y L_cte;
  Ok (dP, dT, dM, dL).

(** The list [delta = [delta1, delta2]] is a pair. *)
Definition diferencias (f_i1 f_i f_im1 h : R) : R * R :=
  let delta1 := h * f_i1 - h * f_i in
  let delta2 := h * f_i1 - 2 * h * f_i + h * f_im1 in
  (delta1, delta2).

End derydif.

(** ** valor_estimado.py *)

Module valor_estimado.

Definition presion_estimada (P_i dP_i dP_im1 dP_im2 h : R) : R :=
  let delta_i := derydif.diferencias dP_i dP_im1 dP_im2 h in
  P_i + h * dP_i + 1 / 2 * delta_i.1 + 5 / 12 * delta_i.2.

Definition temperatura_estimada (T_i dT_i dT_im1 dT_im2 h : R) : R :=
  let delta_i := derydif.diferencias dT_i dT_im1 dT_im2 h in
  T_i + h * dT_i + 1 / 2 * delta_i.1 + 5 / 12 * delta_i.2.

End valor_estimado.

(** ** valor_calculado.py *)

Module valor_calculado.

Definition presion_calculada (r_i1 P_i P_i1 T_i1 M_i1 dP_i dP_im1 mu h : R)
  : res (R * R) :=
  dP_i1 ← primera_derivada.presion r_i1 P_i1 T_i1 M_i1 mu false;
  let delta_i1 := derydif.diferencias dP_i1 dP_i dP_im1 h in
  Ok (P_i + h * dP_i1 - 1 / 2 * delta_i1.1, dP_i1).

Definition temperatura_calculada
    (r_i1 P_i1 T_i T_i1 M_i1 L_i1 dT_i dT_im1 mu h X Y : R)
    (transfer : Transfer) : res (R * R) :=
  dT_i1 ← primera_derivada.temperatura r_i1 P_i1 T_i1 M_i1 L_i1 mu X Y
            false transfer;
  let delta_i1 := derydif.diferencias dT_i1 dT_i dT_im1 h in
  Ok (T_i + h * dT_i1 - 1 / 2 * delta_i1.1, dT_i1).

Definition masa_calculada (r_i1 P_i1 T_i1 M_i dM_i dM_im1 mu h : R)
  : res (R * R) :=
  dM_i1 ← primera_derivada.masa r_i1 P_i1 T_i1 mu false;
  let delta_i1 := derydif.diferencias dM_i1 dM_i dM_im1 h in
  Ok (M_i + h * dM_i1 - 1 / 2 * delta_i1.1, dM_i1).

Definition luminosidad_calculada (r_i1 P_i1 T_i1 L_i dL_i dL_im1 mu h X Y : R)
  : res (R * R * Ciclo) :=
  '(dL_i1, CICLO) ← primera_derivada.luminosidad r_i1 P_i1 T_i1 mu X Y false;
  let delta_i1 := derydif.diferencias dL_i1 dL_i dL_im1 h in
  Ok (L_i + h * dL_i1 - 1 / 2 * delta_i1.1 - 1 / 12 * delta_i1.2,
      dL_i1, CICLO).

End valor_calculado.

(** ** numpy *)

Module np.

(** [np.zeros(n)] *)
Definition zeros (n : nat) : list R := replicate n 0.

(** [a[i]] for an index that is not negative. *)
Definition leer (a : list R) (i : nat) : res R :=
  match a !! i with
  | Some v => Ok v
  | None => Err IndexError
  end.

(** [a[i] = v] *)
Definition escribir (a : list R) (i : nat) (v : R) : res (list R) :=
  if decide (i < length a)%nat then Ok (<[i:=v]> a) else Err IndexError.

(** [np.interp(x, [xp0, xp1], [fp0, fp1])], as [arr_interp] of numpy
    computes it for two sample points: the right value above the last
    point, the left value below the first, the sample value on a sample
    point, and the line through the two samples in between. *)
Definition interp (x xp0 xp1 fp0 fp1 : R) : R :=
  if xp1 <? x then fp1
  else if x <? xp0 then fp0
  else if xp1 <=? x then fp1
  else if xp0 =? x then fp0
  else (fp1 - fp0) / (xp1 - xp0) * (x - xp0) + fp0.

(** [np.trim_zeros(a, trim='b')]: the trailing zeros are removed. *)
Fixpoint trim_zeros (a : list R) : list R :=
  match a with
  | [] => []
  | x :: a' =>
      match trim_zeros a' with
      | [] => if x =? 0 then [] else [x]
      | t => x :: t
      end
  end.

(** The least integer that is not below [x]. *)
Definition ceil (x : R) : Z := (- Int_part (- x))%Z.

(** [np.arange(start, stop, step)] on floats: [ceil((stop - start)/step)]
    values [start + k*step]. *)
Definition arange (start stop step : R) : list R :=
  map (fun k => start + INR k * step)
      (seq 0 (Z.to_nat (ceil ((stop - start) / step)))).

(** [np.where(a == v)]: the indices of the entries equal to [v]. *)
Definition where_eq (a : list R) (v : R) : list nat :=
  filter (fun j => a !! j = Some v) (seq 0 (length a)).

(** [np.round(x, 4)]: [x] is scaled by [10**4], rounded to the nearest
    integer (a tie goes to the even one) and scaled back. *)
Definition round4 (x : R) : R :=
  let y := x * 10000 in
  let n := Int_part y in
  let f := frac_part y in
  let m := if f <? 1 / 2 then n
           else if 1 / 2 <? f then (n + 1)%Z
           else if Z.even n then n else (n + 1)%Z in
  IZR m / 10000.

End np.

(** ** valores_frontera.py *)

(** The array [Frontera = [rf, Pf, Tf, Mf, Lf]]; [Frontera[-1]] is [Lf]. *)
Record Frontera : Type := mkFrontera {
  rf_F : R;
  Pf : R;
  Tf : R;
  Mf : R;
  Lf : R
}.

Module valores_frontera.

(** The arguments [r], [P], [T], [M], [L] are the two-element lists the
    callers build. *)
Definition frontera (rf : R) (r P T M L : R * R) : Frontera :=
  let Pf := np.interp rf r.1 r.2 P.1 P.2 in
  let Tf := np.interp rf r.1 r.2 T.1 T.2 in
  let Mf := np.interp rf r.1 r.2 M.1 M.2 in
  let Lf := np.interp rf r.1 r.2 L.1 L.2 in
  mkFrontera rf Pf Tf Mf Lf.

End valores_frontera.

(** ** faseB.py *)

(** The array [param = np.array([r, P, T, M, L])]. *)
Record Param : Type := mkParam {
  p_r : list R;
  p_P : list R;
  p_T : list R;
  p_M : list R;
  p_L : list R
}.

(** Maximum relative error that is accepted ([E_rel_max]). *)
Definition E_rel_max : R := 0.0001.

(** Mean molecular weight, [mu = 1 / (2*X + (3/4)*Y + (1/2)*Z)]. *)
Definition peso_molecular (X Y : R) : res R :=
  let Z := 1 - X - Y in
  1 /! (2 * X + 3 / 4 * Y + 1 / 2 * Z).

Module faseB.

(** The local variables of [conveccion] that live across the layers. *)
Record Estado : Type := mkEstado {
  i : nat;
  r : list R;
  P : list R;
  T : list R;
  M : list R;
  L : list R;
  dT : list R;
  dM : list R;
  dL : list R;
  Ciclo_B : list Ciclo
}.

Definition inicial : Estado :=
  mkEstado 0 (np.zeros 200) (np.zeros 200) (np.zeros 200) (np.zeros 200)
    (np.zeros 200) (np.zeros 200) (np.zeros 200) (np.zeros 200) [].

(** What one pass over a layer decides. *)
Inductive Paso : Type :=
  | Acepta (st : Estado)
  | Sale (st : Estado).

Section conveccion.

Variable fuel : nat.
Variables T_c rf h X Y k_prima mu : R.

(** Lines 69-104: one of the three first layers.  [T_i] is the
    temperature left by the previous pass ([T_c] at the first one). *)
Definition semilla (st : Estado) (i : nat) (T_i : R) : res (Estado * R) :=
  '(CICLO, E1, nu) ← energia.ciclo T_i X Y;
  let '(X1, X2) := primera_derivada.fracciones CICLO X Y in
  let r_i := h * INR i in
  mu2 ← mu ^! 2;
  Tc15 ← T_c ^! 1.5;
  r2 ← r_i ^! 2;
  let T_i := T_c - 0.008207 * mu2 * k_prima * Tc15 * r2 in
  T25 ← T_i ^! 2.5;
  let P_i := k_prima * T25 in
  p10 ← 10 ^! nu;
  mu2' ← mu ^! 2;
  k2 ← k_prima ^! 2;
  Tcn ← T_c ^! (3 + nu);
  r3 ← r_i ^! 3;
  let L_i := 0.006150 * E1 * (X1 * X2) * p10 * mu2' * k2 * Tcn * r3 in
  Tc15' ← T_c ^! 1.5;
  r3' ← r_i ^! 3;
  let M_i := 0.005077 * mu * k_prima * Tc15' * r3' in
  r' ← np.escribir (r st) i r_i;
  P' ← np.escribir (P st) i P_i;
  T' ← np.escribir (T st) i T_i;
  M' ← np.escribir (M st) i M_i;
  L' ← np.escribir (L st) i L_i;
  let Ciclo' := Ciclo_B st ++ [Nulo] in
  if r_i =? 0 then
    Ok (mkEstado i r' P' T' M' L' (dT st) (dM st) (dL st) Ciclo', T_i)
  else
    '(f0, f1, f2, f3) ← derydif.derivadas r_i P_i T_i M_i L_i mu X Y
                           false false false false CONVECTIVE;
    dT' ← np.escribir (dT st) i f1;
    dM' ← np.escribir (dM st) i f2;
    dL' ← np.escribir (dL st) i f3;
    Ok (mkEstado i r' P' T' M' L' dT' dM' dL' Ciclo', T_i).

(** [for i in np.arange(3)] *)
Definition semillas : res Estado :=
  '(st0, T_0) ← semilla inicial 0 T_c;
  '(st1, T_1) ← semilla st0 1 T_0;
  '(st2, T_2) ← semilla st1 2 T_1;
  Ok st2.

(** Lines 118-135: the temperature loop of a layer; it gives
    [(P_est, M_cal, dM_i1, T_cal, dT_i1)]. *)
Fixpoint bucle_T (n : nat) (r_i1 T_i M_i L_i dT_i dT_im1 dM_i dM_im1 : R)
    (T_est : R) : res (R * R * R * R * R) :=
  match n with
  | O => Agotado
  | S n' =>
      P_est ← politropo.presion T_est k_prima;
      '(M_cal, dM_i1) ← valor_calculado.masa_calculada
                          r_i1 P_est T_est M_i dM_i dM_im1 mu h;
      '(T_cal, dT_i1) ← valor_calculado.temperatura_calculada
                          r_i1 P_est T_i T_est M_cal L_i dT_i dT_im1
                          mu h X Y CONVECTIVE;
      q ← (T_cal - T_est) /! T_cal;
      if Rabs q <? E_rel_max then Ok (P_est, M_cal, dM_i1, T_cal, dT_i1)
      else bucle_T n' r_i1 T_i M_i L_i dT_i dT_im1 dM_i dM_im1 T_cal
  end.

(** Lines 112-159: one pass of the layer loop. *)
Definition paso (st : Estado) : res Paso :=
  let i := i st in
  let r_i1 := h * INR (i + 1) in
  T_i ← np.leer (T st) i;
  dT_i ← np.leer (dT st) i;
  dT_im1 ← np.leer (dT st) (i - 1);
  dT_im2 ← np.leer (dT st) (i - 2);
  let T_est := valor_estimado.temperatura_estimada T_i dT_i dT_im1 dT_im2 h in
  M_i ← np.leer (M st) i;
  dM_i ← np.leer (dM st) i;
  dM_im1 ← np.leer (dM st) (i - 1);
  L_i ← np.leer (L st) i;
  '(P_est, M_cal, dM_i1, T_cal, dT_i1) ←
    bucle_T fuel r_i1 T_i M_i L_i dT_i dT_im1 dM_i dM_im1 T_est;
  P_cal ← politropo.presion T_cal k_prima;
  dL_i ← np.leer (dL st) i;
  dL_im1 ← np.leer (dL st) (i - 1);
  '(L_cal, dL_i1, Ciclo_i1) ← valor_calculado.luminosidad_calculada
                                r_i1 P_cal T_cal L_i dL_i dL_im1 mu h X Y;
  if rf + h <? r_i1 then Ok (Sale st)
  else
    r' ← np.escribir (r st) (i + 1) r_i1;
    P' ← np.escribir (P st) (i + 1) P_cal;
    T' ← np.escribir (T st) (i + 1) T_cal;
    M' ← np.escribir (M st) (i + 1) M_cal;
    L' ← np.escribir (L st) (i + 1) L_cal;
    dT' ← np.escribir (dT st) (i + 1) dT_i1;
    dM' ← np.escribir (dM st) (i + 1) dM_i1;
    dL' ← np.escribir (dL st) (i + 1) dL_i1;
    Ok (Acepta (mkEstado (i + 1) r' P' T' M' L' dT' dM' dL'
                  (Ciclo_B st ++ [Ciclo_i1]))).

(** [while loop1] *)
Fixpoint bucle_capas (n : nat) (st : Estado) : res Estado :=
  match n with
  | O => Agotado
  | S n' =>
      p ← paso st;
      match p with
      | Sale st' => Ok st'
      | Acepta st' => bucle_capas n' st'
      end
  end.

(** Lines 167-171: the values at the boundary. *)
Definition frontera_B (st : Estado) : res Frontera :=
  let i := i st in
  r_im1 ← np.leer (r st) (i - 1); r_i ← np.leer (r st) i;
  P_im1 ← np.leer (P st) (i - 1); P_i ← np.leer (P st) i;
  T_im1 ← np.leer (T st) (i - 1); T_i ← np.leer (T st) i;
  M_im1 ← np.leer (M st) (i - 1); M_i ← np.leer (M st) i;
  L_im1 ← np.leer (L st) (i - 1); L_i ← np.leer (L st) i;
  Ok (valores_frontera.frontera rf (r_im1, r_i) (P_im1, P_i) (T_im1, T_i)
        (M_im1, M_i) (L_im1, L_i)).

End conveccion.

(** The layers of a run of Phase B, before they are packed. *)
Definition capas (fuel : nat) (T_c rf h X Y k_prima : R) : res Estado :=
  mu ← peso_molecular X Y;
  st ← semillas T_c h X Y k_prima mu;
  bucle_capas fuel rf h X Y k_prima mu fuel st.

Definition conveccion (fuel : nat) (T_c rf h X Y k_prima : R)
  : res (Param * Frontera * list Ciclo) :=
  st ← capas fuel T_c rf h X Y k_prima;
  let param := mkParam (r st) (P st) (T st) (M st) (L st) in
  F ← frontera_B rf st;
  Ok (param, F, Ciclo_B st).

End faseB.

(** ** estrella.py *)

Module estrella.

(** *** Phase 0: the layers between the starting radius and the surface *)

(** The buffers of Phase 0 ([np.zeros(50)]) and the list [Ciclo_0]. *)
Record Estado0 : Type := mkEstado0 {
  i0 : nat;
  r_0 : list R;
  P_0 : list R;
  T_0 : list R;
  M_0 : list R;
  L_0 : list R;
  Ciclo_0 : list Ciclo
}.

Definition inicial0 : Estado0 :=
  mkEstado0 0 (np.zeros 50) (np.zeros 50) (np.zeros 50) (np.zeros 50)
    (np.zeros 50) [].

(** The buffers of Phase A ([np.zeros(200)]), the list [Ciclo_A] and the
    layer counter [i]. *)
Record EstadoA : Type := mkEstadoA {
  i : nat;
  r_A : list R;
  P_A : list R;
  T_A : list R;
  M_A : list R;
  L_A : list R;
  dP_A : list R;
  dT_A : list R;
  dM_A : list R;
  dL_A : list R;
  Ciclo_A : list Ciclo
}.

Definition inicialA : EstadoA :=
  mkEstadoA 0 (np.zeros 200) (np.zeros 200) (np.zeros 200) (np.zeros 200)
    (np.zeros 200) (np.zeros 200) (np.zeros 200) (np.zeros 200)
    (np.zeros 200) [].

(** What one pass of a layer loop decides: the layer is accepted, or the
    loop ends and the layer is rejected. *)
Inductive Paso (A B : Type) : Type :=
  | Acepta (st : A)
  | Sale (out : B).
Arguments Acepta {A B} st.
Arguments Sale {A B} out.

(** Lines 82-94: the constants [(mu, R_ini, h, A1, A2)]. *)
Definition constantes (M_tot X Y R_tot L_tot num_capas : R)
  : res (R * R * R * R * R) :=
  let Z := 1 - X - Y in
  mu ← peso_molecular X Y;
  let R_ini := 0.9 * R_tot in
  h ← (- R_ini) /! num_capas;
  let A1 := 1.9022 * mu * M_tot in
  a ← M_tot /! (mu * Z * (1 + X) * L_tot);
  s ← sqrt_py a;
  let A2 := 10.645 * s in
  Ok (mu, R_ini, h, A1, A2).

Section fases.

Variable fuel : nat.
Variables M_tot X Y R_tot L_tot : R.
Variables mu R_ini h A1 A2 : R.

(** Lines 113-134: one pass of the loop of Phase 0. *)
Definition paso_0 (st : Estado0) : res (Paso Estado0 Estado0) :=
  let i := i0 st in
  let r_i := R_ini - h * INR (i + 1) in
  a ← 1 /! r_i;
  b ← 1 /! R_tot;
  let T_i := A1 * (a - b) in
  P_i ← (if T_i <=? 0 then Ok 0
         else t ← T_i ^! 4.25; Ok (A2 * t));
  let L_i := L_tot in
  let M_i := M_tot in
  if R_tot <? r_i then Ok (Sale st)
  else
    r' ← np.escribir (r_0 st) i r_i;
    P' ← np.escribir (P_0 st) i P_i;
    T' ← np.escribir (T_0 st) i T_i;
    M' ← np.escribir (M_0 st) i M_i;
    L' ← np.escribir (L_0 st) i L_i;
    Ok (Acepta (mkEstado0 (i + 1) r' P' T' M' L' (Ciclo_0 st ++ [Nulo]))).

Fixpoint bucle_0 (n : nat) (st : Estado0) : res Estado0 :=
  match n with
  | O => Agotado
  | S n' =>
      p ← paso_0 st;
      match p with
      | Sale st' => Ok st'
      | Acepta st' => bucle_0 n' st'
      end
  end.

Definition fase_0 : res Estado0 := bucle_0 fuel inicial0.

(** *** Phase A: the three first layers (lines 157-178) *)

Definition semilla_A (st : EstadoA) (i : nat) : res EstadoA :=
  let r_i := R_ini + h * INR i in
  a ← 1 /! r_i;
  b ← 1 /! R_tot;
  let T_i := A1 * (a - b) in
  t ← T_i ^! 4.25;
  let P_i := A2 * t in
  let L_i := L_tot in
  let M_i := M_tot in
  r' ← np.escribir (r_A st) i r_i;
  P' ← np.escribir (P_A st) i P_i;
  T' ← np.escribir (T_A st) i T_i;
  M' ← np.escribir (M_A st) i M_i;
  L' ← np.escribir (L_A st) i L_i;
  '(f0, f1, f2, f3) ← derydif.derivadas r_i P_i T_i M_i L_i mu X Y
                         false false true true PorDefecto;
  dP' ← np.escribir (dP_A st) i f0;
  dT' ← np.escribir (dT_A st) i f1;
  dM' ← np.escribir (dM_A st) i f2;
  dL' ← np.escribir (dL_A st) i f3;
  Ok (mkEstadoA i r' P' T' M' L' dP' dT' dM' dL' (Ciclo_A st ++ [Nulo])).

Definition semillas_A : res EstadoA :=
  st0 ← semilla_A inicialA 0;
  st1 ← semilla_A st0 1;
  semilla_A st1 2.

(** The values of layer [i] and the derivatives of layers [i], [i-1]
    and [i-2] that a pass reads from the buffers. *)
Record Historia : Type := mkHistoria {
  P_i : R; T_i : R; M_i : R; L_i : R;
  dP_i : R; dP_im1 : R; dP_im2 : R;
  dT_i : R; dT_im1 : R; dT_im2 : R;
  dM_i : R; dM_im1 : R;
  dL_i : R; dL_im1 : R
}.

Definition historia (st : EstadoA) : res Historia :=
  let i := i st in
  P_i ← np.leer (P_A st) i;
  T_i ← np.leer (T_A st) i;
  M_i ← np.leer (M_A st) i;
  L_i ← np.leer (L_A st) i;
  dP_i ← np.leer (dP_A st) i;
  dP_im1 ← np.leer (dP_A st) (i - 1);
  dP_im2 ← np.leer (dP_A st) (i - 2);
  dT_i ← np.leer (dT_A st) i;
  dT_im1 ← np.leer (dT_A st) (i - 1);
  dT_im2 ← np.leer (dT_A st) (i - 2);
  dM_i ← np.leer (dM_A st) i;
  dM_im1 ← np.leer (dM_A st) (i - 1);
  dL_i ← np.leer (dL_A st) i;
  dL_im1 ← np.leer (dL_A st) (i - 1);
  Ok (mkHistoria P_i T_i M_i L_i dP_i dP_im1 dP_im2 dT_i dT_im1 dT_im2
        dM_i dM_im1 dL_i dL_im1).

(** The values computed for the new layer [i+1]. *)
Record Capa : Type := mkCapa {
  r_i1 : R;
  P_cal : R; T_cal : R; M_cal : R; L_cal : R;
  dP_i1 : R; dT_i1 : R; dM_i1 : R; dL_i1 : R;
  Ciclo_i1 : Ciclo
}.

(** The assignments that accept a layer, followed by [i += 1].  Phase
    A.1.1 leaves [dL_A[i+1]] untouched: [dL] is [None] there. *)
Definition aceptar (st : EstadoA) (r P T M L dP dT dM : R)
    (dL : option R) (c : Ciclo) : res EstadoA :=
  let i := i st in
  r' ← np.escribir (r_A st) (i + 1) r;
  P' ← np.escribir (P_A st) (i + 1) P;
  T' ← np.escribir (T_A st) (i + 1) T;
  M' ← np.escribir (M_A st) (i + 1) M;
  L' ← np.escribir (L_A st) (i + 1) L;
  dP' ← np.escribir (dP_A st) (i + 1) dP;
  dT' ← np.escribir (dT_A st) (i + 1) dT;
  dM' ← np.escribir (dM_A st) (i + 1) dM;
  dL' ← match dL with
        | Some d => np.escribir (dL_A st) (i + 1) d
        | None => Ok (dL_A st)
        end;
  Ok (mkEstadoA (i + 1) r' P' T' M' L' dP' dT' dM' dL' (Ciclo_A st ++ [c])).

(** The estimates of pressure and temperature that open a pass. *)
Definition P_estimada (hi : Historia) : R :=
  valor_estimado.presion_estimada (P_i hi) (dP_i hi) (dP_im1 hi) (dP_im2 hi) h.

Definition T_estimada (hi : Historia) : R :=
  valor_estimado.temperatura_estimada (T_i hi) (dT_i hi) (dT_im1 hi)
    (dT_im2 hi) h.

(** *** Phase A.1.1: mass and luminosity constant (lines 184-240) *)

(** The pressure loop; it gives [(P_est, P_cal, dP_i1)]. *)
Fixpoint bucle_P_11 (n : nat) (r_i1 : R) (hi : Historia) (T_est P_est : R)
  : res (R * R * R) :=
  match n with
  | O => Agotado
  | S n' =>
      '(P_cal, dP_i1) ← valor_calculado.presion_calculada
                          r_i1 (P_i hi) P_est T_est M_tot
                          (dP_i hi) (dP_im1 hi) mu h;
      q ← (P_cal - P_est) /! P_cal;
      if Rabs q <? E_rel_max then Ok (P_est, P_cal, dP_i1)
      else bucle_P_11 n' r_i1 hi T_est P_cal
  end.

(** The temperature loop; it gives [(P_cal, dP_i1, T_cal, dT_i1)]. *)
Fixpoint bucle_T_11 (n : nat) (r_i1 : R) (hi : Historia) (P_est T_est : R)
  : res (R * R * R * R) :=
  match n with
  | O => Agotado
  | S n' =>
      '(P_est', P_cal, dP_i1) ← bucle_P_11 fuel r_i1 hi T_est P_est;
      '(T_cal, dT_i1) ← valor_calculado.temperatura_calculada
                          r_i1 P_cal (T_i hi) T_est M_tot L_tot
                          (dT_i hi) (dT_im1 hi) mu h X Y PorDefecto;
      q ← (T_cal - T_est) /! T_cal;
      if Rabs q <? E_rel_max then Ok (P_cal, dP_i1, T_cal, dT_i1)
      else bucle_T_11 n' r_i1 hi P_est' T_cal
  end.

Definition paso_11 (st : EstadoA) : res (Paso EstadoA EstadoA) :=
  let r_i1 := R_ini + h * INR (i st + 1) in
  hi ← historia st;
  '(P_cal, dP_i1, T_cal, dT_i1) ←
    bucle_T_11 fuel r_i1 hi (P_estimada hi) (T_estimada hi);
  '(M_cal, dM_i1) ← valor_calculado.masa_calculada
                      r_i1 P_cal T_cal M_tot (dM_i hi) (dM_im1 hi) mu h;
  q ← (M_cal - M_tot) /! M_cal;
  if E_rel_max <? Rabs q then Ok (Sale st)
  else
    st' ← aceptar st r_i1 P_cal T_cal M_tot L_tot dP_i1 dT_i1 dM_i1
            None Nulo;
    Ok (Acepta st').

(** *** Phase A.1.2: mass variable, luminosity constant (lines 246-306) *)

(** The pressure loop of phases A.1.2 and A.1.3; it gives
    [(P_est, M_cal, dM_i1, P_cal, dP_i1)]. *)
Fixpoint bucle_P_12 (n : nat) (r_i1 : R) (hi : Historia) (T_est P_est : R)
  : res (R * R * R * R * R) :=
  match n with
  | O => Agotado
  | S n' =>
      '(M_cal, dM_i1) ← valor_calculado.masa_calculada
                          r_i1 P_est T_est (M_i hi)
                          (dM_i hi) (dM_im1 hi) mu h;
      '(P_cal, dP_i1) ← valor_calculado.presion_calculada
                          r_i1 (P_i hi) P_est T_est M_cal
                          (dP_i hi) (dP_im1 hi) mu h;
      q ← (P_cal - P_est) /! P_cal;
      if Rabs q <? E_rel_max then Ok (P_est, M_cal, dM_i1, P_cal, dP_i1)
      else bucle_P_12 n' r_i1 hi T_est P_cal
  end.

(** The temperature loop; it gives
    [(M_cal, dM_i1, P_cal, dP_i1, T_cal, dT_i1)]. *)
Fixpoint bucle_T_12 (n : nat) (r_i1 : R) (hi : Historia) (P_est T_est : R)
  : res (R * R * R * R * R * R) :=
  match n with
  | O => Agotado
  | S n' =>
      '(P_est', M_cal, dM_i1, P_cal, dP_i1) ←
        bucle_P_12 fuel r_i1 hi T_est P_est;
      '(T_cal, dT_i1) ← valor_calculado.temperatura_calculada
                          r_i1 P_cal (T_i hi) T_est M_cal L_tot
                          (dT_i hi) (dT_im1 hi) mu h X Y PorDefecto;
      q ← (T_cal - T_est) /! T_cal;
      if Rabs q <? E_rel_max
      then Ok (M_cal, dM_i1, P_cal, dP_i1, T_cal, dT_i1)
      else bucle_T_12 n' r_i1 hi P_est' T_cal
  end.

Definition paso_12 (st : EstadoA) : res (Paso EstadoA EstadoA) :=
  let r_i1 := R_ini + h * INR (i st + 1) in
  hi ← historia st;
  '(M_cal, dM_i1, P_cal, dP_i1, T_cal, dT_i1) ←
    bucle_T_12 fuel r_i1 hi (P_estimada hi) (T_estimada hi);
  '(L_cal, dL_i1, Ciclo) ← valor_calculado.luminosidad_calculada
                             r_i1 P_cal T_cal L_tot (dL_i hi) (dL_im1 hi)
                             mu h X Y;
  q ← (L_cal - L_tot) /! L_cal;
  if E_rel_max <? Rabs q then Ok (Sale st)
  else
    st' ← aceptar st r_i1 P_cal T_cal M_cal L_tot dP_i1 dT_i1 dM_i1
            (Some dL_i1) Nulo;
    Ok (Acepta st').

(** [while loop1] of phases A.1.1 and A.1.2. *)
Fixpoint bucle_capas (paso : EstadoA -> res (Paso EstadoA EstadoA))
    (n : nat) (st : EstadoA) : res EstadoA :=
  match n with
  | O => Agotado
  | S n' =>
      p ← paso st;
      match p with
      | Sale st' => Ok st'
      | Acepta st' => bucle_capas paso n' st'
      end
  end.

Definition fase_A11 (st : EstadoA) : res EstadoA :=
  bucle_capas paso_11 fuel st.

Definition fase_A12 (st : EstadoA) : res EstadoA :=
  bucle_capas paso_12 fuel st.

(** *** Phase A.1.3: mass and luminosity variable (lines 313-378) *)

(** The temperature loop; it gives the values of the new layer. *)
Fixpoint bucle_T_13 (n : nat) (r_i1 : R) (hi : Historia) (P_est T_est : R)
  : res Capa :=
  match n with
  | O => Agotado
  | S n' =>
      '(P_est', M_cal, dM_i1, P_cal, dP_i1) ←
        bucle_P_12 fuel r_i1 hi T_est P_est;
      '(L_cal, dL_i1, Ciclo_i1) ← valor_calculado.luminosidad_calculada
                                    r_i1 P_cal T_est (L_i hi)
                                    (dL_i hi) (dL_im1 hi) mu h X Y;
      '(T_cal, dT_i1) ← valor_calculado.temperatura_calculada
                          r_i1 P_cal (T_i hi) T_est M_cal L_cal
                          (dT_i hi) (dT_im1 hi) mu h X Y PorDefecto;
      q ← (T_cal - T_est) /! T_cal;
      if Rabs q <? E_rel_max
      then Ok (mkCapa r_i1 P_cal T_cal M_cal L_cal dP_i1 dT_i1 dM_i1 dL_i1
                 Ciclo_i1)
      else bucle_T_13 n' r_i1 hi P_est' T_cal
  end.

(** Line 363: is the hypothesis of radiative transport no longer valid?
    [n_i1] is [n_mas_1_i1] and [n_i] is [n_mas_1[i]]. *)
Definition criterio_conveccion (n_i1 n_i : R) : bool :=
  (n_i1 <=? 2.5) || ((n_i <? n_i1) && negb (n_i =? 0)).

(** One pass; the state is the buffers and the array [n_mas_1].  When the
    loop ends, the values computed for the rejected layer stay in the
    local variables: they are given with the state. *)
Definition paso_13 (s : EstadoA * list R)
  : res (Paso (EstadoA * list R) (EstadoA * list R * Capa)) :=
  let '(st, n_mas_1) := s in
  let r_i1 := R_ini + h * INR (i st + 1) in
  hi ← historia st;
  c ← bucle_T_13 fuel r_i1 hi (P_estimada hi) (T_estimada hi);
  n_mas_1_i1 ← transporte.n_mas_1 (P_cal c) (T_cal c) (dP_i1 c) (dT_i1 c);
  n_mas_1' ← np.escribir n_mas_1 (i st + 1) n_mas_1_i1;
  n_i ← np.leer n_mas_1' (i st);
  if criterio_conveccion n_mas_1_i1 n_i then Ok (Sale (st, n_mas_1', c))
  else
    st' ← aceptar st r_i1 (P_cal c) (T_cal c) (M_cal c) (L_cal c)
            (dP_i1 c) (dT_i1 c) (dM_i1 c) (Some (dL_i1 c)) (Ciclo_i1 c);
    Ok (Acepta (st', n_mas_1')).

Fixpoint bucle_13 (n : nat) (s : EstadoA * list R)
  : res (EstadoA * list R * Capa) :=
  match n with
  | O => Agotado
  | S n' =>
      p ← paso_13 s;
      match p with
      | Sale out => Ok out
      | Acepta s' => bucle_13 n' s'
      end
  end.

Definition fase_A13 (st : EstadoA) : res (EstadoA * list R * Capa) :=
  bucle_13 fuel (st, np.zeros 200).

(** *** Phase A.2: the convective core (lines 387-443) *)

Section nucleo.

Variable k_prima : R.
(** [dP_i1] is not assigned in this phase: it keeps the value that
    Phase A.1.3 left. *)
Variable dP_i1_13 : R.

(** The temperature loop; [dT_prev] is the value that [dT_i1] holds
    when the loop is entered.  It gives
    [(P_est, M_cal, dM_i1, T_cal, dT_i1)]. *)
Fixpoint bucle_T_2 (n : nat) (r_i1 : R) (hi : Historia)
    (dT_prev T_est : R) : res (R * R * R * R * R) :=
  match n with
  | O => Agotado
  | S n' =>
      P_est ← politropo.presion T_est k_prima;
      '(M_cal, dM_i1) ← valor_calculado.masa_calculada
                          r_i1 P_est T_est (M_i hi)
                          (dM_i hi) (dM_im1 hi) mu h;
      '(T_cal, dT_i1) ←
        (if r_i1 =? 0 then Ok (T_est, dT_prev)
         else valor_calculado.temperatura_calculada
                r_i1 P_est (T_i hi) T_est M_cal (L_i hi)
                (dT_i hi) (dT_im1 hi) mu h X Y CONVECTIVE);
      q ← (T_cal - T_est) /! T_cal;
      if Rabs q <? E_rel_max then Ok (P_est, M_cal, dM_i1, T_cal, dT_i1)
      else bucle_T_2 n' r_i1 hi dT_i1 T_cal
  end.

(** One pass; the state is the buffers and the value of [dT_i1]. *)
Definition paso_2 (s : EstadoA * R)
  : res (Paso (EstadoA * R) EstadoA) :=
  let '(st, dT_prev) := s in
  let r_i1 := R_ini + h * INR (i st + 1) in
  hi ← historia st;
  '(P_est, M_cal, dM_i1, T_cal, dT_i1) ←
    bucle_T_2 fuel r_i1 hi dT_prev (T_estimada hi);
  P_cal ← (if r_i1 =? 0 then Ok P_est
           else politropo.presion T_cal k_prima);
  '(L_cal, dL_i1, Ciclo_i1) ← valor_calculado.luminosidad_calculada
                                r_i1 P_cal T_cal (L_i hi)
                                (dL_i hi) (dL_im1 hi) mu h X Y;
  if r_i1 <? 0 then Ok (Sale st)
  else
    st' ← aceptar st r_i1 P_cal T_cal M_cal L_cal dP_i1_13 dT_i1 dM_i1
            (Some dL_i1) Ciclo_i1;
    Ok (Acepta (st', dT_i1)).

Fixpoint bucle_2 (n : nat) (s : EstadoA * R) : res EstadoA :=
  match n with
  | O => Agotado
  | S n' =>
      p ← paso_2 s;
      match p with
      | Sale st' => Ok st'
      | Acepta s' => bucle_2 n' s'
      end
  end.

End nucleo.

(** *** Phase A as a whole, and the values at the boundary *)

(** What Phase A leaves for the rest of [star]. *)
Record FaseA : Type := mkFaseA {
  radiativa : EstadoA;   (* the buffers when Phase A.1.3 ends *)
  candidata : Capa;      (* the layer that Phase A.1.3 rejected *)
  n_mas_1 : list R;
  i_f : nat;
  k_prima : R;
  capas_A : EstadoA      (* the buffers when Phase A.2 ends *)
}.

Definition fase_A : res FaseA :=
  st ← semillas_A;
  st1 ← fase_A11 st;
  st2 ← fase_A12 st1;
  '(st3, n_mas_1, c) ← fase_A13 st2;
  let i_f := i st3 in
  k_prima ← politropo.cte_k (P_cal c) (T_cal c);
  st4 ← bucle_2 k_prima (dP_i1 c) fuel (st3, dT_i1 c);
  Ok (mkFaseA st3 c n_mas_1 i_f k_prima st4).

(** Lines 449-450: the radius at which [n+1 = 2.5]. *)
Definition radio_frontera (a : FaseA) : res R :=
  n1 ← np.leer (n_mas_1 a) (i_f a + 1);
  n0 ← np.leer (n_mas_1 a) (i_f a);
  r1 ← np.leer (r_A (capas_A a)) (i_f a + 1);
  r0 ← np.leer (r_A (capas_A a)) (i_f a);
  Ok (np.interp 2.5 n1 n0 r1 r0).

(** Lines 452-456. *)
Definition frontera_A (a : FaseA) (rf : R) : res Frontera :=
  let st := capas_A a in
  let i_f := i_f a in
  r1 ← np.leer (r_A st) (i_f + 1); r0 ← np.leer (r_A st) i_f;
  P1 ← np.leer (P_A st) (i_f + 1); P0 ← np.leer (P_A st) i_f;
  T1 ← np.leer (T_A st) (i_f + 1); T0 ← np.leer (T_A st) i_f;
  M1 ← np.leer (M_A st) (i_f + 1); M0 ← np.leer (M_A st) i_f;
  L1 ← np.leer (L_A st) (i_f + 1); L0 ← np.leer (L_A st) i_f;
  Ok (valores_frontera.frontera rf (r1, r0) (P1, P0) (T1, T0) (M1, M0)
        (L1, L0)).

End fases.

(** *** The fit of the central temperature (lines 470-513) *)

Section ajuste.

Variable fuel : nat.
(** A run of Phase B for a central temperature; in [star] it is
    [fb.conveccion(T_c, rf, -h, X, Y, k_prima)]. *)
Variable fase_B : R -> res (Param * Frontera * list Ciclo).
Variable Frontera_A : Frontera.

(** Lines 471-478: [(Increase_T_c, Decrease_T_c, incremento)]; the
    variable [incremento] stays unbound when the two luminosities are
    equal. *)
Definition direccion (Frontera_B : Frontera) : bool * bool * option R :=
  if Lf Frontera_B <? Lf Frontera_A then (true, false, Some 0.05)
  else if Lf Frontera_A <? Lf Frontera_B then (false, true, Some (-0.05))
  else (false, false, None).

(** Lines 484-485: the test that ends the loop [while loopT]. *)
Definition fin_busqueda (Increase_T_c Decrease_T_c : bool)
    (Frontera_B : Frontera) : bool :=
  ((Increase_T_c && (Lf Frontera_A <? Lf Frontera_B))
     || (Lf Frontera_B =? 0))
  || ((Decrease_T_c && (Lf Frontera_B <? Lf Frontera_A))
        || (Lf Frontera_B =? 0)).

(** The value of a local variable that may be unbound. *)
Definition variable (v : option R) : res R :=
  match v with
  | Some x => Ok x
  | None => Err UnboundLocalError
  end.

(** Lines 480-488: it gives the value of [T_c] when the loop ends. *)
Fixpoint bucle_T_c (n : nat) (Increase_T_c Decrease_T_c : bool)
    (incremento : option R) (T_c : R) : res R :=
  match n with
  | O => Agotado
  | S n' =>
      '(param, Frontera_B, Ciclo_B) ← fase_B T_c;
      if fin_busqueda Increase_T_c Decrease_T_c Frontera_B then Ok T_c
      else
        inc ← variable incremento;
        bucle_T_c n' Increase_T_c Decrease_T_c incremento (T_c + inc)
  end.

(** Lines 491-493: [(T_c_init, T_c_fin)]. *)
Definition intervalo (incremento : option R) (T_c : R) : res (R * R) :=
  inc ← variable incremento;
  let T_c_l := T_c - inc in
  Ok (Rmin T_c_l T_c, Rmax T_c_l T_c).

(** Line 505, for one component: [abs((a - b)/a)]. *)
Definition error_relativo (a b : R) : res R :=
  q ← (a - b) /! a;
  Ok (Rabs q).

(** Lines 505-506.  The component of the radius, [E_r[0]], is computed
    by the source and not used. *)
Definition error_total (Frontera_B : Frontera) : res R :=
  e1 ← error_relativo (Pf Frontera_A) (Pf Frontera_B);
  e2 ← error_relativo (Tf Frontera_A) (Tf Frontera_B);
  e3 ← error_relativo (Mf Frontera_A) (Mf Frontera_B);
  e4 ← error_relativo (Lf Frontera_A) (Lf Frontera_B);
  Ok (sqrt (e1 ^ 2 + e2 ^ 2 + e3 ^ 2 + e4 ^ 2)).

(** Lines 501-509: the loop over the trial temperatures; [j] counts
    them. *)
Fixpoint barrido (trials : list R) (j : nat) (T_prueba E_rT : list R)
  : res (list R * list R) :=
  match trials with
  | [] => Ok (T_prueba, E_rT)
  | T_c :: trials' =>
      '(param, Frontera_B, Ciclo_B) ← fase_B T_c;
      E_rT_j ← error_total Frontera_B;
      T_prueba' ← np.escribir T_prueba j T_c;
      E_rT' ← np.escribir E_rT j E_rT_j;
      barrido trials' (j + 1) T_prueba' E_rT'
  end.

(** [min(E_rT)] *)
Definition minimo_de (a : list R) : res R :=
  match a with
  | [] => Err ValueError
  | x :: a' => Ok (fold_left Rmin a' x)
  end.

(** [float(T_prueba[pos])]: the conversion needs an array of one
    element. *)
Definition float_de (T_prueba : list R) (pos : list nat) : res R :=
  match pos with
  | [j] => np.leer T_prueba j
  | _ => Err TypeError
  end.

(** Lines 498-513: [(minimo, T_c_def)]. *)
Definition ajuste_fino (T_c_init T_c_fin : R) : res (R * R) :=
  '(T_prueba, E_rT) ← barrido (np.arange T_c_init T_c_fin E_rel_max) 0
                        (np.zeros 501) (np.zeros 501);
  minimo ← minimo_de E_rT;
  let pos := np.where_eq E_rT minimo in
  T_c_def ← float_de T_prueba pos;
  Ok (minimo, T_c_def).

(** Lines 465-513. *)
Definition ajuste (T_c : R) : res (R * R) :=
  '(param, Frontera_B, Ciclo_B) ← fase_B T_c;
  let '(Increase_T_c, Decrease_T_c, incremento) := direccion Frontera_B in
  T_c' ← bucle_T_c fuel Increase_T_c Decrease_T_c incremento T_c;
  '(T_c_init, T_c_fin) ← intervalo incremento T_c';
  ajuste_fino T_c_init T_c_fin.

End ajuste.

(** *** The final result (lines 528-584) *)

Inductive Transporte : Type := RADIATIVO | CONVECTIVO.

#[global] Instance Transporte_eq_dec : EqDecision Transporte.
Proof. solve_decision. Defined.

(** The dictionary [agrupado]. *)
Record Agrupado : Type := mkAgrupado {
  Capa_col : list nat;
  Transporte_col : list Transporte;
  Ciclo_col : list Ciclo;
  Radio : list R;
  Presion : list R;
  Temperatura : list R;
  Masa : list R;
  Luminosidad : list R
}.

(** [a[:-1]] *)
Definition sin_ultimo {A : Type} (a : list A) : list A :=
  take (length a - 1) a.

(** A column: [np.round(np.concatenate((x_B, np.flip(x_A), x_0)), 4)],
    after the trims and the slices of each buffer. *)
Definition columna (x_B x_A x_0 : list R) (i_f : nat) : list R :=
  let x_B := sin_ultimo (np.trim_zeros x_B) in
  let x_A := take (i_f + 1) (np.trim_zeros x_A) in
  let x_0 := np.trim_zeros x_0 in
  map np.round4 (x_B ++ reverse x_A ++ x_0).

Definition resultado (param : Param) (Ciclo_B : list Ciclo)
    (stA : EstadoA) (i_f : nat) (st0 : Estado0) : Agrupado :=
  let r_B := sin_ultimo (np.trim_zeros (p_r param)) in
  let Ciclo_B := sin_ultimo Ciclo_B in
  let r_A := take (i_f + 1) (np.trim_zeros (r_A stA)) in
  let Ciclo_A := take (i_f + 1) (Ciclo_A stA) in
  let r_0 := np.trim_zeros (r_0 st0) in
  let r := columna (p_r param) (estrella.r_A stA) (estrella.r_0 st0) i_f in
  let P := columna (p_P param) (P_A stA) (P_0 st0) i_f in
  let T := columna (p_T param) (T_A stA) (T_0 st0) i_f in
  let M := columna (p_M param) (M_A stA) (M_0 st0) i_f in
  let L := columna (p_L param) (L_A stA) (L_0 st0) i_f in
  let i := seq 0 (length r) in
  let Ciclo := Ciclo_B ++ reverse Ciclo_A ++ Ciclo_0 st0 in
  let radiative := replicate (length r_0 + length r_A) RADIATIVO in
  let convective := replicate (length r_B) CONVECTIVO in
  let Transp := convective ++ radiative in
  mkAgrupado i Transp Ciclo r P T M L.

(** *** [star] *)

Definition star (fuel : nat) (M_tot X Y R_tot L_tot T_c num_capas : R)
  : res (Agrupado * R * R) :=
  '(mu, R_ini, h, A1, A2) ← constantes M_tot X Y R_tot L_tot num_capas;
  st0 ← fase_0 fuel M_tot R_tot L_tot R_ini h A1 A2;
  a ← fase_A fuel M_tot X Y R_tot L_tot mu R_ini h A1 A2;
  rf ← radio_frontera a;
  Frontera_A ← frontera_A a rf;
  let fase_B := fun T_c => faseB.conveccion fuel T_c rf (- h) X Y (k_prima a) in
  '(minimo, T_c_def) ← ajuste fuel fase_B Frontera_A T_c;
  '(param, Frontera_B, Ciclo_B) ← fase_B T_c_def;
  Ok (resultado param Ciclo_B (capas_A a) (i_f a) st0, minimo, T_c_def).

End estrella.

(** ** ajuste.py *)

Module ajuste.

(** [np.zeros((n, m))]: a two-dimensional array, as the list of its
    rows. *)
Definition zeros2 (n m : nat) : list (list R) := replicate n (np.zeros m).

(** [a[i, j] = v] *)
Definition escribir2 (a : list (list R)) (i j : nat) (v : R)
  : res (list (list R)) :=
  match a !! i with
  | Some fila => fila' ← np.escribir fila j v; Ok (<[i := fila']> a)
  | None => Err IndexError
  end.

(** [np.min(a)] *)
Definition min2 (a : list (list R)) : res R := estrella.minimo_de (mjoin a).

(** [zip(pos[0], pos[1])] for [pos = np.where(a == v)]: the pairs of
    indices of the entries equal to [v], row by row. *)
Definition where2 (a : list (list R)) (v : R) : list (nat * nat) :=
  i ← seq 0 (length a);
  j ← np.where_eq (a !!! i) v;
  [(i, j)].

(** [posf, = ...]: the unpacking needs one element exactly. *)
Definition unico {A : Type} (l : list A) : res A :=
  match l with
  | [x] => Ok x
  | _ => Err ValueError
  end.

Definition dR : R := 0.5.
Definition dL : R := 5.

Section busqueda.

(** [star(M_tot, X, Y, R, L, T_c, num_capas)] as a function of the total
    radius and of the total luminosity, the two arguments that the
    searches vary. *)
Variable star : R -> R -> res (estrella.Agrupado * R * R).
Variables R_tot L_tot : R.

(** Lines 69-72: the loop over the luminosities, for the radius [R'] of
    the row [i]. *)
Fixpoint fila (Ls : list R) (R' : R) (i j : nat) (E_rT : list (list R))
  : res (list (list R)) :=
  match Ls with
  | [] => Ok E_rT
  | L' :: Ls' =>
      '(param, E_rT_i, T_c_def) ← star R' L';
      E_rT' ← escribir2 E_rT i j E_rT_i;
      fila Ls' R' i (j + 1) E_rT'
  end.

(** Lines 67-73: the loop over the radii. *)
Fixpoint malla (Rs Ls : list R) (i : nat) (E_rT : list (list R))
  : res (list (list R)) :=
  match Rs with
  | [] => Ok E_rT
  | R' :: Rs' =>
      E_rT' ← fila Ls R' i 0 E_rT;
      malla Rs' Ls (i + 1) E_rT'
  end.

(** Lines 58-78: [(R_base, L_base)]. *)
Definition base : res (R * R) :=
  let R_init := R_tot - 3 * dR in
  let R_fin := R_tot + 3 * dR in
  let L_init := L_tot - 3 * dL in
  let L_fin := L_tot + 3 * dL in
  E_rT ← malla (np.arange R_init (R_fin + 0.1) dR)
             (np.arange L_init (L_fin + 0.1) dL) 0 (zeros2 7 7);
  minimo ← min2 E_rT;
  posf ← unico (where2 E_rT minimo);
  let R_base := R_tot + (INR posf.1 - 3) * dR in
  let L_base := L_tot + (INR posf.2 - 3) * dL in
  Ok (R_base, L_base).

(** Lines 89-93: the loop over the luminosities of the fine search. *)
Fixpoint fila_fina (Ls : list R) (R' : R) (i j : nat)
    (E_rT_fino : list (list R)) (L_fino : list R)
  : res (list (list R) * list R) :=
  match Ls with
  | [] => Ok (E_rT_fino, L_fino)
  | L' :: Ls' =>
      '(param, E_rT_i, T_c_def) ← star R' L';
      E_rT_fino' ← escribir2 E_rT_fino i j E_rT_i;
      L_fino' ← np.escribir L_fino j L';
      fila_fina Ls' R' i (j + 1) E_rT_fino' L_fino'
  end.

(** Lines 87-95: the loop over the radii of the fine search. *)
Fixpoint malla_fina (Rs Ls : list R) (i : nat)
    (E_rT_fino : list (list R)) (R_fino L_fino : list R)
  : res (list (list R) * list R * list R) :=
  match Rs with
  | [] => Ok (E_rT_fino, R_fino, L_fino)
  | R' :: Rs' =>
      '(E_rT_fino', L_fino') ← fila_fina Ls R' i 0 E_rT_fino L_fino;
      R_fino' ← np.escribir R_fino i R';
      malla_fina Rs' Ls (i + 1) E_rT_fino' R_fino' L_fino'
  end.

(** Lines 83-101: [(R_final, L_final)]. *)
Definition fino (R_base L_base : R) : res (R * R) :=
  '(E_rT_fino, R_fino, L_fino) ←
    malla_fina (np.arange (R_base - 0.5) (R_base + 0.51) 0.1)
      (np.arange (L_base - 5) (L_base + 5.1) 1) 0
      (zeros2 11 11) (np.zeros 11) (np.zeros 11);
  minimo_fino ← min2 E_rT_fino;
  posf_fino ← unico (where2 E_rT_fino minimo_fino);
  R_final ← np.leer R_fino posf_fino.1;
  L_final ← np.leer L_fino posf_fino.2;
  Ok (R_final, L_final).

(** Lines 58-104: the model of the best radius and luminosity. *)
Definition modelo : res (estrella.Agrupado * R * R) :=
  '(R_base, L_base) ← base;
  '(R_final, L_final) ← fino R_base L_base;
  star R_final L_final.

End busqueda.

(** *** The table that is printed (lines 109-140) *)

(** The values of a row of the table. *)
Record Fila : Type := mkFila {
  f_Capa : nat;
  f_Transporte : estrella.Transporte;
  f_Ciclo : Ciclo;
  f_Radio : R;
  f_Presion : R;
  f_Temperatura : R;
  f_Masa : R;
  f_Luminosidad : R
}.

(** [l[k]] *)
Definition elemento {A : Type} (l : list A) (k : nat) : res A :=
  match l !! k with
  | Some x => Ok x
  | None => Err IndexError
  end.

(** Lines 137-140: the row [k]. *)
Definition fila_k (t : estrella.Agrupado) (k : nat) : res Fila :=
  c ← elemento (estrella.Capa_col t) k;
  tr ← elemento (estrella.Transporte_col t) k;
  ci ← elemento (estrella.Ciclo_col t) k;
  r ← elemento (estrella.Radio t) k;
  P ← elemento (estrella.Presion t) k;
  T ← elemento (estrella.Temperatura t) k;
  M ← elemento (estrella.Masa t) k;
  L ← elemento (estrella.Luminosidad t) k;
  Ok (mkFila c tr ci r P T M L).

(** The loop [for k in range(capas)] over the rows [ks]: the rows that
    are printed, and how the loop ends. *)
Fixpoint filas (t : estrella.Agrupado) (ks : list nat)
  : list Fila * res unit :=
  match ks with
  | [] => ([], Ok ())
  | k :: ks' =>
      match fila_k t k with
      | Ok f => let '(fs, fin) := filas t ks' in (f :: fs, fin)
      | Err e => ([], Err e)
      | Agotado => ([], Agotado)
      end
  end.

(** Lines 117 and 136-140, with [capas = len(Capa)]. *)
Definition tabla (t : estrella.Agrupado) : list Fila * res unit :=
  filas t (seq 0 (length (estrella.Capa_col t))).

End ajuste.

(** ** The derivative of the luminosity on numpy scalars *)

(** In the program the pressure, the temperature and the radius that reach
    [primera_derivada.luminosidad] are [numpy.float64] scalars (they are
    read from the numpy buffers or computed from such values), on which a
    division by zero and zero to a negative power give [inf] or [nan] with
    a warning, where the Python floats raise [ZeroDivisionError]. *)
Module numpy64.

(** A [numpy.float64] scalar: a real number, an infinity with its sign, or
    [nan].  The rounding, the overflow of a finite result and the sign of
    zero are not modelled. *)
Inductive float64 : Type :=
  | Finito (x : R)
  | Inf (positivo : bool)
  | NaN.

(** [a * b] *)
Definition mul (a b : float64) : float64 :=
  match a, b with
  | Finito x, Finito y => Finito (x * y)
  | Finito x, Inf s | Inf s, Finito x =>
      if x =? 0 then NaN else Inf (if 0 <? x then s else negb s)
  | Inf s, Inf s' => Inf (if s then s' else negb s')
  | _, _ => NaN
  end.

(** [x ** y] for finite [x] and [y]: as [pow_py], but zero to a negative
    power is [inf] and a negative base with an exponent that is not whole
    gives [nan]. *)
Definition pow (x y : R) : float64 :=
  if y =? 0 then Finito 1
  else if 0 <? x then Finito (Rpower x y)
  else if x =? 0 then (if y <? 0 then Inf true else Finito 0)
  else if frac_part y =? 0 then Finito (powerRZ x (Int_part y))
  else NaN.

(** [primera_derivada.luminosidad] (lines 100-137) for finite arguments.
    The powers of [energia.ciclo] have the exponent 0 or a positive base,
    and are the same on the two kinds of numbers. *)
Definition luminosidad (r_i P_i T_i mu X Y : R) (L_cte : bool)
  : res (float64 * Ciclo) :=
  if L_cte then Ok (Finito 0, Nulo)
  else
    '(CICLO, E1, nu) ← energia.ciclo T_i X Y;
    let '(X1, X2) := primera_derivada.fracciones CICLO X Y in
    Ok (mul (mul (mul (mul (mul (Finito (0.01845 * E1 * (X1 * X2)))
                                (pow 10 nu))
                           (pow mu 2))
                      (pow P_i 2))
                 (pow T_i (nu - 2)))
            (pow r_i 2),
        CICLO).

End numpy64.

(** * Notions used by the properties *)

(** The number of places of a list of transport labels at which the label
    differs from the next one. *)
Fixpoint cambios (l : list estrella.Transporte) : nat :=
  match l with
  | x :: l' =>
      match l' with
      | y :: _ => (if decide (x = y) then 0 else 1) + cambios l'
      | [] => 0
      end
  | [] => 0
  end.

(** The radii of the [n] first layers of a buffer decrease strictly. *)
Definition decreciente (r : list R) (n : nat) : Prop :=
  forall j, (j + 1 < n)%nat ->
    exists x y, r !! j = Some x /\ r !! (j + 1)%nat = Some y /\ y < x.

(** The radii of the [n] first layers of a buffer increase strictly. *)
Definition creciente (r : list R) (n : nat) : Prop :=
  forall j, (j + 1 < n)%nat ->
    exists x y, r !! j = Some x /\ r !! (j + 1)%nat = Some y /\ x < y.

(** A pass of the layer loops either leaves the state as it is, or accepts
    a layer at the radius [R_ini + h*(i+1)]. *)
Definition paso_correcto (R_ini h : R) (st : estrella.EstadoA)
    (p : estrella.Paso estrella.EstadoA estrella.EstadoA) : Prop :=
  match p with
  | estrella.Sale st' => st' = st
  | estrella.Acepta st' =>
      exists P T M L dP dT dM dL c,
        estrella.aceptar st (R_ini + h * INR (estrella.i st + 1))
          P T M L dP dT dM dL c = Ok st'
  end.

(** The layers 0 to [i] lie at the radii [R_ini + h*j], and the list of
    cycles has one entry for each of them. *)
Definition radios_A (R_ini h : R) (st : estrella.EstadoA) : Prop :=
  length (estrella.Ciclo_A st) = (estrella.i st + 1)%nat
  /\ forall j, (j <= estrella.i st)%nat ->
       estrella.r_A st !! j = Some (R_ini + h * INR j).

(** The layers 0 to [i] of Phase B lie at the radii [h*j], and the list of
    cycles has one entry for each of them. *)
Definition radios_B (h : R) (st : faseB.Estado) : Prop :=
  length (faseB.Ciclo_B st) = (faseB.i st + 1)%nat
  /\ forall j, (j <= faseB.i st)%nat -> faseB.r st !! j = Some (h * INR j).





(** The values of the layer [j] of Phase 0 (lines 113-120), as functions of
    [j], and the state of the loop when [k] layers have been accepted. *)
Definition radio_0 (R_ini h : R) (j : nat) : R := R_ini - h * INR (j + 1).

Definition temperatura_0 (R_tot R_ini h A1 : R) (j : nat) : R :=
  A1 * (1 / radio_0 R_ini h j - 1 / R_tot).

Definition presion_0 (R_tot R_ini h A1 A2 : R) (j : nat) : R :=
  if temperatura_0 R_tot R_ini h A1 j <=? 0 then 0
  else A2 * Rpower (temperatura_0 R_tot R_ini h A1 j) 4.25.

Definition capas_0 (M_tot R_tot L_tot R_ini h A1 A2 : R) (k : nat)
  : estrella.Estado0 :=
  estrella.mkEstado0 k
    (map (radio_0 R_ini h) (seq 0 k) ++ replicate (50 - k) 0)
    (map (presion_0 R_tot R_ini h A1 A2) (seq 0 k) ++ replicate (50 - k) 0)
    (map (temperatura_0 R_tot R_ini h A1) (seq 0 k) ++ replicate (50 - k) 0)
    (replicate k M_tot ++ replicate (50 - k) 0)
    (replicate k L_tot ++ replicate (50 - k) 0)
    (replicate k Nulo).

(** The entry [i] of a buffer holds a value that is not 0. *)
Definition no_nulo (l : list R) (i : nat) : Prop :=
  exists x, l !! i = Some x /\ x <> 0.

(** The entries of a buffer after the entry [i] are 0. *)
Definition ceros_tras (l : list R) (i : nat) : Prop :=
  forall j, (i < j)%nat -> (j < length l)%nat -> l !! j = Some 0.

(** The radius and the temperature of the last layer of Phase A are not
    0. *)
Definition capa_no_nula (st : estrella.EstadoA) : Prop :=
  no_nulo (estrella.r_A st) (estrella.i st)
  /\ no_nulo (estrella.T_A st) (estrella.i st).

(** The buffers of the radius and of the temperature of Phase B are filled
    up to the last layer, which is not the first one, and no further. *)
Definition capas_B_llenas (st : faseB.Estado) : Prop :=
  (2 <= faseB.i st)%nat
  /\ no_nulo (faseB.T st) (faseB.i st)
  /\ ceros_tras (faseB.r st) (faseB.i st)
  /\ ceros_tras (faseB.T st) (faseB.i st).

(** The layers 0 to [i] of Phase A have the mass [M] in the buffer of the
    masses, or the luminosity [L] in that of the luminosities. *)
Definition masa_constante (M : R) (st : estrella.EstadoA) : Prop :=
  forall j, (j <= estrella.i st)%nat -> estrella.M_A st !! j = Some M.

Definition luminosidad_constante (L : R) (st : estrella.EstadoA) : Prop :=
  forall j, (j <= estrella.i st)%nat -> estrella.L_A st !! j = Some L.

(** All the layers 0 to [i] of Phase A carry the label ['--']. *)
Definition sin_ciclo (st : estrella.EstadoA) : Prop :=
  estrella.Ciclo_A st = replicate (estrella.i st + 1) Nulo.

(** The layer [j] lies on the polytrope of the constant [k]: the pressure
    in the buffer [P] is the one that [politropo.presion] gives for the
    temperature in the buffer [T]. *)
Definition en_politropo (k : R) (P T : list R) (j : nat) : Prop :=
  exists t p,
    T !! j = Some t /\ P !! j = Some p /\ politropo.presion t k = Ok p.

(** The entry [(i, j)] of a two-dimensional array. *)
Definition celda (E : list (list R)) (i j : nat) : option R :=
  E !! i ≫= (.!! j).

(** The radius of the row [i] and the luminosity of the column [j] of the
    grid of the first search of [ajuste.py] (seven values each, around
    [R_tot] and [L_tot]), and those of the fine search (eleven values each,
    around [R_base] and [L_base]). *)
Definition radio_malla (R_tot : R) (i : nat) : R :=
  R_tot + (INR i - 3) * ajuste.dR.

Definition luminosidad_malla (L_tot : R) (j : nat) : R :=
  L_tot + (INR j - 3) * ajuste.dL.

Definition radio_fino (R_base : R) (i : nat) : R :=
  R_base - 0.5 + INR i * 0.1.

Definition luminosidad_fina (L_base : R) (j : nat) : R :=
  L_base - 5 + INR j * 1.

(** The number of rows for which every column of the table other than
    that of the layer index has an entry. *)
Definition altura (t : estrella.Agrupado) : nat :=
  Nat.min (length (estrella.Transporte_col t))
    (Nat.min (length (estrella.Ciclo_col t))
       (Nat.min (length (estrella.Radio t))
          (Nat.min (length (estrella.Presion t))
             (Nat.min (length (estrella.Temperatura t))
                (Nat.min (length (estrella.Masa t))
                   (length (estrella.Luminosidad t))))))).

(** * Particular inputs *)

(** ** A tie between the two cycles *)

(** At the temperature 1.5 the rate of the proton-proton chain is
    [a_pp * X**2] and the rate of the CN cycle is [b_CN * X * Z]. *)
Definition a_pp : R := Rpower 10 (-5.02) * Rpower (10 * 1.5) 4.0.
Definition b_CN : R := 1 / 3 * Rpower 10 (-22.2) * Rpower (10 * 1.5) 20.0.

(** The mass fraction of hydrogen for which, without helium, the two rates
    are equal at the temperature 1.5. *)
Definition X_empate : R := b_CN / (a_pp + b_CN).

(** ** A state of the loop of Phase A.1.3 *)


(** ** A Phase B with a fixed boundary *)

Definition param_nulo : Param :=
  mkParam (np.zeros 200) (np.zeros 200) (np.zeros 200) (np.zeros 200)
    (np.zeros 200).

(** A Phase B that returns the same values at the boundary for every
    central temperature. *)
Definition fase_B_fija (F : Frontera)
  : R -> res (Param * Frontera * list Ciclo) :=
  fun _ => Ok (param_nulo, F, []).

(** Values at the boundary that differ in the luminosity only: 2 from
    Phase A and 1 from Phase B. *)
Definition frontera_A_2 : Frontera := mkFrontera 1 1 1 1 2.
Definition frontera_B_1 : Frontera := mkFrontera 1 1 1 1 1.

(** ** A [star] with a known error *)

(** A table without rows. *)
Definition tabla_vacia : estrella.Agrupado :=
  estrella.mkAgrupado [] [] [] [] [] [] [] [].

(** A [star] whose error is the squared distance of the radius and of the
    luminosity to 10 and 70, and one whose error is 1 everywhere. *)
Definition star_cuadratica : R -> R -> res (estrella.Agrupado * R * R) :=
  fun R' L' =>
    Ok (tabla_vacia, (R' - 10) * (R' - 10) + (L' - 70) * (L' - 70), 0).

Definition star_constante : R -> R -> res (estrella.Agrupado * R * R) :=
  fun _ _ => Ok (tabla_vacia, 1, 0).

(** ** Two computations in binary64 *)

(** The program runs on binary64 numbers.  The number of trial temperatures
    of the fine fit and the radius of the last layer of Phase 0 are the
    places of the model where the rounding decides: here the arithmetic of
    lines 491-493 and of [np.arange], and that of lines 87-89 and 113-114,
    are written on the primitive floats. *)
Module binary64.

#[local] Set Warnings "-inexact-float".

(** [min([a, b])] and [max([a, b])] of Python. *)
Definition min_py (a b : float) : float :=
  if PrimFloat.ltb b a then b else a.

Definition max_py (a b : float) : float :=
  if PrimFloat.ltb a b then b else a.

(** [(T_c_fin - T_c_init) / E_rel_max], of which [np.arange] takes the
    ceiling as the number of its values, for the interval that the search
    builds when it ends at [T_c] with the step [incremento]. *)
Definition cociente (T_c incremento : float) : float :=
  let T_c_l := PrimFloat.sub T_c incremento in
  let T_c_init := min_py T_c_l T_c in
  let T_c_fin := max_py T_c_l T_c in
  PrimFloat.div (PrimFloat.sub T_c_fin T_c_init) 0.0001%float.

(** The search ends at 0.1, or at 2.0, with the step 0.05. *)
Definition cociente_0_1 : float := cociente 0.1%float 0.05%float.
Definition cociente_2_0 : float := cociente 2.0%float 0.05%float.

(** The radius [r_i = R_ini - h*(i+1)] of the layer [i] of Phase 0, with
    [R_ini = 0.9 * R_tot] and [h = -R_ini / num_capas], and the factor
    [1/r_i - 1/R_tot] of its temperature. *)
Definition radio_capa (R_tot num_capas : float) (i : Z) : float :=
  let R_ini := PrimFloat.mul 0.9%float R_tot in
  let h := PrimFloat.div (PrimFloat.opp R_ini) num_capas in
  PrimFloat.sub R_ini
    (PrimFloat.mul h (PrimFloat.of_uint63 (Uint63.of_Z (i + 1)))).

Definition factor_T (R_tot num_capas : float) (i : Z) : float :=
  PrimFloat.sub (PrimFloat.div 1%float (radio_capa R_tot num_capas i))
    (PrimFloat.div 1%float R_tot).

End binary64.

(** * Properties *)

(** ** The error monad *)

Lemma bind_Ok {A B : Type} (m : res A) (f : A -> res B) (b : B) :
  m ≫= f = Ok b <-> exists a, m = Ok a /\ f a = Ok b.
Proof.
  destruct m as [a | e |]; simpl; split.
  - intros H. exists a. split; [reflexivity | exact H].
  - intros (a' & Ha & Hf). injection Ha as ->. exact Hf.
  - discriminate.
  - intros (a' & Ha & _). discriminate.
  - discriminate.
  - intros (a' & Ha & _). discriminate.
Qed.

Lemma siempre_bind {A B : Type} (m : res A) (f : A -> res B) (P : B -> Prop) :
  siempre m (fun a => siempre (f a) P) -> siempre (m ≫= f) P.
Proof. destruct m; simpl; auto. Qed.

Lemma siempre_Ok {A : Type} (m : res A) (P : A -> Prop) :
  siempre m P <-> forall a, m = Ok a -> P a.
Proof.
  destruct m as [a | e |]; simpl; split; try done.
  - intros H a' [= <-]. exact H.
  - intros H. apply H. reflexivity.
Qed.

Lemma siempre_impl {A : Type} (m : res A) (P Q : A -> Prop) :
  (forall a, P a -> Q a) -> siempre m P -> siempre m Q.
Proof. destruct m; simpl; auto. Qed.

(** ** Comparisons *)

Lemma Rltb_true (x y : R) : (x <? y) = true <-> x < y.
Proof. unfold Rltb. destruct (Rlt_dec x y); split; try done. Qed.

Lemma Rltb_false (x y : R) : (x <? y) = false <-> y <= x.
Proof. unfold Rltb. destruct (Rlt_dec x y); split; try done; lra. Qed.

Lemma Rleb_true (x y : R) : (x <=? y) = true <-> x <= y.
Proof. unfold Rleb. destruct (Rle_dec x y); split; try done. Qed.

Lemma Rleb_false (x y : R) : (x <=? y) = false <-> y < x.
Proof. unfold Rleb. destruct (Rle_dec x y); split; try done; lra. Qed.

Lemma Reqb_true (x y : R) : (x =? y) = true <-> x = y.
Proof. unfold Reqb. destruct (Req_dec_T x y); split; try done. Qed.

Lemma Reqb_false (x y : R) : (x =? y) = false <-> x <> y.
Proof. unfold Reqb. destruct (Req_dec_T x y); split; try done. Qed.

(** Decides every comparison of the goal whose outcome [lra] can tell. *)
Ltac decide_R :=
  repeat match goal with
  | |- context [Rltb ?x ?y] =>
      first [ replace (Rltb x y) with true by (symmetry; apply Rltb_true; lra)
            | replace (Rltb x y) with false by (symmetry; apply Rltb_false; lra) ]
  | |- context [Rleb ?x ?y] =>
      first [ replace (Rleb x y) with true by (symmetry; apply Rleb_true; lra)
            | replace (Rleb x y) with false by (symmetry; apply Rleb_false; lra) ]
  | |- context [Reqb ?x ?y] =>
      first [ replace (Reqb x y) with true by (symmetry; apply Reqb_true; lra)
            | replace (Reqb x y) with false by (symmetry; apply Reqb_false; lra) ]
  end.

(** ** Python arithmetic *)

Lemma div_py_Ok (x y : R) : y <> 0 -> x /! y = Ok (x / y).
Proof. intros H. unfold div_py. destruct (Req_dec_T y 0); done. Qed.

Lemma div_py_0 (x : R) : x /! 0 = Err ZeroDivisionError.
Proof. unfold div_py. destruct (Req_dec_T 0 0); done. Qed.

Lemma pow_py_0_r (x : R) : x ^! 0 = Ok 1.
Proof. unfold pow_py. destruct (Req_dec_T 0 0); done. Qed.

Lemma pow_py_pos (x y : R) : 0 < x -> y <> 0 -> x ^! y = Ok (Rpower x y).
Proof.
  intros Hx Hy. unfold pow_py.
  destruct (Req_dec_T y 0); [done |].
  destruct (Rlt_dec 0 x); done.
Qed.

Lemma pow_py_pos_Ok (x y : R) :
  0 < x -> exists p, x ^! y = Ok p /\ 0 < p.
Proof.
  intros Hx. destruct (Req_dec_T y 0) as [-> | Hy].
  - exists 1. split; [apply pow_py_0_r | lra].
  - exists (Rpower x y). split; [by apply pow_py_pos |].
    unfold Rpower. apply exp_pos.
Qed.

Lemma pow_py_0_neg (y : R) : y < 0 -> 0 ^! y = Err ZeroDivisionError.
Proof.
  intros Hy. unfold pow_py.
  destruct (Req_dec_T y 0); [lra |].
  destruct (Rlt_dec 0 0); [lra |].
  destruct (Req_dec_T 0 0); [| done].
  destruct (Rlt_dec y 0); [done | lra].
Qed.

Lemma Int_part_IZR (z : Z) : Int_part (IZR z) = z.
Proof. symmetry. apply Int_part_spec. lra. Qed.

Lemma frac_part_IZR (z : Z) : frac_part (IZR z) = 0.
Proof. unfold frac_part. rewrite Int_part_IZR. lra. Qed.

(** A natural exponent that is not zero never fails. *)
Lemma pow_py_nat (x : R) (n : nat) :
  n <> O -> x ^! (INR n) = Ok (x ^ n).
Proof.
  intros Hn. unfold pow_py.
  assert (INR n <> 0) by (by apply not_0_INR).
  destruct (Req_dec_T (INR n) 0); [done |].
  destruct (Rlt_dec 0 x).
  - by rewrite Rpower_pow.
  - destruct (Req_dec_T x 0) as [-> | Hx].
    + destruct (Rlt_dec (INR n) 0).
      * pose proof (pos_INR n). lra.
      * rewrite pow_i; [done | lia].
    + rewrite INR_IZR_INZ, frac_part_IZR, Int_part_IZR.
      destruct (Req_dec_T 0 0); [| done].
      by rewrite <- pow_powerRZ.
Qed.

Lemma pow_py_2 (x : R) : x ^! 2 = Ok (x * x).
Proof.
  replace 2 with (INR 2) by (simpl; lra).
  rewrite pow_py_nat by lia. f_equal. simpl. lra.
Qed.

Lemma pow_py_3 (x : R) : x ^! 3 = Ok (x * x * x).
Proof.
  replace 3 with (INR 3) by (simpl; lra).
  rewrite pow_py_nat by lia. f_equal. simpl. lra.
Qed.

(** Unfolds the binds whose first computation is a value. *)
Ltac mon := cbn [mbind res_bind mret res_ret].

(** ** politropo.py: the round trip *)

(** C6.  For every temperature [T > 0] and every polytropic constant [K],
    the pressure that [presion] gives for [T] and [K], handed to [cte_k]
    with the same temperature, gives back [K] exactly. *)
Theorem politropo_ida_y_vuelta (T K : R) :
  0 < T ->
  (P ← politropo.presion T K; politropo.cte_k P T) = Ok K.
Proof.
  intros HT. unfold politropo.presion, politropo.cte_k.
  decide_R.
  rewrite pow_py_pos by lra. mon.
  assert (Hp : 0 < Rpower T 2.5) by apply exp_pos.
  rewrite div_py_Ok by lra.
  f_equal. field. lra.
Qed.

Lemma politropo_ida_y_vuelta_witness :
  (P ← politropo.presion 2 3; politropo.cte_k P 2) = Ok 3.
Proof. apply politropo_ida_y_vuelta. lra. Defined.

(** ** energia.py *)

Lemma coef_pp_fuera (T_i : R) :
  T_i <= 0.4 \/ 2.4 < T_i -> energia.coef_pp T_i = Ok (0, 0).
Proof. intros H. unfold energia.coef_pp. destruct H; decide_R; reflexivity. Qed.

Lemma coef_CN_fuera (T_i : R) :
  T_i <= 1.2 \/ 5.0 < T_i -> energia.coef_CN T_i = Ok (0, 0).
Proof. intros H. unfold energia.coef_CN. destruct H; decide_R; reflexivity. Qed.

(** Outside the tabulated ranges of both cycles there is no generation of
    energy. *)
Lemma ciclo_fuera (T_i X Y : R) :
  T_i <= 0.4 \/ 5.0 < T_i -> energia.ciclo T_i X Y = Ok (Nulo, 0, 0).
Proof.
  intros H. unfold energia.ciclo.
  rewrite coef_pp_fuera by lra. mon.
  unfold energia.ritmo_pp. rewrite pow_py_2, pow_py_0_r. mon.
  rewrite coef_CN_fuera by lra. mon.
  unfold energia.ritmo_CN. rewrite pow_py_0_r. mon.
  unfold energia.predominante. decide_R. reflexivity.
Qed.

(** ** primera_derivada.py: the derivative of the luminosity *)

(** Where [pow_py] returns a value, the power of a numpy scalar is that
    value. *)
Lemma pow_numpy (x y v : R) : x ^! y = Ok v -> numpy64.pow x y = numpy64.Finito v.
Proof.
  unfold pow_py, numpy64.pow, Reqb, Rltb.
  destruct (Req_dec_T y 0); [congruence |].
  destruct (Rlt_dec 0 x); [congruence |].
  destruct (Req_dec_T x 0).
  - destruct (Rlt_dec y 0); congruence.
  - destruct (Req_dec_T (frac_part y) 0); congruence.
Qed.

(** C9.  With [L_cte] false: for every temperature [T > 0] outside all the
    tabulated ranges of both cycles ([T <= 0.4] or [T > 5.0]) [luminosidad]
    returns the derivative 0 with the label ['--'], on Python floats and on
    numpy scalars.  At [T = 0] the power [T ** (nu - 2)], with [nu = 0], is
    zero raised to a negative exponent: on Python floats the call fails
    with [ZeroDivisionError]; on the numpy scalars that the program passes
    the power is [inf], its product with the coefficient 0 is [nan], and the
    call returns [nan] with the label ['--'] and no error. *)
Theorem luminosidad_fuera_de_rango (r_i P_i mu X Y : R) :
  (forall T_i, 0 < T_i -> T_i <= 0.4 \/ 5.0 < T_i ->
     primera_derivada.luminosidad r_i P_i T_i mu X Y false = Ok (0, Nulo)
     /\ numpy64.luminosidad r_i P_i T_i mu X Y false
        = Ok (numpy64.Finito 0, Nulo))
  /\ primera_derivada.luminosidad r_i P_i 0 mu X Y false
     = Err ZeroDivisionError
  /\ numpy64.luminosidad r_i P_i 0 mu X Y false = Ok (numpy64.NaN, Nulo).
Proof.
  split; [| split].
  - intros T_i HT Hfuera. split.
    + unfold primera_derivada.luminosidad.
      rewrite ciclo_fuera by exact Hfuera. mon.
      cbn [primera_derivada.fracciones].
      rewrite pow_py_0_r, !pow_py_2. mon.
      rewrite pow_py_pos by lra. mon.
      f_equal. f_equal. ring.
    + unfold numpy64.luminosidad.
      rewrite ciclo_fuera by exact Hfuera. mon.
      cbn [primera_derivada.fracciones].
      rewrite (pow_numpy _ _ _ (pow_py_0_r 10)).
      rewrite (pow_numpy _ _ _ (pow_py_2 mu)), (pow_numpy _ _ _ (pow_py_2 P_i)).
      rewrite (pow_numpy _ _ _ (pow_py_2 r_i)).
      assert (Hn : 0 - 2 <> 0) by lra.
      rewrite (pow_numpy _ _ _ (pow_py_pos T_i (0 - 2) HT Hn)).
      cbn [numpy64.mul]. do 3 f_equal. ring.
  - unfold primera_derivada.luminosidad.
    rewrite ciclo_fuera by lra. mon.
    cbn [primera_derivada.fracciones].
    rewrite pow_py_0_r, !pow_py_2. mon.
    rewrite pow_py_0_neg by lra. reflexivity.
  - unfold numpy64.luminosidad.
    rewrite ciclo_fuera by lra. mon.
    cbn [primera_derivada.fracciones].
    rewrite (pow_numpy _ _ _ (pow_py_0_r 10)).
    rewrite (pow_numpy _ _ _ (pow_py_2 mu)), (pow_numpy _ _ _ (pow_py_2 P_i)).
    rewrite (pow_numpy _ _ _ (pow_py_2 r_i)).
    replace (numpy64.pow 0 (0 - 2)) with (numpy64.Inf true).
    2:{ unfold numpy64.pow. by decide_R. }
    cbn [numpy64.mul].
    replace (0.01845 * 0 * (0 * 0) * 1 * (mu * mu) * (P_i * P_i)) with 0
      by ring.
    by decide_R.
Qed.

Lemma luminosidad_fuera_de_rango_witness :
  primera_derivada.luminosidad 1 1 0.3 1 0.75 0.22 false = Ok (0, Nulo)
  /\ numpy64.luminosidad 1 1 0.3 1 0.75 0.22 false
     = Ok (numpy64.Finito 0, Nulo).
Proof. apply luminosidad_fuera_de_rango; lra. Defined.

(** At the temperature 0, for the numpy scalars of a layer of Phase B with
    the central temperature 0 (the radius of the second layer of the test
    model, the pressure 0): the call returns a value, and no error. *)
Lemma luminosidad_numpy_en_cero :
  numpy64.luminosidad 0.1035 0 0 (1 / 1.68) 0.75 0.22 false
  = Ok (numpy64.NaN, Nulo).
Proof.
  unfold numpy64.luminosidad.
  rewrite ciclo_fuera by lra. mon.
  cbn [primera_derivada.fracciones].
  rewrite (pow_numpy _ _ _ (pow_py_0_r 10)).
  rewrite (pow_numpy _ _ _ (pow_py_2 _)), (pow_numpy _ _ _ (pow_py_2 0)).
  rewrite (pow_numpy _ _ _ (pow_py_2 0.1035)).
  replace (numpy64.pow 0 (0 - 2)) with (numpy64.Inf true).
  2:{ unfold numpy64.pow. by decide_R. }
  cbn [numpy64.mul]. by decide_R.
Qed.

(** ** energia.py: the predominant cycle *)

Lemma coef_pp_Ok (T_i : R) :
  exists E1 nu, energia.coef_pp T_i = Ok (E1, nu) /\ (nu = 0 \/ 0 < T_i).
Proof.
  unfold energia.coef_pp.
  repeat match goal with
  | |- context [if ?b then _ else _] =>
      let Hb := fresh "Hb" in
      destruct b eqn:Hb;
      [ apply andb_prop in Hb as [Hb%Rltb_true _];
        rewrite pow_py_pos by lra; mon; do 2 eexists; split;
        [reflexivity | right; lra] | clear Hb ]
  end.
  exists 0, 0. split; [reflexivity | by left].
Qed.

Lemma coef_CN_Ok (T_i : R) :
  exists E1 nu, energia.coef_CN T_i = Ok (E1, nu) /\ (nu = 0 \/ 0 < T_i).
Proof.
  unfold energia.coef_CN.
  repeat match goal with
  | |- context [if ?b then _ else _] =>
      let Hb := fresh "Hb" in
      destruct b eqn:Hb;
      [ apply andb_prop in Hb as [Hb%Rltb_true _];
        rewrite pow_py_pos by lra; mon; do 2 eexists; split;
        [reflexivity | right; lra] | clear Hb ]
  end.
  exists 0, 0. split; [reflexivity | by left].
Qed.

Lemma potencia_tabla_Ok (T_i nu : R) :
  nu = 0 \/ 0 < T_i -> exists p, (10 * T_i) ^! nu = Ok p.
Proof.
  intros [-> | HT].
  - exists 1. apply pow_py_0_r.
  - destruct (pow_py_pos_Ok (10 * T_i) nu) as (p & Hp & _); [lra |].
    by exists p.
Qed.

(** The two rates are always evaluated. *)
Lemma ritmos_Ok (T_i X Y : R) :
  exists E1_pp nu_pp E1_CN nu_CN E_pp E_CN,
    energia.coef_pp T_i = Ok (E1_pp, nu_pp)
    /\ energia.coef_CN T_i = Ok (E1_CN, nu_CN)
    /\ energia.ritmos T_i X Y = Ok (E_pp, E_CN)
    /\ energia.ciclo T_i X Y
       = Ok (energia.predominante E_pp E_CN E1_pp nu_pp E1_CN nu_CN).
Proof.
  destruct (coef_pp_Ok T_i) as (E1_pp & nu_pp & Hpp & Hnu_pp).
  destruct (coef_CN_Ok T_i) as (E1_CN & nu_CN & HCN & Hnu_CN).
  destruct (potencia_tabla_Ok T_i nu_pp Hnu_pp) as (p_pp & Hp_pp).
  destruct (potencia_tabla_Ok T_i nu_CN Hnu_CN) as (p_CN & Hp_CN).
  exists E1_pp, nu_pp, E1_CN, nu_CN.
  exists (E1_pp * (X * X) * p_pp), (1 / 3 * E1_CN * X * (1 - X - Y) * p_CN).
  unfold energia.ritmos, energia.ciclo, energia.ritmo_pp, energia.ritmo_CN.
  rewrite Hpp, HCN. mon. rewrite pow_py_2. mon. rewrite Hp_pp. mon.
  rewrite Hp_CN. mon. done.
Qed.

(** C4, amended.  The selection of the cycle is total: for every
    temperature and composition both rates are evaluated and one label
    with one pair of coefficients is returned.  The label is PP exactly
    when the rate of the proton-proton chain is the larger one, with the
    coefficients of that chain; CN exactly when the rate of the CN cycle is
    the larger one, with its coefficients; and ['--'], with the pair
    (0, 0), exactly when the two rates are equal.  Outside all the tabulated
    ranges both rates are 0. *)
Theorem ciclo_total (T_i X Y : R) :
  exists E_pp E_CN c E1 nu,
    energia.ritmos T_i X Y = Ok (E_pp, E_CN)
    /\ energia.ciclo T_i X Y = Ok (c, E1, nu)
    /\ (c = PP <-> E_CN < E_pp)
    /\ (c = CN <-> E_pp < E_CN)
    /\ (c = Nulo <-> E_pp = E_CN)
    /\ (c = PP -> energia.coef_pp T_i = Ok (E1, nu))
    /\ (c = CN -> energia.coef_CN T_i = Ok (E1, nu))
    /\ (c = Nulo -> E1 = 0 /\ nu = 0)
    /\ (T_i <= 0.4 \/ 5.0 < T_i -> E_pp = 0 /\ E_CN = 0).
Proof.
  destruct (ritmos_Ok T_i X Y)
    as (E1_pp & nu_pp & E1_CN & nu_CN & E_pp & E_CN & Hpp & HCN & Hr & Hc).
  exists E_pp, E_CN.
  assert (Hfuera : T_i <= 0.4 \/ 5.0 < T_i -> E_pp = 0 /\ E_CN = 0).
  { intros H. revert Hr. unfold energia.ritmos.
    rewrite coef_pp_fuera, coef_CN_fuera by lra. mon.
    unfold energia.ritmo_pp, energia.ritmo_CN.
    rewrite pow_py_2, pow_py_0_r. mon. intros [= <- <-]. lra. }
  unfold energia.predominante in Hc.
  destruct (E_CN <? E_pp) eqn:H1.
  - apply Rltb_true in H1. exists PP, E1_pp, nu_pp.
    repeat split; try done; try lra.
  - apply Rltb_false in H1. destruct (E_pp <? E_CN) eqn:H2.
    + apply Rltb_true in H2. exists CN, E1_CN, nu_CN.
      repeat split; try done; try lra.
    + apply Rltb_false in H2. exists Nulo, 0, 0.
      repeat split; try done; try lra.
Qed.

Lemma a_pp_pos : 0 < a_pp.
Proof. unfold a_pp. apply Rmult_lt_0_compat; apply exp_pos. Qed.

Lemma b_CN_pos : 0 < b_CN.
Proof.
  unfold b_CN.
  assert (0 < Rpower 10 (-22.2)) by apply exp_pos.
  assert (0 < Rpower (10 * 1.5) 20.0) by apply exp_pos.
  apply Rmult_lt_0_compat; lra.
Qed.

(** The composition of the tie is a composition: the fractions are in
    [0, 1] and their sum is not above 1. *)
Lemma X_empate_fraccion : 0 < X_empate < 1.
Proof.
  pose proof a_pp_pos. pose proof b_CN_pos. unfold X_empate. split.
  - apply Rdiv_lt_0_compat; lra.
  - apply (Rmult_lt_reg_r (a_pp + b_CN)); [lra |].
    unfold Rdiv. rewrite Rmult_assoc, Rinv_l by lra. lra.
Qed.

(** C4, as stated, fails: at the temperature 1.5, without helium and with
    the hydrogen fraction [X_empate], the label ['--'] is returned with the
    pair (0, 0) although the two evaluated rates are equal and not zero. *)
Lemma ciclo_empate_no_nulo :
  energia.ciclo 1.5 X_empate 0 = Ok (Nulo, 0, 0)
  /\ exists E, energia.ritmos 1.5 X_empate 0 = Ok (E, E) /\ 0 < E.
Proof.
  pose proof a_pp_pos as Ha. pose proof b_CN_pos as Hb.
  pose proof X_empate_fraccion as HX.
  assert (Hr : energia.ritmos 1.5 X_empate 0
               = Ok (a_pp * (X_empate * X_empate),
                     a_pp * (X_empate * X_empate))).
  { unfold energia.ritmos, energia.coef_pp, energia.coef_CN.
    decide_R. cbn [andb].
    rewrite !(pow_py_pos 10) by lra. mon.
    unfold energia.ritmo_pp, energia.ritmo_CN.
    rewrite pow_py_2. mon.
    rewrite !(pow_py_pos (10 * 1.5)) by lra. mon.
    f_equal. f_equal.
    - unfold a_pp. ring.
    - transitivity (b_CN * X_empate * (1 - X_empate)).
      + unfold b_CN. ring.
      + unfold X_empate. field. lra. }
  split.
  - revert Hr. unfold energia.ritmos, energia.ciclo.
    destruct (energia.coef_pp 1.5) as [[E1_pp nu_pp] | |]; [| done | done].
    mon.
    destruct (energia.ritmo_pp 1.5 X_empate E1_pp nu_pp); [| done | done].
    mon.
    destruct (energia.coef_CN 1.5) as [[E1_CN nu_CN] | |]; [| done | done].
    mon.
    destruct (energia.ritmo_CN 1.5 X_empate 0 E1_CN nu_CN); [| done | done].
    mon. intros [= -> ->]. unfold energia.predominante.
    decide_R. reflexivity.
  - eexists. split; [exact Hr |].
    apply Rmult_lt_0_compat; [exact Ha |].
    apply Rmult_lt_0_compat; lra.
Qed.

(** ** estrella.py: the transport labels of the final table *)

Lemma cambios_cons (x y : estrella.Transporte) (l : list estrella.Transporte) :
  cambios (x :: y :: l)
  = ((if decide (x = y) then 0 else 1) + cambios (y :: l))%nat.
Proof. reflexivity. Qed.

Lemma cambios_replicate (n : nat) (x : estrella.Transporte) :
  cambios (replicate n x) = O.
Proof.
  induction n as [| n IH]; [reflexivity |].
  destruct n as [| n]; [reflexivity |].
  change (replicate (S (S n)) x) with (x :: x :: replicate n x).
  rewrite cambios_cons.
  change (x :: replicate n x) with (replicate (S n) x).
  rewrite IH. destruct (decide (x = x)); done.
Qed.

Lemma cambios_bloques (a b : nat) :
  (cambios (replicate a estrella.CONVECTIVO ++ replicate b estrella.RADIATIVO)
   <= 1)%nat.
Proof.
  induction a as [| a IH].
  - simpl. rewrite cambios_replicate. lia.
  - destruct a as [| a].
    + destruct b as [| b]; [simpl; lia |].
      change (cambios (estrella.CONVECTIVO :: estrella.RADIATIVO
                         :: replicate b estrella.RADIATIVO) <= 1)%nat.
      rewrite cambios_cons.
      change (estrella.RADIATIVO :: replicate b estrella.RADIATIVO)
        with (replicate (S b) estrella.RADIATIVO).
      rewrite cambios_replicate.
      destruct (decide (estrella.CONVECTIVO = estrella.RADIATIVO)); lia.
    + change (cambios (estrella.CONVECTIVO :: estrella.CONVECTIVO
                         :: (replicate a estrella.CONVECTIVO
                               ++ replicate b estrella.RADIATIVO)) <= 1)%nat.
      rewrite cambios_cons.
      destruct (decide (estrella.CONVECTIVO = estrella.CONVECTIVO)); [| done].
      exact IH.
Qed.

Lemma vecinos_bloques (a b j : nat) (x y : estrella.Transporte) :
  (replicate a estrella.CONVECTIVO ++ replicate b estrella.RADIATIVO) !! j
    = Some x ->
  (replicate a estrella.CONVECTIVO ++ replicate b estrella.RADIATIVO) !! (j + 1)%nat
    = Some y ->
  x <> y -> x = estrella.CONVECTIVO /\ y = estrella.RADIATIVO.
Proof.
  intros Hx Hy Hne.
  destruct (decide (j + 1 < a)%nat) as [Hlt | Hge].
  - rewrite lookup_app_l in Hx by (rewrite length_replicate; lia).
    rewrite lookup_app_l in Hy by (rewrite length_replicate; lia).
    apply lookup_replicate in Hx as [-> _].
    apply lookup_replicate in Hy as [-> _]. done.
  - rewrite lookup_app_r in Hy by (rewrite length_replicate; lia).
    apply lookup_replicate in Hy as [-> _].
    destruct x; [done | done].
Qed.

(** C8.  In the table that [star] builds from the buffers of the three
    phases, ordered from the centre to the surface, the transport label
    changes at most once along the column, and where it changes it goes from
    CONVECTIVO to RADIATIVO. *)
Theorem transporte_un_cambio (param : Param) (Ciclo_B : list Ciclo)
    (stA : estrella.EstadoA) (i_f : nat) (st0 : estrella.Estado0) :
  let col :=
    estrella.Transporte_col (estrella.resultado param Ciclo_B stA i_f st0) in
  (cambios col <= 1)%nat
  /\ forall j x y,
       col !! j = Some x -> col !! (j + 1)%nat = Some y -> x <> y ->
       x = estrella.CONVECTIVO /\ y = estrella.RADIATIVO.
Proof.
  cbn [estrella.resultado estrella.Transporte_col]. split.
  - apply cambios_bloques.
  - intros j x y. apply vecinos_bloques.
Qed.

(** ** estrella.py: the layer loops of Phase A *)

(** Takes apart a hypothesis [H : m ≫= f = Ok b], however deep the chain of
    binds is, up to the first test. *)
Ltac desmonta H :=
  repeat first
    [ let a := fresh "a" in
      let Ha := fresh "Ha" in
      apply bind_Ok in H as (a & Ha & H);
      repeat match type of H with
             | context [let '(_, _) := ?p in _] => destruct p
             end;
      cbn beta iota in H
    | match type of H with
      | context [let '(_, _) := ?p in _] => destruct p; cbn beta iota in H
      end ].

Lemma escribir_Ok (a a' : list R) (i : nat) (v : R) :
  np.escribir a i v = Ok a' -> (i < length a)%nat /\ a' = <[i:=v]> a.
Proof.
  unfold np.escribir. destruct (decide (i < length a)%nat); [| done].
  intros [= <-]. done.
Qed.

(** Rewrites every successful assignment to an array as an insertion. *)
Ltac escrituras :=
  repeat match goal with
  | H : np.escribir _ _ _ = Ok _ |- _ => apply escribir_Ok in H as [? ->]
  end.

Lemma leer_Ok (a : list R) (i : nat) (v : R) :
  np.leer a i = Ok v <-> a !! i = Some v.
Proof.
  unfold np.leer. destruct (a !! i); split; try done.
  - by intros [= ->].
  - by intros [= ->].
Qed.

(** What [aceptar] does to the counter, to the radii, to the temperatures
    and to the list of cycles. *)
Lemma aceptar_Ok (st st' : estrella.EstadoA) (r P T M L dP dT dM : R)
    (dL : option R) (c : Ciclo) :
  estrella.aceptar st r P T M L dP dT dM dL c = Ok st' ->
  estrella.i st' = (estrella.i st + 1)%nat
  /\ (estrella.i st + 1 < length (estrella.r_A st))%nat
  /\ estrella.r_A st' = <[(estrella.i st + 1)%nat := r]> (estrella.r_A st)
  /\ estrella.T_A st' = <[(estrella.i st + 1)%nat := T]> (estrella.T_A st)
  /\ estrella.Ciclo_A st' = estrella.Ciclo_A st ++ [c].
Proof.
  unfold estrella.aceptar. intros H. desmonta H.
  injection H as <-. cbn. escrituras. done.
Qed.

Lemma paso_11_Ok (fuel : nat) (M_tot X Y L_tot mu R_ini h : R)
    (st : estrella.EstadoA) (p : estrella.Paso estrella.EstadoA estrella.EstadoA) :
  estrella.paso_11 fuel M_tot X Y L_tot mu R_ini h st = Ok p ->
  paso_correcto R_ini h st p.
Proof.
  unfold estrella.paso_11. intros H. desmonta H.
  destruct (E_rel_max <? Rabs a0).
  - injection H as <-. reflexivity.
  - desmonta H. injection H as <-. cbn. eauto 12.
Qed.

Lemma paso_12_Ok (fuel : nat) (X Y L_tot mu R_ini h : R)
    (st : estrella.EstadoA) (p : estrella.Paso estrella.EstadoA estrella.EstadoA) :
  estrella.paso_12 fuel X Y L_tot mu R_ini h st = Ok p ->
  paso_correcto R_ini h st p.
Proof.
  unfold estrella.paso_12. intros H. desmonta H.
  destruct (E_rel_max <? Rabs a0).
  - injection H as <-. reflexivity.
  - desmonta H. injection H as <-. cbn. eauto 12.
Qed.

(** What a pass of Phase A.1.3 does: the candidate layer [c] is computed,
    its parameter [n+1] is stored in [n_mas_1[i+1]], and the test of line
    363 on it and on [n_mas_1[i]] decides between the exit, which leaves
    the buffers as they are, and the acceptance of the layer. *)
Lemma paso_13_Ok (fuel : nat) (X Y mu R_ini h : R)
    (st : estrella.EstadoA) (nm : list R)
    (p : estrella.Paso (estrella.EstadoA * list R)
           (estrella.EstadoA * list R * estrella.Capa)) :
  estrella.paso_13 fuel X Y mu R_ini h (st, nm) = Ok p ->
  exists c n_i1 n_i,
    transporte.n_mas_1 (estrella.P_cal c) (estrella.T_cal c)
      (estrella.dP_i1 c) (estrella.dT_i1 c) = Ok n_i1
    /\ (estrella.i st + 1 < length nm)%nat
    /\ nm !! estrella.i st = Some n_i
    /\ if estrella.criterio_conveccion n_i1 n_i
       then p = estrella.Sale (st, <[(estrella.i st + 1)%nat := n_i1]> nm, c)
       else exists st',
              estrella.aceptar st (R_ini + h * INR (estrella.i st + 1))
                (estrella.P_cal c) (estrella.T_cal c) (estrella.M_cal c)
                (estrella.L_cal c) (estrella.dP_i1 c) (estrella.dT_i1 c)
                (estrella.dM_i1 c) (Some (estrella.dL_i1 c))
                (estrella.Ciclo_i1 c) = Ok st'
              /\ p = estrella.Acepta
                       (st', <[(estrella.i st + 1)%nat := n_i1]> nm).
Proof.
  unfold estrella.paso_13. intros H. desmonta H.
  apply escribir_Ok in Ha2 as [Hlt ->].
  apply leer_Ok in Ha3. rewrite list_lookup_insert_ne in Ha3 by lia.
  exists a0, a1, a3. repeat split; try done.
  destruct (estrella.criterio_conveccion a1 a3).
  - by injection H as <-.
  - desmonta H. injection H as <-. eauto.
Qed.

Lemma paso_2_Ok (fuel : nat) (X Y mu R_ini h k_prima dP_i1_13 : R)
    (st : estrella.EstadoA) (dT_prev : R)
    (p : estrella.Paso (estrella.EstadoA * R) estrella.EstadoA) :
  estrella.paso_2 fuel X Y mu R_ini h k_prima dP_i1_13 (st, dT_prev) = Ok p ->
  match p with
  | estrella.Sale st' => st' = st
  | estrella.Acepta (st', _) =>
      0 <= R_ini + h * INR (estrella.i st + 1)
      /\ exists P T M L dT dM dL c,
        estrella.aceptar st (R_ini + h * INR (estrella.i st + 1))
          P T M L dP_i1_13 dT dM dL c = Ok st'
  end.
Proof.
  unfold estrella.paso_2. intros H. desmonta H.
  destruct (_ <? 0) eqn:Hr.
  - injection H as <-. reflexivity.
  - apply Rltb_false in Hr. desmonta H. injection H as <-. cbn.
    split; [exact Hr |]. eauto 12.
Qed.

Lemma radios_A_aceptar (R_ini h : R) (st st' : estrella.EstadoA)
    (P T M L dP dT dM : R) (dL : option R) (c : Ciclo) :
  radios_A R_ini h st ->
  estrella.aceptar st (R_ini + h * INR (estrella.i st + 1))
    P T M L dP dT dM dL c = Ok st' ->
  radios_A R_ini h st'.
Proof.
  intros [HC Hr] H. apply aceptar_Ok in H as (Hi & Hlt & Hr' & _ & HC').
  split.
  - rewrite HC', length_app, HC, Hi. simpl. lia.
  - intros j Hj. rewrite Hr'.
    destruct (decide (j = estrella.i st + 1)%nat) as [-> | Hne].
    + by rewrite list_lookup_insert_eq.
    + rewrite list_lookup_insert_ne by lia. apply Hr. lia.
Qed.

Lemma radios_A_paso (R_ini h : R) (st : estrella.EstadoA)
    (p : estrella.Paso estrella.EstadoA estrella.EstadoA) :
  radios_A R_ini h st -> paso_correcto R_ini h st p ->
  match p with
  | estrella.Sale st' | estrella.Acepta st' => radios_A R_ini h st'
  end.
Proof.
  intros Hinv Hp. destruct p as [st' | st']; cbn in Hp.
  - destruct Hp as (P & T & M & L & dP & dT & dM & dL & c & Hp).
    eapply radios_A_aceptar; eauto.
  - by subst.
Qed.

(** A property that every pass keeps holds when the loop ends. *)
Lemma bucle_capas_inv (I : estrella.EstadoA -> Prop)
    (paso : estrella.EstadoA ->
            res (estrella.Paso estrella.EstadoA estrella.EstadoA)) :
  (forall st p, I st -> paso st = Ok p ->
     match p with
     | estrella.Sale st' | estrella.Acepta st' => I st'
     end) ->
  forall n st st',
    I st -> estrella.bucle_capas paso n st = Ok st' -> I st'.
Proof.
  intros Hpaso n. induction n as [| n IH]; intros st st' Hst H; [done |].
  cbn [estrella.bucle_capas] in H. apply bind_Ok in H as (p & Hp & H).
  specialize (Hpaso st p Hst Hp). destruct p as [st1 | st1]; cbn in H.
  - exact (IH st1 st' Hpaso H).
  - by injection H as <-.
Qed.

Lemma semilla_A_Ok (M_tot X Y R_tot L_tot mu R_ini h A1 A2 : R)
    (st st' : estrella.EstadoA) (i : nat) :
  estrella.semilla_A M_tot X Y R_tot L_tot mu R_ini h A1 A2 st i = Ok st' ->
  estrella.i st' = i
  /\ (i < length (estrella.r_A st))%nat
  /\ estrella.r_A st' = <[i := R_ini + h * INR i]> (estrella.r_A st)
  /\ estrella.Ciclo_A st' = estrella.Ciclo_A st ++ [Nulo].
Proof.
  unfold estrella.semilla_A. intros H. desmonta H.
  injection H as <-. cbn. escrituras. done.
Qed.

Lemma semillas_A_radios (M_tot X Y R_tot L_tot mu R_ini h A1 A2 : R)
    (st : estrella.EstadoA) :
  estrella.semillas_A M_tot X Y R_tot L_tot mu R_ini h A1 A2 = Ok st ->
  estrella.i st = 2%nat /\ radios_A R_ini h st.
Proof.
  unfold estrella.semillas_A. intros H.
  apply bind_Ok in H as (st0 & H0 & H). apply bind_Ok in H as (st1 & H1 & H).
  apply semilla_A_Ok in H0 as (_ & L0 & R0 & C0).
  apply semilla_A_Ok in H1 as (_ & L1 & R1 & C1).
  apply semilla_A_Ok in H as (I2 & L2 & R2 & C2).
  split; [exact I2 |]. split.
  - rewrite C2, C1, C0, I2. reflexivity.
  - rewrite R1, R0, !length_insert in L2. rewrite R0, length_insert in L1.
    rewrite I2, R2, R1, R0. intros j Hj.
    destruct j as [| [| [| j]]]; [| | | lia].
    + rewrite !list_lookup_insert_ne by lia. by rewrite list_lookup_insert_eq.
    + rewrite list_lookup_insert_ne by lia.
      rewrite list_lookup_insert_eq; [done |]. by rewrite length_insert.
    + rewrite list_lookup_insert_eq; [done |]. by rewrite !length_insert.
Qed.

(** When the loop of Phase A.1.3 ends, a last pass has ended it; a property
    that every accepting pass keeps holds before that pass. *)
Lemma bucle_13_inv (fuel : nat) (X Y mu R_ini h : R)
    (I : estrella.EstadoA * list R -> Prop) :
  (forall s s', I s ->
     estrella.paso_13 fuel X Y mu R_ini h s = Ok (estrella.Acepta s') ->
     I s') ->
  forall n s out,
    I s -> estrella.bucle_13 fuel X Y mu R_ini h n s = Ok out ->
    exists s', I s'
      /\ estrella.paso_13 fuel X Y mu R_ini h s' = Ok (estrella.Sale out).
Proof.
  intros Hpaso n. induction n as [| n IH]; intros s out Hs H; [done |].
  cbn [estrella.bucle_13] in H. apply bind_Ok in H as (p & Hp & H).
  destruct p as [s1 | out1]; cbn in H.
  - apply (IH s1 out); [| exact H]. by apply (Hpaso s).
  - injection H as <-. by exists s.
Qed.

Lemma bucle_2_inv (fuel : nat) (X Y mu R_ini h k_prima dP_i1_13 : R)
    (I : estrella.EstadoA -> Prop) :
  (forall st d st' d', I st ->
     estrella.paso_2 fuel X Y mu R_ini h k_prima dP_i1_13 (st, d)
       = Ok (estrella.Acepta (st', d')) ->
     I st') ->
  forall n st d st',
    I st ->
    estrella.bucle_2 fuel X Y mu R_ini h k_prima dP_i1_13 n (st, d) = Ok st' ->
    I st'.
Proof.
  intros Hpaso n. induction n as [| n IH]; intros st d st' Hst H; [done |].
  cbn [estrella.bucle_2] in H. apply bind_Ok in H as (p & Hp & H).
  pose proof (paso_2_Ok _ _ _ _ _ _ _ _ _ _ _ Hp) as Hcorr.
  destruct p as [[st1 d1] | st1]; cbn in H.
  - apply (IH st1 d1 st'); [| exact H]. by apply (Hpaso st d st1 d1).
  - injection H as <-. by subst.
Qed.

Lemma radios_A_paso_13 (fuel : nat) (X Y mu R_ini h : R)
    (s s' : estrella.EstadoA * list R) :
  radios_A R_ini h s.1 ->
  estrella.paso_13 fuel X Y mu R_ini h s = Ok (estrella.Acepta s') ->
  radios_A R_ini h s'.1.
Proof.
  destruct s as [st nm]. intros Hinv H.
  apply paso_13_Ok in H as (c & n_i1 & n_i & _ & _ & _ & H).
  destruct (estrella.criterio_conveccion n_i1 n_i); [done |].
  destruct H as (st' & Hac & [= ->]). cbn.
  eapply radios_A_aceptar; eauto.
Qed.

Lemma radios_A_paso_2 (fuel : nat) (X Y mu R_ini h k_prima dP_i1_13 : R)
    (st : estrella.EstadoA) (d : R) (st' : estrella.EstadoA) (d' : R) :
  radios_A R_ini h st ->
  estrella.paso_2 fuel X Y mu R_ini h k_prima dP_i1_13 (st, d)
    = Ok (estrella.Acepta (st', d')) ->
  radios_A R_ini h st'.
Proof.
  intros Hinv H. apply paso_2_Ok in H as (_ & H).
  destruct H as (P & T & M & L & dT & dM & dL & c & H).
  eapply radios_A_aceptar; eauto.
Qed.

(** All the layers of Phase A lie at the radii [R_ini + h*j]. *)
Lemma fase_A_radios (fuel : nat) (M_tot X Y R_tot L_tot mu R_ini h A1 A2 : R)
    (a : estrella.FaseA) :
  estrella.fase_A fuel M_tot X Y R_tot L_tot mu R_ini h A1 A2 = Ok a ->
  radios_A R_ini h (estrella.radiativa a)
  /\ radios_A R_ini h (estrella.capas_A a).
Proof.
  unfold estrella.fase_A. intros H.
  apply bind_Ok in H as (st & Hs & H).
  apply bind_Ok in H as (st1 & H1 & H).
  apply bind_Ok in H as (st2 & H2 & H).
  apply bind_Ok in H as ([[st3 nm] c] & H3 & H). cbn beta iota in H.
  apply bind_Ok in H as (k & Hk & H).
  apply bind_Ok in H as (st4 & H4 & H).
  injection H as <-. cbn.
  apply semillas_A_radios in Hs as [_ Hs].
  assert (Hr1 : radios_A R_ini h st1).
  { unfold estrella.fase_A11 in H1.
    refine (bucle_capas_inv (radios_A R_ini h) _ _ _ _ _ Hs H1).
    intros s p Hinv Hp. apply paso_11_Ok in Hp.
      exact (radios_A_paso _ _ _ _ Hinv Hp). }
  assert (Hr2 : radios_A R_ini h st2).
  { unfold estrella.fase_A12 in H2.
    refine (bucle_capas_inv (radios_A R_ini h) _ _ _ _ _ Hr1 H2).
    intros s p Hinv Hp. apply paso_12_Ok in Hp.
      exact (radios_A_paso _ _ _ _ Hinv Hp). }
  assert (Hr3 : radios_A R_ini h st3).
  { unfold estrella.fase_A13 in H3.
    eapply (bucle_13_inv _ _ _ _ _ _ (fun s => radios_A R_ini h s.1)) in H3
      as ([st' nm'] & Hinv & Hp); [| | exact Hr2].
    - apply paso_13_Ok in Hp as (c' & n_i1 & n_i & _ & _ & _ & Hp).
      destruct (estrella.criterio_conveccion n_i1 n_i).
      + by injection Hp as -> _ _.
      + by destruct Hp as (? & _ & ?).
    - intros s s'. apply radios_A_paso_13. }
  split; [exact Hr3 |].
  refine (bucle_2_inv _ _ _ _ _ _ _ _ (radios_A R_ini h) _ _ _ _ _ Hr3 H4).
  intros s d s' d' Hinv. by apply radios_A_paso_2.
Qed.

(** ** faseB.py: the layers of Phase B *)

Lemma semilla_B_Ok (T_c h X Y k_prima mu : R) (st st' : faseB.Estado)
    (i : nat) (T_i T_i' : R) :
  faseB.semilla T_c h X Y k_prima mu st i T_i = Ok (st', T_i') ->
  faseB.i st' = i
  /\ (i < length (faseB.r st))%nat
  /\ faseB.r st' = <[i := h * INR i]> (faseB.r st)
  /\ faseB.Ciclo_B st' = faseB.Ciclo_B st ++ [Nulo].
Proof.
  unfold faseB.semilla. intros H. desmonta H.
  destruct (_ =? 0).
  - injection H as <- _. cbn. escrituras. done.
  - desmonta H. injection H as <- _. cbn. escrituras. done.
Qed.

Lemma semillas_B_radios (T_c h X Y k_prima mu : R) (st : faseB.Estado) :
  faseB.semillas T_c h X Y k_prima mu = Ok st -> radios_B h st.
Proof.
  unfold faseB.semillas. intros H.
  apply bind_Ok in H as ([st0 T0] & H0 & H). cbn beta iota in H.
  apply bind_Ok in H as ([st1 T1] & H1 & H). cbn beta iota in H.
  apply bind_Ok in H as ([st2 T2] & H2 & H). cbn beta iota in H.
  injection H as <-.
  apply semilla_B_Ok in H0 as (_ & L0 & R0 & C0).
  apply semilla_B_Ok in H1 as (_ & L1 & R1 & C1).
  apply semilla_B_Ok in H2 as (I2 & L2 & R2 & C2).
  split.
  - rewrite C2, C1, C0, I2. reflexivity.
  - rewrite R1, R0, !length_insert in L2. rewrite R0, length_insert in L1.
    rewrite I2, R2, R1, R0. intros j Hj.
    destruct j as [| [| [| j]]]; [| | | lia].
    + rewrite !list_lookup_insert_ne by lia. by rewrite list_lookup_insert_eq.
    + rewrite list_lookup_insert_ne by lia.
      rewrite list_lookup_insert_eq; [done |]. by rewrite length_insert.
    + rewrite list_lookup_insert_eq; [done |]. by rewrite !length_insert.
Qed.

Lemma paso_B_Ok (fuel : nat) (rf h X Y k_prima mu : R) (st : faseB.Estado)
    (p : faseB.Paso) :
  faseB.paso fuel rf h X Y k_prima mu st = Ok p ->
  match p with
  | faseB.Sale st' => st' = st
  | faseB.Acepta st' =>
      faseB.i st' = (faseB.i st + 1)%nat
      /\ (faseB.i st + 1 < length (faseB.r st))%nat
      /\ faseB.r st'
         = <[(faseB.i st + 1)%nat := h * INR (faseB.i st + 1)]> (faseB.r st)
      /\ exists c, faseB.Ciclo_B st' = faseB.Ciclo_B st ++ [c]
  end.
Proof.
  unfold faseB.paso. intros H. desmonta H.
  destruct (_ <? _).
  - by injection H as <-.
  - desmonta H. injection H as <-. cbn. escrituras. eauto.
Qed.

Lemma radios_B_paso (fuel : nat) (rf h X Y k_prima mu : R)
    (st : faseB.Estado) (p : faseB.Paso) :
  radios_B h st ->
  faseB.paso fuel rf h X Y k_prima mu st = Ok p ->
  match p with
  | faseB.Sale st' | faseB.Acepta st' => radios_B h st'
  end.
Proof.
  intros [HC Hr] H. apply paso_B_Ok in H. destruct p as [st' | st'].
  - destruct H as (Hi & Hlt & Hr' & c & HC'). split.
    + rewrite HC', length_app, HC, Hi. simpl. lia.
    + intros j Hj. rewrite Hr'.
      destruct (decide (j = faseB.i st + 1)%nat) as [-> | Hne].
      * by rewrite list_lookup_insert_eq.
      * rewrite list_lookup_insert_ne by lia. apply Hr. lia.
  - by subst.
Qed.

Lemma bucle_capas_B_radios (fuel : nat) (rf h X Y k_prima mu : R) (n : nat)
    (st st' : faseB.Estado) :
  radios_B h st ->
  faseB.bucle_capas fuel rf h X Y k_prima mu n st = Ok st' ->
  radios_B h st'.
Proof.
  revert st. induction n as [| n IH]; intros st Hst H; [done |].
  cbn [faseB.bucle_capas] in H. apply bind_Ok in H as (p & Hp & H).
  pose proof (radios_B_paso _ _ _ _ _ _ _ _ _ Hst Hp) as Hinv.
  destruct p as [st1 | st1]; cbn in H.
  - exact (IH st1 Hinv H).
  - by injection H as <-.
Qed.

Lemma conveccion_radios (fuel : nat) (T_c rf h X Y k_prima : R)
    (param : Param) (F : Frontera) (C : list Ciclo) :
  faseB.conveccion fuel T_c rf h X Y k_prima = Ok (param, F, C) ->
  forall j, (j < length C)%nat -> p_r param !! j = Some (h * INR j).
Proof.
  unfold faseB.conveccion, faseB.capas. intros H.
  apply bind_Ok in H as (st & Hst & H).
  apply bind_Ok in H as (F' & _ & H). injection H as <- _ <-. cbn.
  apply bind_Ok in Hst as (mu & _ & Hst).
  apply bind_Ok in Hst as (st0 & H0 & Hst).
  apply semillas_B_radios in H0.
  apply (bucle_capas_B_radios _ _ _ _ _ _ _ _ _ _ H0) in Hst as [HC Hr].
  intros j Hj. apply Hr. lia.
Qed.

(** ** The radii of the layers *)

(** C7.  With a positive total radius and a positive number of layers, the
    constants of [star] give a negative step [h]; in every sequence of
    layers of Phase A, from the three first layers to the last layer of the
    convective core, the radius of a layer is strictly smaller than the
    radius of the layer before it; and in the sequence of layers of every
    run of Phase B with the step [-h], the radius of a layer is strictly
    larger than the radius of the layer before it. *)
Theorem radios_monotonos
    (fuel : nat) (M_tot X Y R_tot L_tot num_capas : R) :
  0 < R_tot -> 0 < num_capas ->
  siempre (estrella.constantes M_tot X Y R_tot L_tot num_capas)
    (fun '(mu, R_ini, h, A1, A2) =>
       siempre (estrella.fase_A fuel M_tot X Y R_tot L_tot mu R_ini h A1 A2)
         (fun a =>
            decreciente (estrella.r_A (estrella.capas_A a))
              (estrella.i (estrella.capas_A a) + 1)
            /\ length (estrella.Ciclo_A (estrella.capas_A a))
               = (estrella.i (estrella.capas_A a) + 1)%nat)
       /\ forall T_c rf k_prima,
            siempre (faseB.conveccion fuel T_c rf (- h) X Y k_prima)
              (fun '(param, _, Ciclo_B) =>
                 creciente (p_r param) (length Ciclo_B))).
Proof.
  intros HR Hn. apply siempre_Ok. intros [[[[mu R_ini] h] A1] A2] Hc.
  assert (Hh : h < 0).
  { unfold estrella.constantes in Hc. desmonta Hc.
    injection Hc as _ _ <- _ _.
    rewrite div_py_Ok in Ha0 by lra. injection Ha0 as <-.
    assert (0 < 0.9 * R_tot / num_capas) by (apply Rdiv_lt_0_compat; lra).
    lra. }
  split.
  - apply siempre_Ok. intros a Ha.
    apply fase_A_radios in Ha as [_ [HC Hr]]. split; [| exact HC].
    intros j Hj. exists (R_ini + h * INR j), (R_ini + h * INR (j + 1)).
    split; [apply Hr; lia |]. split; [apply Hr; lia |].
    rewrite plus_INR. simpl. lra.
  - intros T_c rf k_prima. apply siempre_Ok. intros [[param F] C] HB.
    intros j Hj. exists (- h * INR j), (- h * INR (j + 1)).
    split; [apply (conveccion_radios _ _ _ _ _ _ _ _ _ _ HB); lia |].
    split; [apply (conveccion_radios _ _ _ _ _ _ _ _ _ _ HB); lia |].
    rewrite plus_INR. simpl. lra.
Qed.

Lemma radios_monotonos_witness :
  0 < 11.5 /\ 0 < 100
  /\ siempre (estrella.constantes 5.0 0.75 0.22 11.5 70.0 100)
       (fun '(mu, R_ini, h, A1, A2) =>
          siempre (estrella.fase_A 100 5.0 0.75 0.22 11.5 70.0 mu R_ini h A1 A2)
            (fun a =>
               decreciente (estrella.r_A (estrella.capas_A a))
                 (estrella.i (estrella.capas_A a) + 1)
               /\ length (estrella.Ciclo_A (estrella.capas_A a))
                  = (estrella.i (estrella.capas_A a) + 1)%nat)
          /\ forall T_c rf k_prima,
               siempre (faseB.conveccion 100 T_c rf (- h) 0.75 0.22 k_prima)
                 (fun '(param, _, Ciclo_B) =>
                    creciente (p_r param) (length Ciclo_B))).
Proof.
  assert (H1 : 0 < 11.5) by lra. assert (H2 : 0 < 100) by lra.
  split; [exact H1 |]. split; [exact H2 |].
  exact (radios_monotonos 100 5.0 0.75 0.22 11.5 70.0 100 H1 H2).
Defined.

(** ** estrella.py: the end of the radiative regime *)




(** ** estrella.py: the polytropic constant *)














(** ** estrella.py: the search of the interval of the central temperature *)








(** When the two luminosities are equal at the first comparison, and not
    0, the variable [incremento] is unbound when the loop needs it. *)
Lemma busqueda_luminosidades_iguales
    (fase_B : R -> res (Param * Frontera * list Ciclo))
    (Frontera_A : Frontera) (T_c : R) (fuel : nat)
    (param : Param) (Frontera_B : Frontera) (Ciclo_B : list Ciclo) :
  fase_B T_c = Ok (param, Frontera_B, Ciclo_B) ->
  Lf Frontera_B = Lf Frontera_A -> Lf Frontera_B <> 0 ->
  estrella.ajuste (S fuel) fase_B Frontera_A T_c = Err UnboundLocalError.
Proof.
  intros HB Heq H0. unfold estrella.ajuste. rewrite HB. mon.
  unfold estrella.direccion. decide_R.
  cbn [estrella.bucle_T_c]. rewrite HB. mon.
  unfold estrella.fin_busqueda. decide_R. reflexivity.
Qed.

(** ** estrella.py: the fine fit of the central temperature *)

Lemma ceil_IZR (z : Z) : np.ceil (IZR z) = z.
Proof.
  unfold np.ceil. rewrite <- opp_IZR, Int_part_IZR. lia.
Qed.

Lemma length_arange (start stop step : R) :
  length (np.arange start stop step)
  = Z.to_nat (np.ceil ((stop - start) / step)).
Proof. unfold np.arange. by rewrite length_map, length_seq. Qed.

(** An interval of width 0.05 has 500 trial temperatures. *)
Lemma length_arange_500 (T_c_init T_c_fin : R) :
  T_c_fin - T_c_init = 0.05 ->
  length (np.arange T_c_init T_c_fin E_rel_max) = 500%nat.
Proof.
  intros H. rewrite length_arange, H.
  replace (0.05 / E_rel_max) with (IZR 500) by (unfold E_rel_max; lra).
  by rewrite ceil_IZR.
Qed.

Lemma error_total_pos (Frontera_A Frontera_B : Frontera) (e : R) :
  estrella.error_total Frontera_A Frontera_B = Ok e -> 0 <= e.
Proof.
  unfold estrella.error_total. intros H. desmonta H.
  injection H as <-. apply sqrt_pos.
Qed.

(** What the loop over the trial temperatures leaves in the two arrays: the
    entries [j], [j+1], ... hold the trial temperatures and their total
    relative errors, and the other entries are untouched. *)
Lemma barrido_Ok (fase_B : R -> res (Param * Frontera * list Ciclo))
    (Frontera_A : Frontera) (trials : list R) :
  forall (j : nat) (T_prueba E_rT T_prueba' E_rT' : list R),
    estrella.barrido fase_B Frontera_A trials j T_prueba E_rT
      = Ok (T_prueba', E_rT') ->
    length T_prueba' = length T_prueba
    /\ length E_rT' = length E_rT
    /\ (forall m, (m < j \/ j + length trials <= m)%nat ->
          T_prueba' !! m = T_prueba !! m /\ E_rT' !! m = E_rT !! m)
    /\ (forall m T_c, trials !! m = Some T_c ->
          T_prueba' !! (j + m)%nat = Some T_c
          /\ exists param Frontera_B Ciclo_B e,
               fase_B T_c = Ok (param, Frontera_B, Ciclo_B)
               /\ estrella.error_total Frontera_A Frontera_B = Ok e
               /\ E_rT' !! (j + m)%nat = Some e).
Proof.
  induction trials as [| T_c trials IH]; intros j Tp E Tp' E' H.
  - injection H as <- <-. repeat split; try done.
  - cbn [estrella.barrido] in H.
    apply bind_Ok in H as ([[param FB] CB] & HB & H). cbn beta iota in H.
    apply bind_Ok in H as (e & He & H).
    apply bind_Ok in H as (Tp1 & HT & H).
    apply bind_Ok in H as (E1 & HE & H).
    apply escribir_Ok in HT as [HjT ->]. apply escribir_Ok in HE as [HjE ->].
    apply IH in H as (HlT & HlE & Hfuera & Hdentro).
    rewrite length_insert in HlT, HlE.
    split; [exact HlT |]. split; [exact HlE |]. split.
    + intros m Hm. cbn [length] in Hm.
      destruct (Hfuera m) as [-> ->]; [lia |].
      rewrite !list_lookup_insert_ne by lia. done.
    + intros m T Hm. destruct m as [| m]; cbn in Hm.
      * injection Hm as <-. replace (j + 0)%nat with j by lia.
        destruct (Hfuera j) as [-> ->]; [lia |].
        rewrite !list_lookup_insert_eq by done.
        split; [done |]. by exists param, FB, CB, e.
      * replace (j + S m)%nat with (j + 1 + m)%nat by lia.
        by apply Hdentro.
Qed.

(** The least element of a list, as [min] finds it, is one of its elements
    and is not above any of them. *)
Lemma fold_left_Rmin (l : list R) (x : R) :
  (fold_left Rmin l x = x \/ fold_left Rmin l x ∈ l)
  /\ fold_left Rmin l x <= x
  /\ forall y, y ∈ l -> fold_left Rmin l x <= y.
Proof.
  revert x. induction l as [| a l IH]; intros x; cbn [fold_left].
  - split; [by left |]. split; [lra |]. intros y Hy. by apply elem_of_nil in Hy.
  - destruct (IH (Rmin x a)) as (Hel & Hle & Hall).
    pose proof (Rmin_l x a). pose proof (Rmin_r x a).
    split; [| split].
    + destruct Hel as [-> | Hel].
      * unfold Rmin. destruct (Rle_dec x a); [by left | right; by left].
      * right. by right.
    + lra.
    + intros y [-> | Hy]%elem_of_cons; [lra | by apply Hall].
Qed.

Lemma minimo_de_Ok (a : list R) (m : R) :
  estrella.minimo_de a = Ok m ->
  m ∈ a /\ forall y, y ∈ a -> m <= y.
Proof.
  destruct a as [| x a]; [done |]. intros [= <-].
  destruct (fold_left_Rmin a x) as (Hel & Hle & Hall). split.
  - destruct Hel as [-> | Hel]; [by left | by right].
  - intros y [-> | Hy]%elem_of_cons; [exact Hle | by apply Hall].
Qed.

Lemma where_eq_elem (a : list R) (v : R) (j : nat) :
  j ∈ np.where_eq a v <-> a !! j = Some v.
Proof.
  unfold np.where_eq. rewrite list_elem_of_filter, elem_of_seq. split.
  - by intros [H _].
  - intros H. split; [exact H |]. apply lookup_lt_Some in H. lia.
Qed.

Lemma float_de_Ok (T_prueba : list R) (pos : list nat) (v : R) :
  estrella.float_de T_prueba pos = Ok v ->
  exists j, pos = [j] /\ T_prueba !! j = Some v.
Proof.
  destruct pos as [| j [| ? ?]]; [done | | done].
  intros H%leer_Ok. by exists j.
Qed.

(** With 500 trial temperatures, the entry 500 of the two arrays of 501
    zeros is never written: whenever the fine fit returns, it returns the 0
    of that entry as the minimum and as the central temperature, and the
    total relative error of every trial is above it. *)
Lemma ajuste_fino_500 (fase_B : R -> res (Param * Frontera * list Ciclo))
    (Frontera_A : Frontera) (T_c_init T_c_fin : R) :
  length (np.arange T_c_init T_c_fin E_rel_max) = 500%nat ->
  siempre (estrella.ajuste_fino fase_B Frontera_A T_c_init T_c_fin)
    (fun res =>
       res = (0, 0)
       /\ forall T_c, T_c ∈ np.arange T_c_init T_c_fin E_rel_max ->
            exists param Frontera_B Ciclo_B e,
              fase_B T_c = Ok (param, Frontera_B, Ciclo_B)
              /\ estrella.error_total Frontera_A Frontera_B = Ok e
              /\ 0 < e).
Proof.
  intros Hlen. apply siempre_Ok. intros [minimo T_c_def] H.
  unfold estrella.ajuste_fino in H.
  apply bind_Ok in H as ([Tp E] & Hb & H). cbn beta iota in H.
  apply bind_Ok in H as (m & Hm & H).
  apply bind_Ok in H as (T & HT & H). injection H as -> ->.
  apply barrido_Ok in Hb as (HlT & HlE & Hfuera & Hdentro).
  rewrite Hlen in Hfuera. unfold np.zeros in HlT, HlE, Hfuera.
  rewrite length_replicate in HlT, HlE.
  destruct (Hfuera 500%nat) as [HT500 HE500]; [lia |].
  rewrite lookup_replicate_2 in HT500, HE500 by lia.
  apply minimo_de_Ok in Hm as [Hin Hmin].
  assert (Hpos : forall y, y ∈ E -> 0 <= y).
  { intros y [j Hj]%list_elem_of_lookup.
    destruct (decide (j < 500)%nat) as [Hlt | Hge].
    - destruct (lookup_lt_is_Some_2 (np.arange T_c_init T_c_fin E_rel_max) j)
        as [Tj HTj]; [lia |].
      destruct (Hdentro j Tj HTj) as (_ & p & FB & CB & e & _ & He & HEj).
      cbn in HEj. rewrite Hj in HEj. injection HEj as ->.
      by apply error_total_pos in He.
    - assert (j = 500%nat) as ->.
      { apply lookup_lt_Some in Hj. lia. }
      rewrite HE500 in Hj. injection Hj as <-. lra. }
  assert (minimo = 0) as ->.
  { apply Rle_antisym; [| by apply Hpos].
    apply Hmin, list_elem_of_lookup. by exists 500%nat. }
  apply float_de_Ok in HT as (j & Hpos_j & HTj).
  assert (j = 500%nat) as ->.
  { assert (H500 : 500%nat ∈ np.where_eq E 0) by by apply where_eq_elem.
    rewrite Hpos_j in H500. by apply list_elem_of_singleton in H500. }
  rewrite HT500 in HTj. injection HTj as <-.
  split; [reflexivity |].
  intros T_c [k Hk]%list_elem_of_lookup.
  destruct (Hdentro k T_c Hk) as (_ & p & FB & CB & e & HB & He & HEk).
  exists p, FB, CB, e. split; [exact HB |]. split; [exact He |].
  cbn in HEk. pose proof (error_total_pos _ _ _ He) as Hge.
  destruct (Req_dec_T e 0) as [-> | Hne]; [| lra].
  assert (Hin_k : k ∈ np.where_eq E 0) by by apply where_eq_elem.
  rewrite Hpos_j in Hin_k. apply list_elem_of_singleton in Hin_k.
  apply lookup_lt_Some in Hk. lia.
Qed.

(** C1 fails on an interval of width 0.05, the width that the search of the
    interval gives: there are 500 trial temperatures, the entry 500 of the
    two arrays of 501 zeros is never written, and whenever the fine fit
    returns, the minimum it returns is the 0 of that entry, below the total
    relative error of every trial, and the central temperature it returns is
    the 0 of that entry, which is not a trial temperature. *)
Theorem ajuste_fino_hueco (fase_B : R -> res (Param * Frontera * list Ciclo))
    (Frontera_A : Frontera) (T_c_init T_c_fin : R) :
  T_c_fin - T_c_init = 0.05 ->
  siempre (estrella.ajuste_fino fase_B Frontera_A T_c_init T_c_fin)
    (fun res =>
       res = (0, 0)
       /\ forall T_c, T_c ∈ np.arange T_c_init T_c_fin E_rel_max ->
            exists param Frontera_B Ciclo_B e,
              fase_B T_c = Ok (param, Frontera_B, Ciclo_B)
              /\ estrella.error_total Frontera_A Frontera_B = Ok e
              /\ 0 < e).
Proof.
  intros Hw. apply ajuste_fino_500. by apply length_arange_500.
Qed.

Lemma ajuste_fino_hueco_witness :
  0.1 - 0.05 = 0.05
  /\ siempre
       (estrella.ajuste_fino (fase_B_fija frontera_B_1) frontera_A_2 0.05 0.1)
       (fun res =>
          res = (0, 0)
          /\ forall T_c, T_c ∈ np.arange 0.05 0.1 E_rel_max ->
               exists param Frontera_B Ciclo_B e,
                 fase_B_fija frontera_B_1 T_c
                   = Ok (param, Frontera_B, Ciclo_B)
                 /\ estrella.error_total frontera_A_2 Frontera_B = Ok e
                 /\ 0 < e).
Proof.
  assert (H : 0.1 - 0.05 = 0.05) by lra.
  split; [exact H |].
  exact (ajuste_fino_hueco (fase_B_fija frontera_B_1) frontera_A_2 0.05 0.1 H).
Defined.

Lemma intervalo_anchura (incremento : option R) (T_c T_c_init T_c_fin : R) :
  incremento = Some 0.05 \/ incremento = Some (-0.05) ->
  estrella.intervalo incremento T_c = Ok (T_c_init, T_c_fin) ->
  T_c_fin - T_c_init = 0.05.
Proof.
  unfold estrella.intervalo.
  intros [-> | ->] H; cbn in H; injection H as <- <-.
  - rewrite Rmin_left, Rmax_right by lra. lra.
  - rewrite Rmin_right, Rmax_left by lra. lra.
Qed.

(** The interval that the search delivers has the width 0.05: whenever the
    fit of the central temperature returns, it returns the minimum 0 and
    the central temperature 0. *)
Lemma ajuste_hueco (fuel : nat)
    (fase_B : R -> res (Param * Frontera * list Ciclo))
    (Frontera_A : Frontera) (T_c : R) :
  siempre (estrella.ajuste fuel fase_B Frontera_A T_c)
    (fun res => res = (0, 0)).
Proof.
  apply siempre_Ok. intros res H. unfold estrella.ajuste in H.
  apply bind_Ok in H as ([[param FB] CB] & HB & H). cbn beta iota in H.
  destruct (estrella.direccion Frontera_A FB) as [[Inc Dec] inc] eqn:Hdir.
  apply bind_Ok in H as (T_c' & HT & H).
  apply bind_Ok in H as ([T_c_init T_c_fin] & Hint & H). cbn beta iota in H.
  assert (Hinc : inc = Some 0.05 \/ inc = Some (-0.05)).
  { unfold estrella.direccion in Hdir.
    destruct (_ <? _); [injection Hdir as _ _ <-; by left |].
    destruct (_ <? _); [injection Hdir as _ _ <-; by right |].
    injection Hdir as _ _ <-. unfold estrella.intervalo in Hint.
    cbn in Hint. discriminate Hint. }
  pose proof (intervalo_anchura _ _ _ _ Hinc Hint) as Hw.
  pose proof (ajuste_fino_500 fase_B Frontera_A _ _
                (length_arange_500 _ _ Hw)) as Hfino.
  rewrite H in Hfino. by destruct Hfino.
Qed.

Lemma filter_vacio {A : Type} (P : A -> Prop) `{!forall x, Decision (P x)}
    (l : list A) :
  Forall (fun x => ~ P x) l -> filter P l = [].
Proof.
  induction 1 as [| x l Hx _ IH]; [reflexivity |].
  by rewrite filter_cons_False.
Qed.

(** Every entry of [np.zeros(n)] but the last one is overwritten by [e],
    which is not 0: the only zero is the last entry. *)
Lemma where_eq_hueco (n : nat) (e : R) :
  e <> 0 -> np.where_eq (replicate n e ++ [0]) 0 = [n].
Proof.
  intros He. unfold np.where_eq.
  rewrite length_app, length_replicate. cbn [length].
  replace (n + 1)%nat with (S n) by lia. rewrite seq_S, filter_app.
  cbn [Nat.add]. rewrite (filter_singleton_True _ n []).
  2:{ rewrite lookup_app_r by (rewrite length_replicate; lia).
      by rewrite length_replicate, Nat.sub_diag. }
  rewrite filter_vacio; [done |].
  apply Forall_forall. intros j Hj%elem_of_seq. cbn beta.
  rewrite lookup_app_l by (rewrite length_replicate; lia).
  rewrite lookup_replicate_2 by lia.
  intros [= ->]. done.
Qed.

Lemma barrido_fija_Ok (F Frontera_A : Frontera) (e : R) (trials : list R) :
  estrella.error_total Frontera_A F = Ok e ->
  forall (j : nat) (T_prueba E_rT : list R),
    (j + length trials <= length T_prueba)%nat ->
    (j + length trials <= length E_rT)%nat ->
    exists T_prueba' E_rT',
      estrella.barrido (fase_B_fija F) Frontera_A trials j T_prueba E_rT
      = Ok (T_prueba', E_rT').
Proof.
  intros He. induction trials as [| T_c trials IH]; intros j Tp E HT HE.
  - by exists Tp, E.
  - cbn [length] in HT, HE. cbn [estrella.barrido].
    change (fase_B_fija F T_c)
      with (@Ok (Param * Frontera * list Ciclo) (param_nulo, F, [])).
    mon. rewrite He. mon. unfold np.escribir.
    rewrite !decide_True by lia. mon.
    apply IH; rewrite length_insert; lia.
Qed.

Lemma error_total_ejemplo :
  exists e, estrella.error_total frontera_A_2 frontera_B_1 = Ok e /\ 0 < e.
Proof.
  unfold estrella.error_total, estrella.error_relativo.
  cbn [Pf Tf Mf Lf frontera_A_2 frontera_B_1].
  rewrite !div_py_Ok by lra. mon.
  eexists. split; [reflexivity |].
  apply sqrt_lt_R0.
  replace ((1 - 1) / 1) with 0 by lra. rewrite Rabs_R0.
  replace ((2 - 1) / 2) with (1 / 2) by lra.
  rewrite (Rabs_pos_eq (1 / 2)) by lra. lra.
Qed.

(** The fine fit on the interval from 0.05 to 0.1, with a Phase B whose
    total relative error is the same positive number at each of the 500
    trial temperatures: the fit returns the minimum 0 and the central
    temperature 0. *)
Lemma ajuste_fino_ejemplo :
  estrella.ajuste_fino (fase_B_fija frontera_B_1) frontera_A_2 0.05 0.1
  = Ok (0, 0).
Proof.
  destruct error_total_ejemplo as (e & He & Hpos).
  assert (Hw : 0.1 - 0.05 = 0.05) by lra.
  pose proof (length_arange_500 _ _ Hw) as Hlen.
  pose proof (ajuste_fino_500 (fase_B_fija frontera_B_1) frontera_A_2
                0.05 0.1 Hlen) as Hhueco.
  unfold estrella.ajuste_fino in *.
  destruct (barrido_fija_Ok frontera_B_1 frontera_A_2 e
              (np.arange 0.05 0.1 E_rel_max) He 0 (np.zeros 501)
              (np.zeros 501)) as (Tp & E & Hb).
  { rewrite Hlen. unfold np.zeros. rewrite length_replicate. lia. }
  { rewrite Hlen. unfold np.zeros. rewrite length_replicate. lia. }
  rewrite Hb in Hhueco |- *. mon. cbn [mbind res_bind] in Hhueco.
  apply barrido_Ok in Hb as (HlT & HlE & Hfuera & Hdentro).
  rewrite Hlen in Hfuera. unfold np.zeros in HlT, HlE, Hfuera.
  rewrite length_replicate in HlT, HlE.
  destruct (Hfuera 500%nat) as [HT500 HE500]; [lia |].
  rewrite lookup_replicate_2 in HT500, HE500 by lia.
  assert (HE : E = replicate 500 e ++ [0]).
  { apply list_eq. intros m.
    destruct (decide (m < 500)%nat) as [Hlt | Hge].
    - rewrite lookup_app_l by (rewrite length_replicate; lia).
      rewrite lookup_replicate_2 by lia.
      destruct (lookup_lt_is_Some_2 (np.arange 0.05 0.1 E_rel_max) m)
        as [Tm HTm]; [lia |].
      destruct (Hdentro m Tm HTm) as (_ & p & FB & CB & e' & HB & He' & HEm).
      cbn in HB. injection HB as _ <- _. rewrite He in He'.
      injection He' as <-. exact HEm.
    - destruct (decide (m = 500%nat)) as [-> | Hne].
      + rewrite lookup_app_r by (rewrite length_replicate; lia).
        by rewrite length_replicate.
      + rewrite !lookup_ge_None_2; [done | |].
        * rewrite length_app, length_replicate. simpl. lia.
        * lia. }
  destruct (estrella.minimo_de E) as [m | |] eqn:Hm.
  - mon. cbn [mbind res_bind] in Hhueco.
    assert (m = 0) as ->.
    { apply minimo_de_Ok in Hm as [Hin Hmin].
      apply Rle_antisym.
      - apply Hmin, list_elem_of_lookup. by exists 500%nat.
      - rewrite HE in Hin. apply elem_of_app in Hin as [Hin | Hin].
        + apply elem_of_replicate in Hin as [-> _]. lra.
        + apply list_elem_of_singleton in Hin. lra. }
    rewrite HE, where_eq_hueco by lra. cbn [estrella.float_de].
    rewrite (proj2 (leer_Ok Tp 500 0) HT500). reflexivity.
  - rewrite HE in Hm. destruct (replicate 500 e ++ [0]) eqn:Hl; [| done].
    apply (f_equal length) in Hl.
    rewrite length_app, length_replicate in Hl. simpl in Hl. lia.
  - rewrite HE in Hm. destruct (replicate 500 e ++ [0]) eqn:Hl; [| done].
    apply (f_equal length) in Hl.
    rewrite length_app, length_replicate in Hl. simpl in Hl. lia.
Qed.

(** When the interval has 501 trial temperatures, every entry of the two
    arrays is written, and whenever the fine fit returns, it returns what
    C1 says: the least of the total relative errors of the trials, and a
    trial temperature that attains it. *)
Lemma ajuste_fino_501 (fase_B : R -> res (Param * Frontera * list Ciclo))
    (Frontera_A : Frontera) (T_c_init T_c_fin : R) :
  length (np.arange T_c_init T_c_fin E_rel_max) = 501%nat ->
  siempre (estrella.ajuste_fino fase_B Frontera_A T_c_init T_c_fin)
    (fun '(minimo, T_c_def) =>
       T_c_def ∈ np.arange T_c_init T_c_fin E_rel_max
       /\ (exists param Frontera_B Ciclo_B,
             fase_B T_c_def = Ok (param, Frontera_B, Ciclo_B)
             /\ estrella.error_total Frontera_A Frontera_B = Ok minimo)
       /\ forall T_c param Frontera_B Ciclo_B e,
            T_c ∈ np.arange T_c_init T_c_fin E_rel_max ->
            fase_B T_c = Ok (param, Frontera_B, Ciclo_B) ->
            estrella.error_total Frontera_A Frontera_B = Ok e ->
            minimo <= e).
Proof.
  intros Hlen. apply siempre_Ok. intros [minimo T_c_def] H.
  unfold estrella.ajuste_fino in H.
  apply bind_Ok in H as ([Tp E] & Hb & H). cbn beta iota in H.
  apply bind_Ok in H as (m & Hm & H).
  apply bind_Ok in H as (T & HT & H). injection H as -> ->.
  apply barrido_Ok in Hb as (HlT & HlE & _ & Hdentro).
  unfold np.zeros in HlT, HlE. rewrite length_replicate in HlT, HlE.
  apply minimo_de_Ok in Hm as [Hin Hmin].
  apply float_de_Ok in HT as (j & Hpos & HTj).
  assert (HEj : E !! j = Some minimo).
  { apply where_eq_elem. rewrite Hpos. by left. }
  assert (Hj : (j < 501)%nat).
  { apply lookup_lt_Some in HEj. lia. }
  destruct (lookup_lt_is_Some_2 (np.arange T_c_init T_c_fin E_rel_max) j)
    as [Tj HTj']; [lia |].
  destruct (Hdentro j Tj HTj') as (HTp & p & FB & CB & e & HB & He & HE).
  cbn in HTp, HE. rewrite HTj in HTp. injection HTp as ->.
  rewrite HEj in HE. injection HE as ->.
  split; [by apply list_elem_of_lookup; exists j |].
  split; [by exists p, FB, CB |].
  intros T_c p' FB' CB' e' [k Hk]%list_elem_of_lookup HB' He'.
  destruct (Hdentro k T_c Hk) as (_ & p2 & FB2 & CB2 & e2 & HB2 & He2 & HE2).
  rewrite HB' in HB2. injection HB2 as <- <- <-.
  rewrite He' in He2. injection He2 as <-.
  apply Hmin, list_elem_of_lookup. by exists k.
Qed.

(** In binary64, the interval of the search that ends at the central
    temperature 0.1 gives a quotient that is not above 500: 500 trial
    temperatures, as in exact arithmetic.  The one of the search that ends
    at 2.0 gives a quotient above 500 and not above 501: the rounding adds
    a trial, and all the 501 entries are written. *)
Lemma binary64_pruebas :
  PrimFloat.leb binary64.cociente_0_1 500%float = true
  /\ PrimFloat.ltb 500%float binary64.cociente_2_0 = true
  /\ PrimFloat.leb binary64.cociente_2_0 501%float = true.
Proof. vm_compute. repeat split. Qed.

(** ** estrella.py: the columns of the final table *)

Lemma length_sin_ultimo {A : Type} (a : list A) :
  length (estrella.sin_ultimo a) = (length a - 1)%nat.
Proof. unfold estrella.sin_ultimo. rewrite length_take. lia. Qed.

(** The number of entries of a column: the layers of Phase B but the last
    one, the layers of Phase A up to [i_f] that the trim has left, and the
    layers of Phase 0 that the trim has left. *)
Lemma length_columna (x_B x_A x_0 : list R) (i_f : nat) :
  length (estrella.columna x_B x_A x_0 i_f)
  = (length (estrella.sin_ultimo (np.trim_zeros x_B))
     + length (take (i_f + 1) (np.trim_zeros x_A))
     + length (np.trim_zeros x_0))%nat.
Proof.
  unfold estrella.columna.
  rewrite length_map, !length_app, length_reverse. lia.
Qed.

(** The trim removes the zeros at the end, and nothing else. *)
Lemma trim_zeros_zeros (n : nat) : np.trim_zeros (replicate n 0) = [].
Proof.
  induction n as [| n IH]; [reflexivity |].
  cbn [replicate np.trim_zeros]. rewrite IH. by decide_R.
Qed.

Lemma trim_zeros_app_zeros (a : list R) (n : nat) :
  np.trim_zeros (a ++ replicate n 0) = np.trim_zeros a.
Proof.
  induction a as [| x a IH]; [apply trim_zeros_zeros |].
  cbn [app np.trim_zeros]. by rewrite IH.
Qed.

Lemma trim_zeros_snoc (a : list R) (x : R) :
  x <> 0 -> np.trim_zeros (a ++ [x]) = a ++ [x].
Proof.
  intros Hx. induction a as [| y a IH].
  - cbn. by decide_R.
  - cbn [app np.trim_zeros]. rewrite IH. by destruct a.
Qed.

Lemma trim_zeros_snoc_0 (a : list R) :
  np.trim_zeros (a ++ [0]) = np.trim_zeros a.
Proof. apply (trim_zeros_app_zeros a 1). Qed.

(** ** estrella.py: the loop of Phase 0 *)

(** Writing the entry [k] of a buffer whose [k] first entries are filled. *)
Lemma escribir_siguiente (a : list R) (k : nat) (v : R) :
  length a = k -> (k < 50)%nat ->
  np.escribir (a ++ replicate (50 - k) 0) k v
  = Ok ((a ++ [v]) ++ replicate (50 - (k + 1)) 0).
Proof.
  intros Ha Hk. unfold np.escribir.
  rewrite decide_True by (rewrite length_app, length_replicate; lia).
  f_equal. replace (50 - k)%nat with (S (50 - (k + 1))) by lia.
  cbn [replicate]. rewrite <- app_assoc. cbn [app].
  rewrite insert_app_r_alt by lia.
  by rewrite Ha, Nat.sub_diag.
Qed.

Lemma capas_0_siguiente (M_tot R_tot L_tot R_ini h A1 A2 : R) (k : nat) :
  capas_0 M_tot R_tot L_tot R_ini h A1 A2 (k + 1)
  = estrella.mkEstado0 (k + 1)
      ((map (radio_0 R_ini h) (seq 0 k) ++ [radio_0 R_ini h k])
         ++ replicate (50 - (k + 1)) 0)
      ((map (presion_0 R_tot R_ini h A1 A2) (seq 0 k)
          ++ [presion_0 R_tot R_ini h A1 A2 k])
         ++ replicate (50 - (k + 1)) 0)
      ((map (temperatura_0 R_tot R_ini h A1) (seq 0 k)
          ++ [temperatura_0 R_tot R_ini h A1 k])
         ++ replicate (50 - (k + 1)) 0)
      ((replicate k M_tot ++ [M_tot]) ++ replicate (50 - (k + 1)) 0)
      ((replicate k L_tot ++ [L_tot]) ++ replicate (50 - (k + 1)) 0)
      (replicate k Nulo ++ [Nulo]).
Proof.
  unfold capas_0. replace (k + 1)%nat with (S k) by lia.
  rewrite seq_S, !map_app. cbn [map Nat.add].
  by rewrite !replicate_S_end.
Qed.

(** A pass of the loop of Phase 0 on a layer that is not beyond the total
    radius accepts the layer. *)
Lemma paso_0_acepta (M_tot R_tot L_tot R_ini h A1 A2 : R) (k : nat) :
  (k < 50)%nat -> R_tot <> 0 ->
  radio_0 R_ini h k <> 0 -> radio_0 R_ini h k <= R_tot ->
  estrella.paso_0 M_tot R_tot L_tot R_ini h A1 A2
    (capas_0 M_tot R_tot L_tot R_ini h A1 A2 k)
  = Ok (estrella.Acepta (capas_0 M_tot R_tot L_tot R_ini h A1 A2 (k + 1))).
Proof.
  intros Hk HR Hr Hle. rewrite capas_0_siguiente.
  unfold estrella.paso_0, capas_0.
  cbn [estrella.i0 estrella.r_0 estrella.P_0 estrella.T_0 estrella.M_0
       estrella.L_0 estrella.Ciclo_0].
  fold (radio_0 R_ini h k). rewrite !div_py_Ok by assumption. mon.
  fold (temperatura_0 R_tot R_ini h A1 k).
  assert (HP : (if temperatura_0 R_tot R_ini h A1 k <=? 0
                then Ok 0
                else t ← temperatura_0 R_tot R_ini h A1 k ^! 4.25;
                     Ok (A2 * t))
               = Ok (presion_0 R_tot R_ini h A1 A2 k)).
  { unfold presion_0.
    destruct (temperatura_0 R_tot R_ini h A1 k <=? 0) eqn:HT; [done |].
    apply Rleb_false in HT. rewrite pow_py_pos by lra. done. }
  rewrite HP. mon. decide_R.
  rewrite !escribir_siguiente
    by (rewrite ?length_map, ?length_seq, ?length_replicate; done).
  mon. reflexivity.
Qed.

(** A pass on a layer beyond the total radius ends the loop. *)
Lemma paso_0_sale (M_tot R_tot L_tot R_ini h A1 A2 : R)
    (st : estrella.Estado0) :
  R_tot <> 0 ->
  radio_0 R_ini h (estrella.i0 st) <> 0 ->
  R_tot < radio_0 R_ini h (estrella.i0 st) ->
  estrella.paso_0 M_tot R_tot L_tot R_ini h A1 A2 st = Ok (estrella.Sale st).
Proof.
  intros HR Hr Hlt. unfold estrella.paso_0.
  fold (radio_0 R_ini h (estrella.i0 st)). rewrite !div_py_Ok by assumption. mon.
  destruct (_ <=? 0) eqn:HT.
  - mon. by decide_R.
  - apply Rleb_false in HT. rewrite pow_py_pos by lra. mon. by decide_R.
Qed.

(** Phase 0 comes to its end: when the [k] first layers are not beyond the
    total radius and the next one is, the loop accepts the [k] layers and
    ends, and its buffers hold the values of these layers followed by the
    zeros of [np.zeros(50)]. *)
Lemma fase_0_cerrado (M_tot R_tot L_tot R_ini h A1 A2 : R) (k n : nat) :
  (k <= 50)%nat -> R_tot <> 0 ->
  (forall j, (j < k)%nat ->
     radio_0 R_ini h j <> 0 /\ radio_0 R_ini h j <= R_tot) ->
  radio_0 R_ini h k <> 0 -> R_tot < radio_0 R_ini h k ->
  estrella.fase_0 (k + 1 + n) M_tot R_tot L_tot R_ini h A1 A2
  = Ok (capas_0 M_tot R_tot L_tot R_ini h A1 A2 k).
Proof.
  intros Hk HR Hdentro Hr Hfuera. unfold estrella.fase_0.
  change estrella.inicial0 with (capas_0 M_tot R_tot L_tot R_ini h A1 A2 0).
  assert (H : forall m j, (j + m = k)%nat ->
            estrella.bucle_0 M_tot R_tot L_tot R_ini h A1 A2 (m + 1 + n)
              (capas_0 M_tot R_tot L_tot R_ini h A1 A2 j)
            = Ok (capas_0 M_tot R_tot L_tot R_ini h A1 A2 k)).
  { induction m as [| m IH]; intros j Hj.
    - replace j with k by lia. cbn [Nat.add estrella.bucle_0].
      rewrite paso_0_sale by done. reflexivity.
    - cbn [Nat.add estrella.bucle_0].
      destruct (Hdentro j) as [Hr_j Hle_j]; [lia |].
      rewrite paso_0_acepta by (done || lia). mon.
      apply IH. lia. }
  apply H. lia.
Qed.

Lemma trim_zeros_replicate (k n : nat) (x : R) :
  x <> 0 -> np.trim_zeros (replicate k x ++ replicate n 0) = replicate k x.
Proof.
  intros Hx. rewrite trim_zeros_app_zeros. destruct k as [| k]; [done |].
  rewrite replicate_S_end. by apply trim_zeros_snoc.
Qed.

(** The trim of a buffer whose [k+1] first entries are the values of a
    function, when the last of these values is not 0. *)
Lemma trim_zeros_map (f : nat -> R) (k n : nat) :
  f k <> 0 ->
  np.trim_zeros (map f (seq 0 (S k)) ++ replicate n 0) = map f (seq 0 (S k)).
Proof.
  intros Hf. rewrite trim_zeros_app_zeros, seq_S, map_app. cbn [map Nat.add].
  by apply trim_zeros_snoc.
Qed.

(** The same, when the last value is 0 and the one before it, if there is
    one, is not: the trim takes the last value away. *)
Lemma trim_zeros_map_0 (f : nat -> R) (k n : nat) :
  f k = 0 -> (forall j, S j = k -> f j <> 0) ->
  np.trim_zeros (map f (seq 0 (S k)) ++ replicate n 0) = map f (seq 0 k).
Proof.
  intros H0 Hf. rewrite trim_zeros_app_zeros, seq_S, map_app.
  cbn [map Nat.add]. rewrite H0, trim_zeros_snoc_0.
  destruct k as [| k]; [reflexivity |].
  rewrite <- (app_nil_r (map f (seq 0 (S k)))) at 1.
  apply (trim_zeros_map f k 0). by apply Hf.
Qed.

Lemma lookup_map_seq (f : nat -> R) (k n : nat) :
  (map f (seq 0 (S k)) ++ replicate n 0) !! k = Some (f k).
Proof.
  rewrite lookup_app_l by (rewrite length_map, length_seq; lia).
  rewrite list_lookup_fmap, lookup_seq_lt by lia. done.
Qed.

(** ** estrella.py: Phase 0 when the number of layers is a multiple of 9 *)

(** With the starting radius [0.9*R_tot] and [9*m] layers, the layer [j] of
    Phase 0 lies at the radius [R_tot*(0.9 + 0.1*(j+1)/m)]: the layer [m-1]
    lies at the total radius. *)
Lemma radio_0_multiplo (R_tot : R) (m j : nat) :
  (0 < m)%nat ->
  radio_0 (0.9 * R_tot) (- (0.9 * R_tot / (9 * INR m))) j
  = R_tot * (0.9 + 0.1 * (INR (j + 1) / INR m)).
Proof.
  intros Hm. unfold radio_0.
  assert (H : INR m <> 0) by (apply not_0_INR; lia).
  generalize dependent (INR m). generalize (INR (j + 1)).
  intros a b Hb.
  replace 0.9 with (9 / 10) by lra. replace 0.1 with (1 / 10) by lra.
  field. exact Hb.
Qed.

Lemma radio_0_dentro (R_tot : R) (m j : nat) :
  0 < R_tot -> (j < m)%nat ->
  0 < radio_0 (0.9 * R_tot) (- (0.9 * R_tot / (9 * INR m))) j <= R_tot.
Proof.
  intros HR Hj. rewrite radio_0_multiplo by lia.
  assert (Hm : 0 < INR m) by (apply lt_0_INR; lia).
  assert (H0 : 0 < INR (j + 1) / INR m).
  { apply Rdiv_lt_0_compat; [apply lt_0_INR; lia | exact Hm]. }
  assert (H1 : INR (j + 1) / INR m <= 1).
  { apply (Rmult_le_reg_r (INR m)); [exact Hm |].
    unfold Rdiv. rewrite Rmult_assoc, Rinv_l, Rmult_1_r by lra.
    rewrite Rmult_1_l. apply le_INR. lia. }
  split; nra.
Qed.

Lemma radio_0_ultimo (R_tot : R) (k : nat) :
  radio_0 (0.9 * R_tot) (- (0.9 * R_tot / (9 * INR (S k)))) k = R_tot.
Proof.
  rewrite radio_0_multiplo by lia. replace (k + 1)%nat with (S k) by lia.
  assert (H : INR (S k) <> 0) by (apply not_0_INR; lia).
  generalize dependent (INR (S k)). intros b Hb.
  replace 0.9 with (9 / 10) by lra. replace 0.1 with (1 / 10) by lra.
  field. exact Hb.
Qed.

Lemma radio_0_interior (R_tot : R) (m j : nat) :
  0 < R_tot -> (j + 1 < m)%nat ->
  radio_0 (0.9 * R_tot) (- (0.9 * R_tot / (9 * INR m))) j < R_tot.
Proof.
  intros HR Hj. rewrite radio_0_multiplo by lia.
  assert (Hm : 0 < INR m) by (apply lt_0_INR; lia).
  assert (H1 : INR (j + 1) / INR m < 1).
  { apply (Rmult_lt_reg_r (INR m)); [exact Hm |].
    unfold Rdiv. rewrite Rmult_assoc, Rinv_l, Rmult_1_r by lra.
    rewrite Rmult_1_l. apply lt_INR. lia. }
  nra.
Qed.

Lemma radio_0_fuera (R_tot : R) (m : nat) :
  0 < R_tot -> (0 < m)%nat ->
  R_tot < radio_0 (0.9 * R_tot) (- (0.9 * R_tot / (9 * INR m))) m.
Proof.
  intros HR Hm0. rewrite radio_0_multiplo by lia.
  assert (Hm : 0 < INR m) by (apply lt_0_INR; lia).
  assert (H1 : 1 < INR (m + 1) / INR m).
  { apply (Rmult_lt_reg_r (INR m)); [exact Hm |].
    unfold Rdiv. rewrite Rmult_assoc, Rinv_l, Rmult_1_r by lra.
    rewrite Rmult_1_l. apply lt_INR. lia. }
  nra.
Qed.

(** Phase 0 comes to its end with [m] layers. *)
Lemma fase_0_multiplo (M_tot R_tot L_tot A1 A2 : R) (m fuel : nat) :
  0 < R_tot -> (0 < m <= 50)%nat -> (m < fuel)%nat ->
  estrella.fase_0 fuel M_tot R_tot L_tot
    (0.9 * R_tot) (- (0.9 * R_tot / (9 * INR m))) A1 A2
  = Ok (capas_0 M_tot R_tot L_tot
          (0.9 * R_tot) (- (0.9 * R_tot / (9 * INR m))) A1 A2 m).
Proof.
  intros HR Hm Hfuel.
  replace fuel with (m + 1 + (fuel - m - 1))%nat by lia.
  apply fase_0_cerrado.
  - lia.
  - lra.
  - intros j Hj. pose proof (radio_0_dentro R_tot m j HR Hj). split; lra.
  - pose proof (radio_0_fuera R_tot m HR ltac:(lia)). lra.
  - apply radio_0_fuera; [exact HR | lia].
Qed.

(** The last of these layers lies at the total radius, where the
    temperature is 0: the trim leaves [k+1] radii and [k] temperatures. *)
Lemma trim_fase_0_multiplo (M_tot R_tot L_tot A1 A2 : R) (k : nat) :
  0 < R_tot -> A1 <> 0 ->
  let st0 := capas_0 M_tot R_tot L_tot
               (0.9 * R_tot) (- (0.9 * R_tot / (9 * INR (S k)))) A1 A2 (S k) in
  length (np.trim_zeros (estrella.r_0 st0)) = S k
  /\ length (np.trim_zeros (estrella.T_0 st0)) = k
  /\ length (estrella.Ciclo_0 st0) = S k.
Proof.
  intros HR HA1. cbn zeta. unfold capas_0.
  cbn [estrella.r_0 estrella.T_0 estrella.Ciclo_0].
  split; [| split].
  - rewrite trim_zeros_map, length_map, length_seq; [done |].
    rewrite radio_0_ultimo. lra.
  - rewrite trim_zeros_map_0, length_map, length_seq; [done | |].
    + unfold temperatura_0. rewrite radio_0_ultimo. lra.
    + intros j Hj. unfold temperatura_0.
      pose proof (radio_0_dentro R_tot (S k) j HR ltac:(lia)) as [Hpos _].
      pose proof (radio_0_interior R_tot (S k) j HR ltac:(lia)) as Hlt.
      set (r := radio_0 _ _ j) in *.
      assert (Hinv : 1 / R_tot < 1 / r).
      { unfold Rdiv. rewrite !Rmult_1_l. by apply Rinv_lt_contravar; [nra |]. }
      intros H0. apply Rmult_integral in H0 as [H0 | H0]; lra.
  - by rewrite length_replicate.
Qed.

Lemma div_py_inv (x y q : R) : x /! y = Ok q -> y <> 0 /\ q = x / y.
Proof.
  unfold div_py. destruct (Req_dec_T y 0); [done |]. by intros [= <-].
Qed.

(** The constants of [star]. *)
Lemma constantes_Ok (M_tot X Y R_tot L_tot num_capas mu R_ini h A1 A2 : R) :
  estrella.constantes M_tot X Y R_tot L_tot num_capas
  = Ok (mu, R_ini, h, A1, A2) ->
  num_capas <> 0
  /\ mu <> 0
  /\ R_ini = 0.9 * R_tot
  /\ h = - (0.9 * R_tot / num_capas)
  /\ A1 = 1.9022 * mu * M_tot.
Proof.
  unfold estrella.constantes, peso_molecular. intros H. desmonta H.
  injection H as <- <- <- <- _.
  apply div_py_inv in Ha as [Hmu ->]. apply div_py_inv in Ha0 as [Hn ->].
  repeat split; try done.
  - unfold Rdiv. rewrite Rmult_1_l. by apply Rinv_neq_0_compat.
  - unfold Rdiv. lra.
Qed.

(** ** The trim of a buffer *)

Lemma trim_zeros_cons (x : R) (a : list R) :
  (length (np.trim_zeros a) <= length (np.trim_zeros (x :: a))
   <= S (length (np.trim_zeros a)))%nat.
Proof.
  cbn [np.trim_zeros]. destruct (np.trim_zeros a); [| cbn; lia].
  destruct (x =? 0); cbn; lia.
Qed.

(** The trim keeps every entry up to one that is not 0. *)
Lemma trim_zeros_ge (l : list R) (i : nat) :
  no_nulo l i -> (S i <= length (np.trim_zeros l))%nat.
Proof.
  revert i. induction l as [| x a IH]; intros i (v & Hv & Hne); [done |].
  destruct i as [| i].
  - injection Hv as ->. cbn [np.trim_zeros].
    destruct (np.trim_zeros a); [| cbn; lia].
    replace (v =? 0) with false by (by decide_R). cbn. lia.
  - assert (Ha : (S i <= length (np.trim_zeros a))%nat).
    { apply IH. by exists v. }
    cbn [np.trim_zeros]. destruct (np.trim_zeros a); cbn in *; lia.
Qed.

(** The trim keeps no entry after which there are only zeros. *)
Lemma trim_zeros_le (l : list R) (i : nat) :
  (forall j, (i <= j)%nat -> (j < length l)%nat -> l !! j = Some 0) ->
  (length (np.trim_zeros l) <= i)%nat.
Proof.
  revert i. induction l as [| x a IH]; intros i H; [cbn; lia |].
  destruct i as [| i].
  - assert (Ha : (length (np.trim_zeros a) <= 0)%nat).
    { apply IH. intros j _ Hj. apply (H (S j)); cbn; lia. }
    assert (Hx : x = 0).
    { specialize (H 0%nat ltac:(lia) ltac:(cbn; lia)). by injection H. }
    cbn [np.trim_zeros]. destruct (np.trim_zeros a); [| cbn in Ha; lia].
    subst x. replace (0 =? 0) with true by (by decide_R). done.
  - assert (Ha : (length (np.trim_zeros a) <= i)%nat).
    { apply IH. intros j Hij Hj. apply (H (S j)); cbn; lia. }
    pose proof (trim_zeros_cons x a). lia.
Qed.

Lemma trim_zeros_length (l : list R) (i : nat) :
  no_nulo l i -> ceros_tras l i -> length (np.trim_zeros l) = S i.
Proof.
  intros Hne H0. apply Nat.le_antisymm.
  - apply trim_zeros_le. intros j Hij Hj. apply H0; lia.
  - by apply trim_zeros_ge.
Qed.

(** A slice [a[:n+1]] of a trimmed buffer whose entry [n] is not 0. *)
Lemma length_take_trim (l : list R) (n : nat) :
  no_nulo l n -> length (take (n + 1) (np.trim_zeros l)) = (n + 1)%nat.
Proof.
  intros H. apply trim_zeros_ge in H. rewrite length_take. lia.
Qed.

Lemma no_nulo_insert (l : list R) (i : nat) (v : R) :
  (i < length l)%nat -> v <> 0 -> no_nulo (<[i:=v]> l) i.
Proof. intros Hi Hv. exists v. by rewrite list_lookup_insert_eq. Qed.

Lemma ceros_tras_insert (l : list R) (i : nat) (v : R) :
  ceros_tras l i -> ceros_tras (<[S i:=v]> l) (S i).
Proof.
  intros H j Hij Hj. rewrite length_insert in Hj.
  rewrite list_lookup_insert_ne by lia. apply H; lia.
Qed.

(** ** estrella.py: the last layer of Phase A *)

(** The derivative of the pressure divides by the temperature and by the
    square of the radius. *)
Lemma presion_Ok (r_i P_i T_i M_i mu d : R) :
  primera_derivada.presion r_i P_i T_i M_i mu false = Ok d ->
  r_i <> 0 /\ T_i <> 0.
Proof.
  unfold primera_derivada.presion. intros H.
  apply bind_Ok in H as (q & Hq & H). apply bind_Ok in H as (r2 & Hr2 & H).
  apply bind_Ok in H as (m & Hm & _).
  apply div_py_inv in Hq as [HT _]. rewrite pow_py_2 in Hr2.
  injection Hr2 as <-. apply div_py_inv in Hm as [Hr _].
  split; [| exact HT]. intros ->. apply Hr. lra.
Qed.

Lemma presion_calculada_Ok
    (r_i1 P_i P_i1 T_i1 M_i1 dP_i dP_im1 mu h : R) (x : R * R) :
  valor_calculado.presion_calculada r_i1 P_i P_i1 T_i1 M_i1 dP_i dP_im1 mu h
  = Ok x ->
  r_i1 <> 0.
Proof.
  unfold valor_calculado.presion_calculada. intros H.
  apply bind_Ok in H as (d & Hd & _). by apply presion_Ok in Hd as [? _].
Qed.

Lemma bucle_P_11_Ok (M_tot mu h : R) (n : nat) (r_i1 : R)
    (hi : estrella.Historia) (T_est P_est : R) (x : R * R * R) :
  estrella.bucle_P_11 M_tot mu h n r_i1 hi T_est P_est = Ok x -> r_i1 <> 0.
Proof.
  revert P_est. induction n as [| n IH]; intros P_est H; [done |].
  cbn [estrella.bucle_P_11] in H.
  apply bind_Ok in H as ([P_cal dP] & Hp & H).
  by apply presion_calculada_Ok in Hp.
Qed.

Lemma bucle_T_11_Ok (fuel : nat) (M_tot X Y L_tot mu h : R) (n : nat)
    (r_i1 : R) (hi : estrella.Historia) (P_est T_est : R)
    (P_cal dP_i1 T_cal dT_i1 : R) :
  estrella.bucle_T_11 fuel M_tot X Y L_tot mu h n r_i1 hi P_est T_est
  = Ok (P_cal, dP_i1, T_cal, dT_i1) ->
  r_i1 <> 0 /\ T_cal <> 0.
Proof.
  revert P_est T_est. induction n as [| n IH]; intros P_est T_est H; [done |].
  cbn [estrella.bucle_T_11] in H.
  apply bind_Ok in H as ([[P_est' P_cal'] dP'] & Hp & H). cbn beta iota in H.
  apply bind_Ok in H as ([T_cal' dT'] & _ & H). cbn beta iota in H.
  apply bind_Ok in H as (q & Hq & H).
  destruct (Rabs q <? E_rel_max).
  - injection H as _ _ <- _. split.
    + by apply bucle_P_11_Ok in Hp.
    + by apply div_py_inv in Hq as [? _].
  - exact (IH _ _ H).
Qed.

Lemma bucle_P_12_Ok (mu h : R) (n : nat) (r_i1 : R)
    (hi : estrella.Historia) (T_est P_est : R) (x : R * R * R * R * R) :
  estrella.bucle_P_12 mu h n r_i1 hi T_est P_est = Ok x -> r_i1 <> 0.
Proof.
  revert P_est. induction n as [| n IH]; intros P_est H; [done |].
  cbn [estrella.bucle_P_12] in H.
  apply bind_Ok in H as ([M_cal dM] & _ & H). cbn beta iota in H.
  apply bind_Ok in H as ([P_cal dP] & Hp & H).
  by apply presion_calculada_Ok in Hp.
Qed.

Lemma bucle_T_12_Ok (fuel : nat) (X Y L_tot mu h : R) (n : nat)
    (r_i1 : R) (hi : estrella.Historia) (P_est T_est : R)
    (M_cal dM_i1 P_cal dP_i1 T_cal dT_i1 : R) :
  estrella.bucle_T_12 fuel X Y L_tot mu h n r_i1 hi P_est T_est
  = Ok (M_cal, dM_i1, P_cal, dP_i1, T_cal, dT_i1) ->
  r_i1 <> 0 /\ T_cal <> 0.
Proof.
  revert P_est T_est. induction n as [| n IH]; intros P_est T_est H; [done |].
  cbn [estrella.bucle_T_12] in H.
  apply bind_Ok in H as ([[[[P_est' M'] dM'] P_cal'] dP'] & Hp & H).
  cbn beta iota in H.
  apply bind_Ok in H as ([T_cal' dT'] & _ & H). cbn beta iota in H.
  apply bind_Ok in H as (q & Hq & H).
  destruct (Rabs q <? E_rel_max).
  - injection H as _ _ _ _ <- _. split.
    + by apply bucle_P_12_Ok in Hp.
    + by apply div_py_inv in Hq as [? _].
  - exact (IH _ _ H).
Qed.

Lemma bucle_T_13_Ok (fuel : nat) (X Y mu h : R) (n : nat)
    (r_i1 : R) (hi : estrella.Historia) (P_est T_est : R) (c : estrella.Capa) :
  estrella.bucle_T_13 fuel X Y mu h n r_i1 hi P_est T_est = Ok c ->
  r_i1 <> 0 /\ estrella.T_cal c <> 0.
Proof.
  revert P_est T_est. induction n as [| n IH]; intros P_est T_est H; [done |].
  cbn [estrella.bucle_T_13] in H.
  apply bind_Ok in H as ([[[[P_est' M'] dM'] P_cal'] dP'] & Hp & H).
  cbn beta iota in H.
  apply bind_Ok in H as ([[L_cal' dL'] C'] & _ & H). cbn beta iota in H.
  apply bind_Ok in H as ([T_cal' dT'] & _ & H). cbn beta iota in H.
  apply bind_Ok in H as (q & Hq & H).
  destruct (Rabs q <? E_rel_max).
  - injection H as <-. cbn. split.
    + by apply bucle_P_12_Ok in Hp.
    + by apply div_py_inv in Hq as [? _].
  - exact (IH _ _ H).
Qed.

(** The acceptance of a layer whose radius and temperature are not 0. *)
Lemma aceptar_capa (st st' : estrella.EstadoA) (r P T M L dP dT dM : R)
    (dL : option R) (c : Ciclo) :
  estrella.aceptar st r P T M L dP dT dM dL c = Ok st' ->
  r <> 0 -> T <> 0 -> capa_no_nula st'.
Proof.
  unfold estrella.aceptar. intros H Hr HT. desmonta H.
  injection H as <-. unfold capa_no_nula. cbn. escrituras.
  split; by apply no_nulo_insert.
Qed.

Lemma paso_11_capa (fuel : nat) (M_tot X Y L_tot mu R_ini h : R)
    (st : estrella.EstadoA) (p : estrella.Paso estrella.EstadoA estrella.EstadoA) :
  capa_no_nula st ->
  estrella.paso_11 fuel M_tot X Y L_tot mu R_ini h st = Ok p ->
  match p with
  | estrella.Sale st' | estrella.Acepta st' => capa_no_nula st'
  end.
Proof.
  unfold estrella.paso_11. intros Hst H.
  apply bind_Ok in H as (hi & _ & H).
  apply bind_Ok in H as ([[[P_cal dP] T_cal] dT] & HT & H). cbn beta iota in H.
  apply bind_Ok in H as ([M_cal dM] & _ & H). cbn beta iota in H.
  apply bind_Ok in H as (q & _ & H).
  apply bucle_T_11_Ok in HT as [Hr HT].
  destruct (E_rel_max <? Rabs q).
  - by injection H as <-.
  - apply bind_Ok in H as (st' & Hac & H). injection H as <-.
    exact (aceptar_capa _ _ _ _ _ _ _ _ _ _ _ _ Hac Hr HT).
Qed.

Lemma paso_12_capa (fuel : nat) (X Y L_tot mu R_ini h : R)
    (st : estrella.EstadoA) (p : estrella.Paso estrella.EstadoA estrella.EstadoA) :
  capa_no_nula st ->
  estrella.paso_12 fuel X Y L_tot mu R_ini h st = Ok p ->
  match p with
  | estrella.Sale st' | estrella.Acepta st' => capa_no_nula st'
  end.
Proof.
  unfold estrella.paso_12. intros Hst H.
  apply bind_Ok in H as (hi & _ & H).
  apply bind_Ok in H as ([[[[[M_cal dM] P_cal] dP] T_cal] dT] & HT & H).
  cbn beta iota in H.
  apply bind_Ok in H as ([[L_cal dL] C] & _ & H). cbn beta iota in H.
  apply bind_Ok in H as (q & _ & H).
  apply bucle_T_12_Ok in HT as [Hr HT].
  destruct (E_rel_max <? Rabs q).
  - by injection H as <-.
  - apply bind_Ok in H as (st' & Hac & H). injection H as <-.
    exact (aceptar_capa _ _ _ _ _ _ _ _ _ _ _ _ Hac Hr HT).
Qed.

Lemma paso_13_capa (fuel : nat) (X Y mu R_ini h : R)
    (s s' : estrella.EstadoA * list R) :
  estrella.paso_13 fuel X Y mu R_ini h s = Ok (estrella.Acepta s') ->
  capa_no_nula s'.1.
Proof.
  unfold estrella.paso_13. destruct s as [st nm]. intros H.
  apply bind_Ok in H as (hi & _ & H).
  apply bind_Ok in H as (c & HT & H).
  apply bind_Ok in H as (n_i1 & _ & H).
  apply bind_Ok in H as (nm' & _ & H).
  apply bind_Ok in H as (n_i & _ & H).
  apply bucle_T_13_Ok in HT as [Hr HT].
  destruct (estrella.criterio_conveccion n_i1 n_i); [done |].
  apply bind_Ok in H as (st' & Hac & H). injection H as <-. cbn.
  exact (aceptar_capa _ _ _ _ _ _ _ _ _ _ _ _ Hac Hr HT).
Qed.

(** The third of the three first layers. *)
Lemma semilla_A_capa (M_tot X Y R_tot L_tot mu R_ini h A1 A2 : R)
    (st st' : estrella.EstadoA) (i : nat) :
  estrella.semilla_A M_tot X Y R_tot L_tot mu R_ini h A1 A2 st i = Ok st' ->
  capa_no_nula st'.
Proof.
  unfold estrella.semilla_A. intros H.
  apply bind_Ok in H as (a & _ & H). apply bind_Ok in H as (b & _ & H).
  apply bind_Ok in H as (t & _ & H).
  apply bind_Ok in H as (r' & Hr' & H). apply bind_Ok in H as (P' & HP' & H).
  apply bind_Ok in H as (T' & HT' & H). apply bind_Ok in H as (M' & HM' & H).
  apply bind_Ok in H as (L' & HL' & H).
  apply bind_Ok in H as ([[[f0 f1] f2] f3] & Hd & H). cbn beta iota in H.
  desmonta H. injection H as <-.
  unfold derydif.derivadas in Hd. apply bind_Ok in Hd as (dP & HdP & _).
  apply presion_Ok in HdP as [Hr HT].
  unfold capa_no_nula. cbn. escrituras.
  split; by apply no_nulo_insert.
Qed.

(** Phase A leaves in the entries [i_f] of its buffers a radius and a
    temperature that are not 0, and the list of cycles has [i_f + 1] entries
    at least. *)
Lemma fase_A_capa (fuel : nat) (M_tot X Y R_tot L_tot mu R_ini h A1 A2 : R)
    (a : estrella.FaseA) :
  estrella.fase_A fuel M_tot X Y R_tot L_tot mu R_ini h A1 A2 = Ok a ->
  no_nulo (estrella.r_A (estrella.capas_A a)) (estrella.i_f a)
  /\ no_nulo (estrella.T_A (estrella.capas_A a)) (estrella.i_f a)
  /\ (estrella.i_f a + 1 <= length (estrella.Ciclo_A (estrella.capas_A a)))%nat.
Proof.
  intros H. pose proof (fase_A_radios _ _ _ _ _ _ _ _ _ _ _ _ H) as [_ [HC _]].
  unfold estrella.fase_A in H.
  apply bind_Ok in H as (st & Hs & H).
  apply bind_Ok in H as (st1 & H1 & H).
  apply bind_Ok in H as (st2 & H2 & H).
  apply bind_Ok in H as ([[st3 nm] c] & H3 & H). cbn beta iota in H.
  apply bind_Ok in H as (k & Hk & H).
  apply bind_Ok in H as (st4 & H4 & H).
  injection H as <-. cbn in *.
  assert (Hc0 : capa_no_nula st).
  { unfold estrella.semillas_A in Hs.
    apply bind_Ok in Hs as (s0 & _ & Hs). apply bind_Ok in Hs as (s1 & _ & Hs).
    by apply semilla_A_capa in Hs. }
  assert (Hc1 : capa_no_nula st1).
  { unfold estrella.fase_A11 in H1.
    refine (bucle_capas_inv capa_no_nula _ _ _ _ _ Hc0 H1).
    intros s p Hinv Hp. exact (paso_11_capa _ _ _ _ _ _ _ _ _ _ Hinv Hp). }
  assert (Hc2 : capa_no_nula st2).
  { unfold estrella.fase_A12 in H2.
    refine (bucle_capas_inv capa_no_nula _ _ _ _ _ Hc1 H2).
    intros s p Hinv Hp. exact (paso_12_capa _ _ _ _ _ _ _ _ _ Hinv Hp). }
  assert (Hc3 : capa_no_nula st3).
  { unfold estrella.fase_A13 in H3.
    eapply (bucle_13_inv _ _ _ _ _ _ (fun s => capa_no_nula s.1)) in H3
      as ([st' nm'] & Hinv & Hp); [| | exact Hc2].
    - apply paso_13_Ok in Hp as (c' & n_i1 & n_i & _ & _ & _ & Hp).
      destruct (estrella.criterio_conveccion n_i1 n_i).
      + by injection Hp as -> _ _.
      + by destruct Hp as (? & _ & ?).
    - intros s s' _. apply paso_13_capa. }
  destruct Hc3 as [(x & Hx & Hx0) (y & Hy & Hy0)].
  assert (Hf : (estrella.i st3 <= estrella.i st4)%nat
               /\ estrella.r_A st4 !! estrella.i st3 = Some x
               /\ estrella.T_A st4 !! estrella.i st3 = Some y).
  { refine (bucle_2_inv _ _ _ _ _ _ _ _
              (fun s => (estrella.i st3 <= estrella.i s)%nat
                        /\ estrella.r_A s !! estrella.i st3 = Some x
                        /\ estrella.T_A s !! estrella.i st3 = Some y)
              _ _ _ _ _ _ H4); [| done].
    intros s d s' d' (Hi & Hr & HT) Hp.
    apply paso_2_Ok in Hp as (_ & Hp).
    destruct Hp as (P0 & T0 & M0 & L0 & dT0 & dM0 & dL0 & c0 & Hp).
    apply aceptar_Ok in Hp as (Hi' & _ & Hr' & HT' & _).
    rewrite Hi', Hr', HT', !list_lookup_insert_ne by lia.
    repeat split; [lia | done | done]. }
  destruct Hf as (Hi & Hr & HT).
  split; [by exists x |]. split; [by exists y |]. lia.
Qed.

(** ** faseB.py: the last layer of Phase B *)

(** One of the three first layers, away from the centre: the derivatives
    divide by its temperature. *)
Lemma semilla_B_capa (T_c h X Y k_prima mu : R) (st st' : faseB.Estado)
    (i : nat) (T_i T_i' : R) :
  faseB.semilla T_c h X Y k_prima mu st i T_i = Ok (st', T_i') ->
  (i < length (faseB.T st))%nat
  /\ faseB.T st' = <[i := T_i']> (faseB.T st)
  /\ (h * INR i <> 0 -> T_i' <> 0).
Proof.
  unfold faseB.semilla. intros H.
  apply bind_Ok in H as ([[C E1] nu] & _ & H). cbn beta iota in H.
  destruct (primera_derivada.fracciones C X Y) as [X1 X2].
  desmonta H. destruct (_ =? 0) eqn:Hr.
  - injection H as <- <-. cbn. escrituras.
    split; [done |]. split; [done |]. by apply Reqb_true in Hr.
  - apply bind_Ok in H as ([[[f0 f1] f2] f3] & Hd & H). cbn beta iota in H.
    desmonta H. injection H as <- <-. cbn. escrituras.
    split; [done |]. split; [done |]. intros _.
    unfold derydif.derivadas in Hd. apply bind_Ok in Hd as (dP & HdP & _).
    by apply presion_Ok in HdP as [_ ?].
Qed.

Lemma semillas_B_llenas (T_c h X Y k_prima mu : R) (st : faseB.Estado) :
  h <> 0 ->
  faseB.semillas T_c h X Y k_prima mu = Ok st -> capas_B_llenas st.
Proof.
  unfold faseB.semillas. intros Hh H.
  apply bind_Ok in H as ([st0 T0] & H0 & H). cbn beta iota in H.
  apply bind_Ok in H as ([st1 T1] & H1 & H). cbn beta iota in H.
  apply bind_Ok in H as ([st2 T2] & H2 & H). cbn beta iota in H.
  injection H as <-.
  pose proof (semilla_B_capa _ _ _ _ _ _ _ _ _ _ _ H0) as (LT0 & ET0 & _).
  pose proof (semilla_B_capa _ _ _ _ _ _ _ _ _ _ _ H1) as (LT1 & ET1 & _).
  pose proof (semilla_B_capa _ _ _ _ _ _ _ _ _ _ _ H2) as (LT2 & ET2 & HT2).
  apply semilla_B_Ok in H0 as (_ & L0 & R0 & _).
  apply semilla_B_Ok in H1 as (_ & L1 & R1 & _).
  apply semilla_B_Ok in H2 as (I2 & L2 & R2 & _).
  unfold capas_B_llenas. rewrite I2, R2, R1, R0, ET2, ET1, ET0.
  split; [lia |]. split; [| split].
  - apply no_nulo_insert; [by rewrite <- ET0, <- ET1 |].
    apply HT2. simpl. lra.
  - intros j Hj Hlen. rewrite !length_insert in Hlen.
    rewrite !list_lookup_insert_ne by lia.
    apply lookup_replicate_2. exact Hlen.
  - intros j Hj Hlen. rewrite !length_insert in Hlen.
    rewrite !list_lookup_insert_ne by lia.
    apply lookup_replicate_2. exact Hlen.
Qed.

Lemma bucle_T_B_Ok (h X Y k_prima mu : R) (n : nat)
    (r_i1 T_i M_i L_i dT_i dT_im1 dM_i dM_im1 T_est : R)
    (P_est M_cal dM_i1 T_cal dT_i1 : R) :
  faseB.bucle_T h X Y k_prima mu n r_i1 T_i M_i L_i dT_i dT_im1 dM_i dM_im1
    T_est
  = Ok (P_est, M_cal, dM_i1, T_cal, dT_i1) ->
  T_cal <> 0.
Proof.
  revert T_est. induction n as [| n IH]; intros T_est H; [done |].
  cbn [faseB.bucle_T] in H.
  apply bind_Ok in H as (P_est' & _ & H).
  apply bind_Ok in H as ([M_cal' dM'] & _ & H). cbn beta iota in H.
  apply bind_Ok in H as ([T_cal' dT'] & _ & H). cbn beta iota in H.
  apply bind_Ok in H as (q & Hq & H).
  destruct (Rabs q <? E_rel_max).
  - injection H as _ _ _ <- _. by apply div_py_inv in Hq as [? _].
  - exact (IH _ H).
Qed.

Lemma paso_B_llenas (fuel : nat) (rf h X Y k_prima mu : R)
    (st : faseB.Estado) (p : faseB.Paso) :
  capas_B_llenas st ->
  faseB.paso fuel rf h X Y k_prima mu st = Ok p ->
  match p with
  | faseB.Sale st' | faseB.Acepta st' => capas_B_llenas st'
  end.
Proof.
  unfold faseB.paso. intros (Hi & HT & Hr0 & HT0) H.
  apply bind_Ok in H as (T_i & _ & H).
  apply bind_Ok in H as (dT_i & _ & H).
  apply bind_Ok in H as (dT_im1 & _ & H).
  apply bind_Ok in H as (dT_im2 & _ & H).
  apply bind_Ok in H as (M_i & _ & H).
  apply bind_Ok in H as (dM_i & _ & H).
  apply bind_Ok in H as (dM_im1 & _ & H).
  apply bind_Ok in H as (L_i & _ & H).
  apply bind_Ok in H as ([[[[P_est M_cal] dM_i1] T_cal] dT_i1] & Hb & H).
  cbn beta iota in H. apply bucle_T_B_Ok in Hb.
  desmonta H. destruct (_ <? _).
  - by injection H as <-.
  - desmonta H. injection H as <-. unfold capas_B_llenas. cbn. escrituras.
    replace (faseB.i st + 1)%nat with (S (faseB.i st)) in * by lia.
    split; [lia |]. split; [by apply no_nulo_insert |].
    split; by apply ceros_tras_insert.
Qed.

Lemma bucle_capas_B_llenas (fuel : nat) (rf h X Y k_prima mu : R) (n : nat)
    (st st' : faseB.Estado) :
  capas_B_llenas st ->
  faseB.bucle_capas fuel rf h X Y k_prima mu n st = Ok st' ->
  capas_B_llenas st'.
Proof.
  revert st. induction n as [| n IH]; intros st Hst H; [done |].
  cbn [faseB.bucle_capas] in H. apply bind_Ok in H as (p & Hp & H).
  pose proof (paso_B_llenas _ _ _ _ _ _ _ _ _ Hst Hp) as Hinv.
  destruct p as [st1 | st1]; cbn in H.
  - exact (IH st1 Hinv H).
  - by injection H as <-.
Qed.

(** The trims of the radii and of the temperatures of a run of Phase B have
    as many entries as its list of cycles. *)
Lemma conveccion_llena (fuel : nat) (T_c rf h X Y k_prima : R)
    (param : Param) (F : Frontera) (C : list Ciclo) :
  h <> 0 ->
  faseB.conveccion fuel T_c rf h X Y k_prima = Ok (param, F, C) ->
  length (np.trim_zeros (p_r param)) = length C
  /\ length (np.trim_zeros (p_T param)) = length C.
Proof.
  unfold faseB.conveccion, faseB.capas. intros Hh H.
  apply bind_Ok in H as (st & Hst & H).
  apply bind_Ok in H as (F' & _ & H). injection H as <- _ <-. cbn.
  apply bind_Ok in Hst as (mu & _ & Hst).
  apply bind_Ok in Hst as (st0 & H0 & Hst).
  pose proof (semillas_B_llenas _ _ _ _ _ _ _ Hh H0) as Hll.
  apply semillas_B_radios in H0.
  apply (bucle_capas_B_llenas _ _ _ _ _ _ _ _ _ _ Hll) in Hst as Hll'.
  apply (bucle_capas_B_radios _ _ _ _ _ _ _ _ _ _ H0) in Hst as [HC Hr].
  destruct Hll' as (Hi & HT & Hr0 & HT0). rewrite HC.
  replace (faseB.i st + 1)%nat with (S (faseB.i st)) by lia.
  split; apply trim_zeros_length; try done.
  exists (h * INR (faseB.i st)). split; [by apply Hr |].
  assert (0 < INR (faseB.i st)) by (apply lt_0_INR; lia). nra.
Qed.

(** ** estrella.py: the lengths of the columns of the final table *)

(** C10.  The columns of the final table do not always have the same
    length.  Let the total radius be positive, the total mass not 0, and the
    number of layers [9*(k+1)] with [k < 50]: the constants of [star] put
    the layer [k] of Phase 0 at the total radius, where the temperature is
    0; Phase 0 ends with [k+1] layers; and for every result of Phase A and
    every result of a run of Phase B with the step [-h], in the table that
    [star] builds from them the columns of the layer index, of the transport,
    of the cycle and of the radius have the same length, and the column of
    the temperature has one entry less: the trim of the buffer of the
    temperatures of Phase 0 takes the 0 of the layer [k] for a slot that
    was never written. *)
Theorem longitudes_de_las_columnas
    (fuel : nat) (M_tot X Y R_tot L_tot num_capas : R) (k : nat) :
  0 < R_tot -> M_tot <> 0 -> (k < 50)%nat -> (k + 1 < fuel)%nat ->
  num_capas = 9 * INR (k + 1) ->
  siempre (estrella.constantes M_tot X Y R_tot L_tot num_capas)
    (fun '(mu, R_ini, h, A1, A2) =>
       exists st0,
         estrella.fase_0 fuel M_tot R_tot L_tot R_ini h A1 A2 = Ok st0
         /\ estrella.i0 st0 = (k + 1)%nat
         /\ siempre
              (estrella.fase_A fuel M_tot X Y R_tot L_tot mu R_ini h A1 A2)
              (fun a =>
                 forall T_c rf,
                   siempre
                     (faseB.conveccion fuel T_c rf (- h) X Y
                        (estrella.k_prima a))
                     (fun '(param, _, Ciclo_B) =>
                        let t := estrella.resultado param Ciclo_B
                                   (estrella.capas_A a) (estrella.i_f a) st0 in
                        length (estrella.Capa_col t)
                        = length (estrella.Radio t)
                        /\ length (estrella.Transporte_col t)
                           = length (estrella.Radio t)
                        /\ length (estrella.Ciclo_col t)
                           = length (estrella.Radio t)
                        /\ length (estrella.Radio t)
                           = S (length (estrella.Temperatura t))))).
Proof.
  intros HR HM Hk Hfuel Hn. apply siempre_Ok.
  intros [[[[mu R_ini] h] A1] A2] Hc.
  apply constantes_Ok in Hc as (_ & Hmu & -> & -> & ->). subst num_capas.
  replace (k + 1)%nat with (S k) in * by lia.
  assert (HA1 : 1.9022 * mu * M_tot <> 0).
  { intros H0. apply Rmult_integral in H0 as [H0 | H0]; [| done].
    apply Rmult_integral in H0 as [H0 | H0]; [lra | done]. }
  assert (Hh : - - (0.9 * R_tot / (9 * INR (S k))) <> 0).
  { assert (0 < INR (S k)) by (apply lt_0_INR; lia).
    assert (0 < 0.9 * R_tot / (9 * INR (S k)))
      by (apply Rdiv_lt_0_compat; lra).
    lra. }
  eexists. split; [apply fase_0_multiplo; [done | lia | lia] |].
  split; [reflexivity |].
  destruct (trim_fase_0_multiplo M_tot R_tot L_tot (1.9022 * mu * M_tot) A2 k
              HR HA1) as (Hr0 & HT0 & HC0).
  set (st0 := capas_0 _ _ _ _ _ _ _ _) in *.
  apply siempre_Ok. intros a Ha.
  apply fase_A_capa in Ha as (HrA & HTA & HCA).
  intros T_c rf. apply siempre_Ok. intros [[param F] Ciclo_B] HB.
  apply (conveccion_llena _ _ _ _ _ _ _ _ _ _ Hh) in HB as [HrB HTB].
  cbn zeta. unfold estrella.resultado.
  cbn [estrella.Capa_col estrella.Transporte_col estrella.Ciclo_col
       estrella.Radio estrella.Temperatura].
  rewrite length_seq, !length_app, !length_replicate, length_reverse.
  rewrite !length_columna, !length_sin_ultimo, !length_take_trim by done.
  rewrite length_take, HrB, HTB, Hr0, HT0, HC0. lia.
Qed.

Lemma longitudes_de_las_columnas_witness :
  0 < 11.5 /\ 5.0 <> 0 /\ (9 < 50)%nat /\ (9 + 1 < 100)%nat
  /\ 90 = 9 * INR (9 + 1)
  /\ siempre (estrella.constantes 5.0 0.75 0.22 11.5 70.0 90)
       (fun '(mu, R_ini, h, A1, A2) =>
          exists st0,
            estrella.fase_0 100 5.0 11.5 70.0 R_ini h A1 A2 = Ok st0
            /\ estrella.i0 st0 = (9 + 1)%nat
            /\ siempre
                 (estrella.fase_A 100 5.0 0.75 0.22 11.5 70.0 mu R_ini h A1 A2)
                 (fun a =>
                    forall T_c rf,
                      siempre
                        (faseB.conveccion 100 T_c rf (- h) 0.75 0.22
                           (estrella.k_prima a))
                        (fun '(param, _, Ciclo_B) =>
                           let t := estrella.resultado param Ciclo_B
                                      (estrella.capas_A a) (estrella.i_f a)
                                      st0 in
                           length (estrella.Capa_col t)
                           = length (estrella.Radio t)
                           /\ length (estrella.Transporte_col t)
                              = length (estrella.Radio t)
                           /\ length (estrella.Ciclo_col t)
                              = length (estrella.Radio t)
                           /\ length (estrella.Radio t)
                              = S (length (estrella.Temperatura t))))).
Proof.
  assert (H1 : 0 < 11.5) by lra. assert (H2 : 5.0 <> 0) by lra.
  assert (H3 : (9 < 50)%nat) by lia. assert (H4 : (9 + 1 < 100)%nat) by lia.
  assert (H5 : 90 = 9 * INR (9 + 1)) by (simpl; lra).
  split; [exact H1 |]. split; [exact H2 |]. split; [exact H3 |].
  split; [exact H4 |]. split; [exact H5 |].
  exact (longitudes_de_las_columnas 100 5.0 0.75 0.22 11.5 70.0 90 9
           H1 H2 H3 H4 H5).
Defined.

(** The run [star(5.0, 0.75, 0.22, 11.5, 70.0, T_c, 90)], the test model
    with 90 layers: the constants are computed, Phase 0 accepts ten layers,
    the last of them at the radius 11.5 with the temperature 0, and the
    trims of its buffers leave ten radii and nine temperatures. *)
Lemma fase_0_R11_5_n90 :
  exists mu R_ini h A1 A2 st0,
    estrella.constantes 5.0 0.75 0.22 11.5 70.0 90
    = Ok (mu, R_ini, h, A1, A2)
    /\ estrella.fase_0 100 5.0 11.5 70.0 R_ini h A1 A2 = Ok st0
    /\ estrella.r_0 st0 !! 9%nat = Some 11.5
    /\ estrella.T_0 st0 !! 9%nat = Some 0
    /\ length (np.trim_zeros (estrella.r_0 st0)) = 10%nat
    /\ length (np.trim_zeros (estrella.T_0 st0)) = 9%nat.
Proof.
  assert (Hc : exists A2,
            estrella.constantes 5.0 0.75 0.22 11.5 70.0 90
            = Ok (1 / 1.68, 0.9 * 11.5, - (0.9 * 11.5 / (9 * INR 10)),
                  1.9022 * (1 / 1.68) * 5.0, A2)).
  { unfold estrella.constantes, peso_molecular.
    replace (2 * 0.75 + 3 / 4 * 0.22 + 1 / 2 * (1 - 0.75 - 0.22)) with 1.68
      by lra.
    rewrite div_py_Ok by lra. mon. rewrite div_py_Ok by lra. mon.
    rewrite div_py_Ok by lra. mon.
    set (a := 5.0 / (1 / 1.68 * (1 - 0.75 - 0.22) * (1 + 0.75) * 70.0)).
    assert (Ha : 0 < a) by (unfold a; apply Rdiv_lt_0_compat; lra).
    unfold sqrt_py. destruct (Rlt_dec a 0) as [Hneg | _]; [lra |]. mon.
    exists (10.645 * sqrt a).
    replace (9 * INR 10) with 90 by (simpl; lra).
    replace (- (0.9 * 11.5) / 90) with (- (0.9 * 11.5 / 90)) by lra.
    reflexivity. }
  destruct Hc as [A2 Hc].
  assert (HA1 : 1.9022 * (1 / 1.68) * 5.0 <> 0) by lra.
  destruct (trim_fase_0_multiplo 5.0 11.5 70.0 (1.9022 * (1 / 1.68) * 5.0)
              A2 9 ltac:(lra) HA1) as (Hr0 & HT0 & _).
  eexists _, _, _, _, _, _. split; [exact Hc |].
  split; [apply (fase_0_multiplo _ 11.5 _ _ _ 10 100); [lra | lia | lia] |].
  split; [| split; [| split; [exact Hr0 | exact HT0]]].
  - unfold capas_0. cbn [estrella.r_0].
    rewrite lookup_map_seq. f_equal. apply radio_0_ultimo.
  - unfold capas_0. cbn [estrella.T_0].
    rewrite lookup_map_seq. f_equal.
    unfold temperatura_0. rewrite radio_0_ultimo. lra.
Qed.

(** In binary64 too, the layer 9 of Phase 0 of that run lies at the total
    radius, and the factor of its temperature is 0: the ten first layers are
    not beyond the total radius, and the eleventh is. *)
Lemma binary64_capa_en_R_tot :
  PrimFloat.eqb (binary64.radio_capa 11.5 90 9) 11.5 = true
  /\ PrimFloat.eqb (binary64.factor_T 11.5 90 9) 0 = true
  /\ forallb (fun i => PrimFloat.leb (binary64.radio_capa 11.5 90 i) 11.5)
       [0; 1; 2; 3; 4; 5; 6; 7; 8; 9]%Z
     = true
  /\ PrimFloat.ltb 11.5 (binary64.radio_capa 11.5 90 10) = true.
Proof. vm_compute. repeat split. Qed.

(** * Further properties of the code *)

(** ** energia.py: which cycle can be selected *)

Lemma coef_pp_no_negativo (T_i E1 nu : R) :
  energia.coef_pp T_i = Ok (E1, nu) -> 0 <= E1 /\ (nu = 0 \/ 0 < T_i).
Proof.
  unfold energia.coef_pp.
  repeat match goal with
  | |- context [if ?b then _ else _] =>
      let Hb := fresh "Hb" in
      destruct b eqn:Hb;
      [ apply andb_prop in Hb as [Hb%Rltb_true _];
        rewrite pow_py_pos by lra; mon; intros [= <- <-];
        split; [left; apply exp_pos | right; lra] | clear Hb ]
  end.
  intros [= <- <-]. split; [lra | by left].
Qed.

Lemma coef_CN_no_negativo (T_i E1 nu : R) :
  energia.coef_CN T_i = Ok (E1, nu) -> 0 <= E1 /\ (nu = 0 \/ 0 < T_i).
Proof.
  unfold energia.coef_CN.
  repeat match goal with
  | |- context [if ?b then _ else _] =>
      let Hb := fresh "Hb" in
      destruct b eqn:Hb;
      [ apply andb_prop in Hb as [Hb%Rltb_true _];
        rewrite pow_py_pos by lra; mon; intros [= <- <-];
        split; [left; apply exp_pos | right; lra] | clear Hb ]
  end.
  intros [= <- <-]. split; [lra | by left].
Qed.

(** In its tabulated range the coefficient of the CN cycle is positive. *)
Lemma coef_CN_positivo (T_i : R) :
  1.2 < T_i <= 5.0 ->
  exists E1 nu, energia.coef_CN T_i = Ok (E1, nu) /\ 0 < E1.
Proof.
  intros [Hlo Hhi]. unfold energia.coef_CN.
  repeat match goal with
  | |- context [if ?b then _ else _] =>
      let Hb := fresh "Hb" in
      destruct b eqn:Hb;
      [ rewrite pow_py_pos by lra; mon; do 2 eexists;
        split; [reflexivity | apply exp_pos]
      | apply andb_false_iff in Hb as [Hb%Rltb_false | Hb%Rleb_false] ]
  end; lra.
Qed.

Lemma potencia_tabla_positiva (T_i nu p : R) :
  nu = 0 \/ 0 < T_i -> (10 * T_i) ^! nu = Ok p -> 0 < p.
Proof.
  intros [-> | HT] H.
  - rewrite pow_py_0_r in H. injection H as <-. lra.
  - destruct (pow_py_pos_Ok (10 * T_i) nu) as (p' & Hp & Hpos); [lra |].
    rewrite Hp in H. by injection H as <-.
Qed.

(** The two rates, with the values of the tables. *)
Lemma ritmos_valor (T_i X Y E_pp E_CN : R) :
  energia.ritmos T_i X Y = Ok (E_pp, E_CN) ->
  exists E1_pp nu_pp p_pp E1_CN nu_CN p_CN,
    energia.coef_pp T_i = Ok (E1_pp, nu_pp)
    /\ energia.coef_CN T_i = Ok (E1_CN, nu_CN)
    /\ 0 <= E1_pp /\ 0 < p_pp /\ 0 <= E1_CN /\ 0 < p_CN
    /\ E_pp = E1_pp * (X * X) * p_pp
    /\ E_CN = 1 / 3 * E1_CN * X * (1 - X - Y) * p_CN.
Proof.
  unfold energia.ritmos, energia.ritmo_pp, energia.ritmo_CN. intros H.
  apply bind_Ok in H as ([E1_pp nu_pp] & Hpp & H). cbn beta iota in H.
  apply bind_Ok in H as (E & HE & H).
  apply bind_Ok in HE as (x2 & Hx2 & HE).
  apply bind_Ok in HE as (p_pp & Hp_pp & HE). injection HE as <-.
  apply bind_Ok in H as ([E1_CN nu_CN] & HCN & H). cbn beta iota in H.
  apply bind_Ok in H as (E' & HE' & H).
  apply bind_Ok in HE' as (p_CN & Hp_CN & HE'). injection HE' as <-.
  injection H as <- <-. rewrite pow_py_2 in Hx2. injection Hx2 as <-.
  destruct (coef_pp_no_negativo _ _ _ Hpp) as [H1 Hn1].
  destruct (coef_CN_no_negativo _ _ _ HCN) as [H2 Hn2].
  exists E1_pp, nu_pp, p_pp, E1_CN, nu_CN, p_CN.
  repeat split; try done.
  - exact (potencia_tabla_positiva _ _ _ Hn1 Hp_pp).
  - exact (potencia_tabla_positiva _ _ _ Hn2 Hp_CN).
Qed.

(** X1.  Without hydrogen there is no generation of energy: for every
    temperature and every fraction of helium, [ciclo] with [X = 0] returns
    the label ['--'] with the pair (0, 0). *)
Theorem ciclo_sin_combustible (T_i Y : R) :
  energia.ciclo T_i 0 Y = Ok (Nulo, 0, 0).
Proof.
  destruct (ritmos_Ok T_i 0 Y)
    as (E1_pp & nu_pp & E1_CN & nu_CN & E_pp & E_CN & _ & _ & Hr & ->).
  apply ritmos_valor in Hr
    as (? & ? & ? & ? & ? & ? & _ & _ & _ & _ & _ & _ & -> & ->).
  unfold energia.predominante. by decide_R.
Qed.

(** X2.  The ranges of the tables decide which label is possible: at a
    temperature not above 1.2 the CN cycle is never selected, whatever the
    composition; and at a temperature above 2.4 the proton-proton chain is
    never selected when the composition is one ([X >= 0] and
    [X + Y <= 1]). *)
Theorem ciclo_segun_temperatura (T_i X Y : R) :
  siempre (energia.ciclo T_i X Y)
    (fun '(c, _, _) =>
       (T_i <= 1.2 -> c <> CN)
       /\ (2.4 < T_i -> 0 <= X -> X + Y <= 1 -> c <> PP)).
Proof.
  destruct (ritmos_Ok T_i X Y)
    as (E1_pp & nu_pp & E1_CN & nu_CN & E_pp & E_CN & Hpp & HCN & Hr & ->).
  apply ritmos_valor in Hr
    as (a & n & p & b & m & q & Hpp' & HCN' & Ha & Hp & Hb & Hq & -> & ->).
  assert (Hxx : 0 <= X * X) by nra.
  assert (H1 : 0 <= a * (X * X) * p).
  { apply Rmult_le_pos; [apply Rmult_le_pos |]; lra. }
  unfold energia.predominante.
  destruct (_ <? a * (X * X) * p) eqn:H3;
    [| destruct (a * (X * X) * p <? _) eqn:H4];
    unfold siempre; cbn beta iota;
    (split; [intros HT | intros HT HX HZ]); try done.
  - apply Rltb_true in H3.
    rewrite coef_pp_fuera in Hpp' by lra. injection Hpp' as <- <-.
    assert (H2 : 0 <= 1 / 3 * b * X * (1 - X - Y) * q).
    { repeat apply Rmult_le_pos; lra. }
    lra.
  - apply Rltb_true in H4.
    rewrite coef_CN_fuera in HCN' by lra. injection HCN' as <- <-. lra.
Qed.

(** X3.  The fractions are not checked: with hydrogen and with
    [X + Y > 1], at a temperature above 2.4 and not above 5.0, the rate of
    the CN cycle is negative, that of the proton-proton chain is 0, and
    [ciclo] returns the label PP with the coefficients (0, 0) of the
    temperatures outside the table of the chain. *)
Theorem ciclo_composicion_no_valida (T_i X Y : R) :
  2.4 < T_i <= 5.0 -> 0 < X -> 1 < X + Y ->
  energia.ciclo T_i X Y = Ok (PP, 0, 0).
Proof.
  intros [Hlo Hhi] HX HZ.
  destruct (ritmos_Ok T_i X Y)
    as (E1_pp & nu_pp & E1_CN & nu_CN & E_pp & E_CN & Hpp & HCN & Hr & ->).
  apply ritmos_valor in Hr
    as (a & n & p & b & m & q & Hpp' & HCN' & Ha & Hp & Hb & Hq & -> & ->).
  rewrite Hpp in Hpp'. injection Hpp' as <- <-.
  rewrite HCN in HCN'. injection HCN' as <- <-.
  rewrite coef_pp_fuera in Hpp by lra. injection Hpp as <- <-.
  destruct (coef_CN_positivo T_i) as (b' & m' & HCN' & Hb'); [lra |].
  rewrite HCN in HCN'. injection HCN' as <- <-.
  unfold energia.predominante.
  replace (0 * (X * X) * p) with 0 by ring.
  assert (H : 1 / 3 * E1_CN * X * (1 - X - Y) * q < 0).
  { assert (0 < 1 / 3 * E1_CN * X * q).
    { repeat apply Rmult_lt_0_compat; lra. }
    nra. }
  by decide_R.
Qed.

Lemma ciclo_composicion_no_valida_witness :
  2.4 < 3 <= 5.0 /\ 0 < 0.8 /\ 1 < 0.8 + 0.5
  /\ energia.ciclo 3 0.8 0.5 = Ok (PP, 0, 0).
Proof.
  assert (H1 : 2.4 < 3 <= 5.0) by lra. assert (H2 : 0 < 0.8) by lra.
  assert (H3 : 1 < 0.8 + 0.5) by lra.
  split; [exact H1 |]. split; [exact H2 |]. split; [exact H3 |].
  exact (ciclo_composicion_no_valida 3 0.8 0.5 H1 H2 H3).
Defined.

(** ** politropo.py: the other round trip, and the pressure *)

(** X4.  For every temperature [T > 0] and every pressure [P], the constant
    that [cte_k] extracts from [P] and [T], handed to [presion] with the
    same temperature, gives back [P]. *)
Theorem politropo_vuelta_e_ida (P T : R) :
  0 < T ->
  (k ← politropo.cte_k P T; politropo.presion T k) = Ok P.
Proof.
  intros HT. unfold politropo.presion, politropo.cte_k.
  rewrite pow_py_pos by lra. mon.
  assert (Hp : 0 < Rpower T 2.5) by apply exp_pos.
  rewrite div_py_Ok by lra. mon. decide_R.
  f_equal. field. lra.
Qed.

Lemma politropo_vuelta_e_ida_witness :
  0 < 2 /\ (k ← politropo.cte_k 3 2; politropo.presion 2 k) = Ok 3.
Proof.
  assert (H : 0 < 2) by lra. split; [exact H |].
  exact (politropo_vuelta_e_ida 3 2 H).
Defined.

(** X5.  [presion] never fails; with a constant [k >= 0] the pressure it
    returns is never negative, it is 0 exactly at the temperatures that are
    not positive when [k > 0], and it grows with the temperature:
    [T1 <= T2] gives [presion(T1, k) <= presion(T2, k)]. *)
Theorem presion_monotona (k T1 T2 : R) :
  0 <= k -> T1 <= T2 ->
  exists P1 P2,
    politropo.presion T1 k = Ok P1
    /\ politropo.presion T2 k = Ok P2
    /\ 0 <= P1 <= P2
    /\ (0 < k -> (P1 = 0 <-> T1 <= 0)).
Proof.
  intros Hk HT. unfold politropo.presion.
  destruct (T1 <=? 0) eqn:H1; destruct (T2 <=? 0) eqn:H2;
    try apply Rleb_true in H1; try apply Rleb_false in H1;
    try apply Rleb_true in H2; try apply Rleb_false in H2;
    try lra.
  - exists 0, 0. repeat split; try done; lra.
  - rewrite pow_py_pos by lra. mon.
    pose proof (exp_pos (2.5 * ln T2)) as Hp. fold (Rpower T2 2.5) in Hp.
    exists 0, (k * Rpower T2 2.5). repeat split; try done; nra.
  - rewrite !pow_py_pos by lra. mon.
    pose proof (exp_pos (2.5 * ln T1)) as Hp1. fold (Rpower T1 2.5) in Hp1.
    assert (Hle : Rpower T1 2.5 <= Rpower T2 2.5).
    { apply Rle_Rpower_l; lra. }
    exists (k * Rpower T1 2.5), (k * Rpower T2 2.5).
    repeat split; try done; try nra.
Qed.

Lemma presion_monotona_witness :
  0 <= 3 /\ 1 <= 2
  /\ exists P1 P2,
       politropo.presion 1 3 = Ok P1
       /\ politropo.presion 2 3 = Ok P2
       /\ 0 <= P1 <= P2
       /\ (0 < 3 -> (P1 = 0 <-> 1 <= 0)).
Proof.
  assert (H1 : 0 <= 3) by lra. assert (H2 : 1 <= 2) by lra.
  split; [exact H1 |]. split; [exact H2 |].
  exact (presion_monotona 3 1 2 H1 H2).
Defined.

(** ** The mean molecular weight and the constants of [star] *)

(** A division gives a quotient or raises [ZeroDivisionError]. *)
Lemma div_py_casos (x y : R) :
  (exists q, x /! y = Ok q) \/ x /! y = Err ZeroDivisionError.
Proof.
  unfold div_py. destruct (Req_dec_T y 0); [by right | left; by eexists].
Qed.

(** The mean molecular weight of a composition. *)
Lemma peso_molecular_Ok (X Y : R) :
  0 <= X -> 0 <= Y -> X + Y <= 1 ->
  exists mu, peso_molecular X Y = Ok mu /\ 1 / 2 <= mu <= 2.
Proof.
  intros HX HY HZ. unfold peso_molecular.
  set (d := 2 * X + 3 / 4 * Y + 1 / 2 * (1 - X - Y)).
  assert (Hd : 1 / 2 <= d <= 2) by (unfold d; lra).
  rewrite div_py_Ok by lra. exists (1 / d). split; [reflexivity |].
  split.
  - apply (Rmult_le_reg_r d); [lra |].
    replace (1 / d * d) with 1 by (field; lra). lra.
  - apply (Rmult_le_reg_r d); [lra |].
    replace (1 / d * d) with 1 by (field; lra). lra.
Qed.

(** X6.  For a composition ([X >= 0], [Y >= 0], [X + Y <= 1]) the mean
    molecular weight is computed, without a division by zero, and lies
    between 1/2, the value for hydrogen alone, and 2, the value for heavy
    elements alone. *)
Theorem peso_molecular_acotado (X Y : R) :
  0 <= X -> 0 <= Y -> X + Y <= 1 ->
  (exists mu, peso_molecular X Y = Ok mu /\ 1 / 2 <= mu <= 2)
  /\ peso_molecular 1 0 = Ok (1 / 2)
  /\ peso_molecular 0 0 = Ok 2.
Proof.
  intros HX HY HZ. split; [by apply peso_molecular_Ok |].
  unfold peso_molecular. rewrite !div_py_Ok by lra.
  split; f_equal; lra.
Qed.

Lemma peso_molecular_acotado_witness :
  0 <= 0.75 /\ 0 <= 0.22 /\ 0.75 + 0.22 <= 1
  /\ (exists mu, peso_molecular 0.75 0.22 = Ok mu /\ 1 / 2 <= mu <= 2)
  /\ peso_molecular 1 0 = Ok (1 / 2)
  /\ peso_molecular 0 0 = Ok 2.
Proof.
  assert (H1 : 0 <= 0.75) by lra. assert (H2 : 0 <= 0.22) by lra.
  assert (H3 : 0.75 + 0.22 <= 1) by lra.
  split; [exact H1 |]. split; [exact H2 |]. split; [exact H3 |].
  exact (peso_molecular_acotado 0.75 0.22 H1 H2 H3).
Defined.

(** X8.  For a star with positive mass, radius and luminosity, a positive
    number of layers and a composition with heavy elements, the constants
    of [star] are computed: the starting radius is [0.9 * R_tot], the step
    [h] is negative with [-h * num_capas = R_ini], and [A1] and [A2] are
    positive. *)
Theorem constantes_positivas (M_tot X Y R_tot L_tot num_capas : R) :
  0 < M_tot -> 0 < R_tot -> 0 < L_tot -> 0 < num_capas ->
  0 <= X -> 0 <= Y -> X + Y < 1 ->
  exists mu R_ini h A1 A2,
    estrella.constantes M_tot X Y R_tot L_tot num_capas
    = Ok (mu, R_ini, h, A1, A2)
    /\ peso_molecular X Y = Ok mu
    /\ R_ini = 0.9 * R_tot
    /\ h < 0 /\ - h * num_capas = R_ini
    /\ 0 < A1 /\ 0 < A2.
Proof.
  intros HM HR HL Hn HX HY HZ.
  destruct (peso_molecular_Ok X Y) as (mu & Hmu & Hlo & Hhi); [lra.. |].
  unfold estrella.constantes. rewrite Hmu. mon. cbn zeta.
  rewrite (div_py_Ok (- (0.9 * R_tot)) num_capas) by lra. mon.
  assert (Hd : 0 < mu * (1 - X - Y) * (1 + X) * L_tot).
  { apply Rmult_lt_0_compat; [| lra].
    apply Rmult_lt_0_compat; [| lra]. apply Rmult_lt_0_compat; lra. }
  rewrite div_py_Ok by lra. mon.
  assert (Ha : 0 < M_tot / (mu * (1 - X - Y) * (1 + X) * L_tot)).
  { by apply Rdiv_lt_0_compat. }
  unfold sqrt_py. destruct (Rlt_dec _ 0) as [Hneg | _]; [lra |]. mon.
  do 5 eexists. split; [reflexivity |]. split; [reflexivity |].
  split; [reflexivity |].
  assert (Hq : 0 < 0.9 * R_tot / num_capas) by (apply Rdiv_lt_0_compat; lra).
  split; [unfold Rdiv in *; lra |].
  split; [field; lra |].
  split; [nra |].
  pose proof (sqrt_lt_R0 _ Ha). lra.
Qed.

Lemma constantes_positivas_witness :
  0 < 5.0 /\ 0 < 11.5 /\ 0 < 70.0 /\ 0 < 100
  /\ 0 <= 0.75 /\ 0 <= 0.22 /\ 0.75 + 0.22 < 1
  /\ exists mu R_ini h A1 A2,
       estrella.constantes 5.0 0.75 0.22 11.5 70.0 100
       = Ok (mu, R_ini, h, A1, A2)
       /\ peso_molecular 0.75 0.22 = Ok mu
       /\ R_ini = 0.9 * 11.5
       /\ h < 0 /\ - h * 100 = R_ini
       /\ 0 < A1 /\ 0 < A2.
Proof.
  assert (H1 : 0 < 5.0) by lra. assert (H2 : 0 < 11.5) by lra.
  assert (H3 : 0 < 70.0) by lra. assert (H4 : 0 < 100) by lra.
  assert (H5 : 0 <= 0.75) by lra. assert (H6 : 0 <= 0.22) by lra.
  assert (H7 : 0.75 + 0.22 < 1) by lra.
  repeat (split; [assumption |]).
  exact (constantes_positivas 5.0 0.75 0.22 11.5 70.0 100
           H1 H2 H3 H4 H5 H6 H7).
Defined.

(** ** primera_derivada.py and derydif.py: the four derivatives *)

Lemma ciclo_coeficiente (T_i X Y : R) (c : Ciclo) (E1 nu : R) :
  energia.ciclo T_i X Y = Ok (c, E1, nu) -> 0 <= E1.
Proof.
  destruct (ritmos_Ok T_i X Y)
    as (E1_pp & nu_pp & E1_CN & nu_CN & E_pp & E_CN & Hpp & HCN & _ & ->).
  apply coef_pp_no_negativo in Hpp as [Hpp _].
  apply coef_CN_no_negativo in HCN as [HCN _].
  unfold energia.predominante.
  destruct (_ <? _); [by intros [= _ <- _] |].
  destruct (_ <? _); [by intros [= _ <- _] |].
  intros [= _ <- _]. lra.
Qed.

(** The derivative of the luminosity is computed at every positive
    temperature, and it is not negative for a composition. *)
Lemma luminosidad_no_negativa (r_i P_i T_i mu X Y : R) :
  0 < T_i -> 0 <= X -> X + Y <= 1 ->
  exists dL c,
    primera_derivada.luminosidad r_i P_i T_i mu X Y false = Ok (dL, c)
    /\ 0 <= dL.
Proof.
  intros HT HX HZ. unfold primera_derivada.luminosidad.
  destruct (ritmos_Ok T_i X Y)
    as (E1_pp & nu_pp & E1_CN & nu_CN & E_pp & E_CN & _ & _ & _ & Hc).
  destruct (energia.predominante _ _ _ _ _ _) as [[c E1] nu] eqn:Hp.
  pose proof (ciclo_coeficiente _ _ _ _ _ _ Hc) as HE1.
  rewrite Hc. mon.
  destruct (primera_derivada.fracciones c X Y) as [X1 X2] eqn:Hf.
  assert (HX12 : 0 <= X1 * X2).
  { destruct c; injection Hf as <- <-; nra. }
  destruct (pow_py_pos_Ok 10 nu) as (p10 & -> & Hp10); [lra |]. mon.
  rewrite !pow_py_2. mon.
  destruct (pow_py_pos_Ok T_i (nu - 2)) as (Tn & -> & HTn); [lra |]. mon.
  do 2 eexists. split; [reflexivity |].
  assert (0 <= mu * mu) by nra. assert (0 <= P_i * P_i) by nra.
  assert (0 <= r_i * r_i) by nra.
  repeat (apply Rmult_le_pos; [| lra]). lra.
Qed.

(** X9.  At a layer with positive radius, pressure, temperature, mass and
    luminosity, with a positive molecular weight and a composition with
    heavy elements, the four derivatives are computed, for the radiative
    and for the convective transport alike: the pressure and the
    temperature decrease outwards, the mass grows, and the luminosity does
    not decrease. *)
Theorem derivadas_signos (r_i P_i T_i M_i L_i mu X Y : R)
    (transfer : Transfer) :
  0 < r_i -> 0 < P_i -> 0 < T_i -> 0 < M_i -> 0 < L_i -> 0 < mu ->
  0 <= X -> X + Y < 1 ->
  exists dP dT dM dL,
    derydif.derivadas r_i P_i T_i M_i L_i mu X Y false false false false
      transfer
    = Ok (dP, dT, dM, dL)
    /\ dP < 0 /\ dT < 0 /\ 0 < dM /\ 0 <= dL.
Proof.
  intros Hr HP HT HM HL Hmu HX HZ.
  assert (Hr2 : 0 < r_i * r_i) by nra.
  assert (Hq : 0 < P_i / T_i) by (by apply Rdiv_lt_0_compat).
  assert (Hm : 0 < M_i / (r_i * r_i)) by (by apply Rdiv_lt_0_compat).
  destruct (luminosidad_no_negativa r_i P_i T_i mu X Y)
    as (dL & c & HdL & HdL0); [lra.. |].
  unfold derydif.derivadas.
  unfold primera_derivada.presion, primera_derivada.masa.
  rewrite !pow_py_2, !div_py_Ok by lra. mon.
  assert (Hmq : 0 < mu * (P_i / T_i)) by (apply Rmult_lt_0_compat; lra).
  assert (HdP : -8.084 * mu * (P_i / T_i) * (M_i / (r_i * r_i)) < 0).
  { assert (0 < mu * (P_i / T_i) * (M_i / (r_i * r_i)))
      by (apply Rmult_lt_0_compat; lra).
    lra. }
  assert (HdM : 0 < 0.01523 * mu * (P_i / T_i) * (r_i * r_i)).
  { assert (0 < mu * (P_i / T_i) * (r_i * r_i))
      by (apply Rmult_lt_0_compat; lra).
    lra. }
  destruct transfer; unfold primera_derivada.temperatura.
  - rewrite !pow_py_2. mon.
    destruct (pow_py_pos_Ok T_i 8.5) as (T85 & -> & HT85); [lra |]. mon.
    rewrite !div_py_Ok by lra. mon. rewrite HdL. mon.
    do 4 eexists. split; [reflexivity |].
    repeat split; try done.
    assert (Hq2 : 0 < P_i * P_i / T85) by (apply Rdiv_lt_0_compat; nra).
    assert (Hl : 0 < L_i / (r_i * r_i)) by (by apply Rdiv_lt_0_compat).
    assert (Hmm : 0 < mu * mu) by nra.
    assert (0 < (1 - X - Y) * (X + 1) * (mu * mu) * (P_i * P_i / T85)
                * (L_i / (r_i * r_i))).
    { repeat (apply Rmult_lt_0_compat; [| lra]). lra. }
    lra.
  - rewrite !pow_py_2. mon. rewrite (div_py_Ok M_i (r_i * r_i)) by lra. mon.
    rewrite HdL. mon.
    do 4 eexists. split; [reflexivity |].
    repeat split; try done.
    assert (0 < mu * (M_i / (r_i * r_i))) by (apply Rmult_lt_0_compat; lra).
    lra.
Qed.

Lemma derivadas_signos_witness :
  0 < 1 /\ 0 < 1 /\ 0 < 1.5 /\ 0 < 1 /\ 0 < 1 /\ 0 < 1
  /\ 0 <= 0.75 /\ 0.75 + 0.22 < 1
  /\ exists dP dT dM dL,
       derydif.derivadas 1 1 1.5 1 1 1 0.75 0.22 false false false false
         CONVECTIVE
       = Ok (dP, dT, dM, dL)
       /\ dP < 0 /\ dT < 0 /\ 0 < dM /\ 0 <= dL.
Proof.
  assert (H1 : 0 < 1) by lra. assert (H2 : 0 < 1.5) by lra.
  assert (H3 : 0 <= 0.75) by lra. assert (H4 : 0.75 + 0.22 < 1) by lra.
  split; [exact H1 |]. split; [exact H1 |]. split; [exact H2 |].
  split; [exact H1 |]. split; [exact H1 |]. split; [exact H1 |].
  split; [exact H3 |]. split; [exact H4 |].
  exact (derivadas_signos 1 1 1.5 1 1 1 0.75 0.22 CONVECTIVE
           H1 H1 H2 H1 H1 H1 H3 H4).
Defined.

(** X10.  The derivatives cannot be evaluated at the centre or at a zero
    temperature: when the pressure is not taken as constant, [derivadas]
    with [r_i = 0] or [T_i = 0] ends in [ZeroDivisionError], whatever the
    other arguments and flags are. *)
Theorem derivadas_en_el_centro (r_i P_i T_i M_i L_i mu X Y : R)
    (T_cte M_cte L_cte : bool) (transfer : Transfer) :
  r_i = 0 \/ T_i = 0 ->
  derydif.derivadas r_i P_i T_i M_i L_i mu X Y false T_cte M_cte L_cte transfer
  = Err ZeroDivisionError.
Proof.
  intros H. unfold derydif.derivadas, primera_derivada.presion.
  destruct (Req_dec_T T_i 0) as [-> | HT].
  - by rewrite div_py_0.
  - destruct H as [-> | H]; [| done].
    rewrite div_py_Ok by done. mon. rewrite pow_py_2. mon.
    replace (0 * 0) with 0 by ring. by rewrite div_py_0.
Qed.

Lemma derivadas_en_el_centro_witness :
  (0 = 0 \/ 1 = 0)
  /\ derydif.derivadas 0 1 1 1 1 1 0.75 0.22 false false false false
       CONVECTIVE
     = Err ZeroDivisionError.
Proof.
  assert (H : 0 = 0 \/ 1 = 0) by (left; reflexivity).
  split; [exact H |].
  exact (derivadas_en_el_centro 0 1 1 1 1 1 0.75 0.22 false false false
           CONVECTIVE H).
Defined.

(** ** valor_estimado.py and valor_calculado.py: the method of differences *)

(** X11.  The estimate of the next layer is exact on cubic profiles: when
    the value and the three derivatives handed to [presion_estimada] (or to
    [temperatura_estimada]) are those of a polynomial of degree 3 at the
    radii [r], [r - h] and [r - 2h], the estimate is the value of the
    polynomial at [r + h]. *)
Theorem estimacion_exacta (a0 a1 a2 a3 r h : R) :
  let p := fun x => a0 + a1 * x + a2 * (x * x) + a3 * (x * x * x) in
  let dp := fun x => a1 + 2 * a2 * x + 3 * a3 * (x * x) in
  valor_estimado.presion_estimada (p r) (dp r) (dp (r - h)) (dp (r - 2 * h)) h
  = p (r + h)
  /\ valor_estimado.temperatura_estimada
       (p r) (dp r) (dp (r - h)) (dp (r - 2 * h)) h
     = p (r + h).
Proof.
  cbn zeta.
  unfold valor_estimado.presion_estimada, valor_estimado.temperatura_estimada,
    derydif.diferencias.
  cbn [fst snd]. split; field.
Qed.

(** X12.  The computed values are a trapezoidal step for the pressure, the
    temperature and the mass, which does not use the derivative of the
    layer [i-1], and a third-order step for the luminosity:
    [L_i + h*(5*dL_i1 + 8*dL_i - dL_im1)/12], where the derivative of the new
    layer is the one that [primera_derivada] gives and that is returned
    with the value. *)
Theorem valores_calculados (r_i1 P_i P_i1 T_i T_i1 M_i M_i1 L_i L_i1 : R)
    (dP_i dP_im1 dT_i dT_im1 dM_i dM_im1 dL_i dL_im1 mu h X Y : R)
    (transfer : Transfer) :
  siempre
    (valor_calculado.presion_calculada r_i1 P_i P_i1 T_i1 M_i1 dP_i dP_im1
       mu h)
    (fun '(P_cal, dP_i1) =>
       primera_derivada.presion r_i1 P_i1 T_i1 M_i1 mu false = Ok dP_i1
       /\ P_cal = P_i + h / 2 * (dP_i1 + dP_i))
  /\ siempre
       (valor_calculado.temperatura_calculada r_i1 P_i1 T_i T_i1 M_i1 L_i1
          dT_i dT_im1 mu h X Y transfer)
       (fun '(T_cal, dT_i1) =>
          primera_derivada.temperatura r_i1 P_i1 T_i1 M_i1 L_i1 mu X Y
            false transfer = Ok dT_i1
          /\ T_cal = T_i + h / 2 * (dT_i1 + dT_i))
  /\ siempre
       (valor_calculado.masa_calculada r_i1 P_i1 T_i1 M_i dM_i dM_im1 mu h)
       (fun '(M_cal, dM_i1) =>
          primera_derivada.masa r_i1 P_i1 T_i1 mu false = Ok dM_i1
          /\ M_cal = M_i + h / 2 * (dM_i1 + dM_i))
  /\ siempre
       (valor_calculado.luminosidad_calculada r_i1 P_i1 T_i1 L_i dL_i dL_im1
          mu h X Y)
       (fun '(L_cal, dL_i1, c) =>
          primera_derivada.luminosidad r_i1 P_i1 T_i1 mu X Y false
          = Ok (dL_i1, c)
          /\ L_cal = L_i + h * (5 * dL_i1 + 8 * dL_i - dL_im1) / 12).
Proof.
  repeat split; apply siempre_Ok.
  - intros [P_cal d] H. unfold valor_calculado.presion_calculada in H.
    apply bind_Ok in H as (d' & Hd & H). injection H as <- <-.
    split; [exact Hd |]. unfold derydif.diferencias. cbn [fst]. field.
  - intros [T_cal d] H. unfold valor_calculado.temperatura_calculada in H.
    apply bind_Ok in H as (d' & Hd & H). injection H as <- <-.
    split; [exact Hd |]. unfold derydif.diferencias. cbn [fst]. field.
  - intros [M_cal d] H. unfold valor_calculado.masa_calculada in H.
    apply bind_Ok in H as (d' & Hd & H). injection H as <- <-.
    split; [exact Hd |]. unfold derydif.diferencias. cbn [fst]. field.
  - intros [[L_cal d] c] H. unfold valor_calculado.luminosidad_calculada in H.
    apply bind_Ok in H as ([d' c'] & Hd & H). cbn beta iota in H.
    injection H as <- <- <-.
    split; [exact Hd |]. unfold derydif.diferencias. cbn [fst snd]. field.
Qed.

(** ** valores_frontera.py: the values at the boundary *)

(** The interpolation between two samples never leaves the interval of the
    two sample values. *)
Lemma interp_acotado (x xp0 xp1 fp0 fp1 : R) :
  Rmin fp0 fp1 <= np.interp x xp0 xp1 fp0 fp1 <= Rmax fp0 fp1.
Proof.
  pose proof (Rmin_l fp0 fp1). pose proof (Rmin_r fp0 fp1).
  pose proof (Rmax_l fp0 fp1). pose proof (Rmax_r fp0 fp1).
  unfold np.interp.
  destruct (xp1 <? x) eqn:Ea; [lra |]. apply Rltb_false in Ea.
  destruct (x <? xp0) eqn:Eb; [lra |]. apply Rltb_false in Eb.
  destruct (xp1 <=? x) eqn:Ec; [lra |]. apply Rleb_false in Ec.
  destruct (xp0 =? x) eqn:Ed; [lra |]. apply Reqb_false in Ed.
  set (t := (x - xp0) / (xp1 - xp0)).
  assert (Ht : 0 <= t <= 1).
  { unfold t. split.
    - apply Rmult_le_pos; [lra |]. left. apply Rinv_0_lt_compat. lra.
    - apply (Rmult_le_reg_r (xp1 - xp0)); [lra |].
      unfold Rdiv. rewrite Rmult_assoc, Rinv_l by lra. lra. }
  replace ((fp1 - fp0) / (xp1 - xp0) * (x - xp0) + fp0)
    with (fp0 + t * (fp1 - fp0)) by (unfold t; field; lra).
  destruct (Rle_dec fp0 fp1) as [Hle | Hgt].
  - rewrite Rmin_left, Rmax_right by lra. split; nra.
  - rewrite Rmin_right, Rmax_left by lra. split; nra.
Qed.

(** X13.  The values at the boundary are interpolated and never
    extrapolated: whatever the radius [rf] is, [frontera] returns [rf]
    itself, and a pressure, a temperature, a mass and a luminosity that lie
    between the values of the two layers it is given. *)
Theorem frontera_acotada (rf : R) (r P T M L : R * R) :
  let F := valores_frontera.frontera rf r P T M L in
  rf_F F = rf
  /\ Rmin P.1 P.2 <= Pf F <= Rmax P.1 P.2
  /\ Rmin T.1 T.2 <= Tf F <= Rmax T.1 T.2
  /\ Rmin M.1 M.2 <= Mf F <= Rmax M.1 M.2
  /\ Rmin L.1 L.2 <= Lf F <= Rmax L.1 L.2.
Proof.
  cbn zeta. unfold valores_frontera.frontera. cbn [rf_F Pf Tf Mf Lf].
  split; [reflexivity |]. repeat split; apply interp_acotado.
Qed.

(** X14.  When the two layers lie at different radii, in increasing order,
    [frontera] at the radius of one of the layers returns the values of
    that layer, and in between the values of the line through the two
    layers. *)
Theorem frontera_en_las_capas (rf r0 r1 : R) (P T M L : R * R) :
  r0 < r1 ->
  valores_frontera.frontera r0 (r0, r1) P T M L
  = mkFrontera r0 P.1 T.1 M.1 L.1
  /\ valores_frontera.frontera r1 (r0, r1) P T M L
     = mkFrontera r1 P.2 T.2 M.2 L.2
  /\ (r0 < rf < r1 ->
      valores_frontera.frontera rf (r0, r1) P T M L
      = mkFrontera rf
          ((P.2 - P.1) / (r1 - r0) * (rf - r0) + P.1)
          ((T.2 - T.1) / (r1 - r0) * (rf - r0) + T.1)
          ((M.2 - M.1) / (r1 - r0) * (rf - r0) + M.1)
          ((L.2 - L.1) / (r1 - r0) * (rf - r0) + L.1)).
Proof.
  intros Hr. unfold valores_frontera.frontera, np.interp. cbn [fst snd].
  repeat split.
  - decide_R. reflexivity.
  - decide_R. reflexivity.
  - intros [H0 H1]. decide_R. reflexivity.
Qed.

Lemma frontera_en_las_capas_witness :
  1 < 2
  /\ valores_frontera.frontera 1 (1, 2) (3, 4) (5, 6) (7, 8) (9, 10)
     = mkFrontera 1 3 5 7 9
  /\ valores_frontera.frontera 2 (1, 2) (3, 4) (5, 6) (7, 8) (9, 10)
     = mkFrontera 2 4 6 8 10
  /\ (1 < 1.5 < 2 ->
      valores_frontera.frontera 1.5 (1, 2) (3, 4) (5, 6) (7, 8) (9, 10)
      = mkFrontera 1.5
          ((4 - 3) / (2 - 1) * (1.5 - 1) + 3)
          ((6 - 5) / (2 - 1) * (1.5 - 1) + 5)
          ((8 - 7) / (2 - 1) * (1.5 - 1) + 7)
          ((10 - 9) / (2 - 1) * (1.5 - 1) + 9)).
Proof.
  assert (H : 1 < 2) by lra. split; [exact H |].
  exact (frontera_en_las_capas 1.5 1 2 (3, 4) (5, 6) (7, 8) (9, 10) H).
Defined.

(** ** faseB.py: the centre, the end of the loop and a zero central
    temperature *)

(** A property that every pass of the loop of Phase B keeps holds when the
    loop ends, and a last pass has ended it. *)
Lemma bucle_capas_B_inv (fuel : nat) (rf h X Y k_prima mu : R)
    (I : faseB.Estado -> Prop) :
  (forall st st', I st ->
     faseB.paso fuel rf h X Y k_prima mu st = Ok (faseB.Acepta st') ->
     I st') ->
  forall n st st',
    I st -> faseB.bucle_capas fuel rf h X Y k_prima mu n st = Ok st' ->
    I st' /\ faseB.paso fuel rf h X Y k_prima mu st' = Ok (faseB.Sale st').
Proof.
  intros Hpaso n. induction n as [| n IH]; intros st st' Hst H; [done |].
  cbn [faseB.bucle_capas] in H. apply bind_Ok in H as (p & Hp & H).
  destruct p as [st1 | st1]; cbn in H.
  - apply (IH st1 st'); [| exact H]. by apply (Hpaso st).
  - injection H as <-. pose proof (paso_B_Ok _ _ _ _ _ _ _ _ _ Hp) as Hs.
    cbn in Hs. subst st1. done.
Qed.

(** What an accepting pass writes: the entries [i+1], and nothing else. *)
Lemma paso_B_marco (fuel : nat) (rf h X Y k_prima mu : R)
    (st st' : faseB.Estado) :
  faseB.paso fuel rf h X Y k_prima mu st = Ok (faseB.Acepta st') ->
  h * INR (faseB.i st + 1) <= rf + h
  /\ faseB.i st' = (faseB.i st + 1)%nat
  /\ forall j, j <> (faseB.i st + 1)%nat ->
       faseB.r st' !! j = faseB.r st !! j
       /\ faseB.P st' !! j = faseB.P st !! j
       /\ faseB.T st' !! j = faseB.T st !! j
       /\ faseB.M st' !! j = faseB.M st !! j
       /\ faseB.L st' !! j = faseB.L st !! j.
Proof.
  unfold faseB.paso. intros H. desmonta H.
  destruct (_ <? _) eqn:Hfin; [done |]. apply Rltb_false in Hfin.
  desmonta H. injection H as <-. cbn. escrituras.
  split; [exact Hfin |]. split; [reflexivity |].
  intros j Hj. by rewrite !list_lookup_insert_ne.
Qed.

Lemma paso_B_sale (fuel : nat) (rf h X Y k_prima mu : R)
    (st st' : faseB.Estado) :
  faseB.paso fuel rf h X Y k_prima mu st = Ok (faseB.Sale st') ->
  rf + h < h * INR (faseB.i st + 1).
Proof.
  unfold faseB.paso. intros H. desmonta H.
  destruct (_ <? _) eqn:Hfin; [by apply Rltb_true in Hfin |].
  desmonta H. done.
Qed.

(** What one of the three first layers writes. *)
Lemma semilla_B_marco (T_c h X Y k_prima mu : R) (st st' : faseB.Estado)
    (i : nat) (T_i T_i' : R) :
  faseB.semilla T_c h X Y k_prima mu st i T_i = Ok (st', T_i') ->
  exists P_i M_i L_i,
    faseB.P st' = <[i := P_i]> (faseB.P st)
    /\ faseB.T st' = <[i := T_i']> (faseB.T st)
    /\ faseB.M st' = <[i := M_i]> (faseB.M st)
    /\ faseB.L st' = <[i := L_i]> (faseB.L st)
    /\ (i < length (faseB.P st))%nat /\ (i < length (faseB.T st))%nat
    /\ (i < length (faseB.M st))%nat /\ (i < length (faseB.L st))%nat
    /\ (i = 0%nat ->
        T_i' = T_c /\ M_i = 0 /\ L_i = 0
        /\ exists t, T_c ^! 2.5 = Ok t /\ P_i = k_prima * t).
Proof.
  unfold faseB.semilla. intros H.
  apply bind_Ok in H as ([[C E1] nu] & _ & H). cbn beta iota in H.
  destruct (primera_derivada.fracciones C X Y) as [X1 X2].
  apply bind_Ok in H as (mu2 & _ & H). apply bind_Ok in H as (Tc15 & _ & H).
  apply bind_Ok in H as (r2 & Hr2 & H). apply bind_Ok in H as (T25 & HT25 & H).
  apply bind_Ok in H as (p10 & _ & H). apply bind_Ok in H as (mu2' & _ & H).
  apply bind_Ok in H as (k2 & _ & H). apply bind_Ok in H as (Tcn & _ & H).
  apply bind_Ok in H as (r3 & Hr3 & H). apply bind_Ok in H as (Tc15' & _ & H).
  apply bind_Ok in H as (r3' & Hr3' & H).
  apply bind_Ok in H as (r' & Hr' & H). apply bind_Ok in H as (P' & HP' & H).
  apply bind_Ok in H as (T' & HT' & H). apply bind_Ok in H as (M' & HM' & H).
  apply bind_Ok in H as (L' & HL' & H).
  rewrite pow_py_2 in Hr2. injection Hr2 as <-.
  rewrite pow_py_3 in Hr3, Hr3'. injection Hr3 as <-. injection Hr3' as <-.
  assert (Hst : exists dT' dM' dL',
            st' = faseB.mkEstado i r' P' T' M' L' dT' dM' dL'
                    (faseB.Ciclo_B st ++ [Nulo])
            /\ T_i' = T_c - 0.008207 * mu2 * k_prima * Tc15
                            * (h * INR i * (h * INR i))).
  { destruct (_ =? 0).
    - injection H as <- <-. by eexists _, _, _.
    - desmonta H. injection H as <- <-. by eexists _, _, _. }
  destruct Hst as (dT' & dM' & dL' & -> & HTi). cbn. escrituras.
  do 3 eexists. repeat split; try done; try (by rewrite HTi).
  - subst i. rewrite HTi. simpl. ring.
  - subst i. simpl. ring.
  - subst i. simpl. ring.
  - subst i. exists T25. split; [| reflexivity].
    rewrite <- HT25. f_equal. simpl. ring.
Qed.

(** X15.  Every run of Phase B that returns starts at the centre with the
    values of the centre: the layer 0 has the radius 0, the central
    temperature [T_c], the pressure [k_prima * T_c**2.5] of the polytrope,
    and no mass and no luminosity; and the three first layers carry the
    label ['--'], whatever cycle is computed for them. *)
Theorem conveccion_centro (fuel : nat) (T_c rf h X Y k_prima : R) :
  siempre (faseB.conveccion fuel T_c rf h X Y k_prima)
    (fun '(param, _, Ciclo_B) =>
       p_r param !! 0%nat = Some 0
       /\ p_T param !! 0%nat = Some T_c
       /\ p_M param !! 0%nat = Some 0
       /\ p_L param !! 0%nat = Some 0
       /\ (exists t, T_c ^! 2.5 = Ok t
                     /\ p_P param !! 0%nat = Some (k_prima * t))
       /\ take 3 Ciclo_B = [Nulo; Nulo; Nulo]).
Proof.
  apply siempre_Ok. intros [[param F] C] H.
  unfold faseB.conveccion, faseB.capas in H.
  apply bind_Ok in H as (st & Hst & H).
  apply bind_Ok in H as (F' & _ & H). injection H as <- _ <-. cbn.
  apply bind_Ok in Hst as (mu & _ & Hst).
  apply bind_Ok in Hst as (st2 & Hs & Hst).
  set (I := fun s : faseB.Estado =>
         faseB.r s !! 0%nat = Some 0
         /\ faseB.T s !! 0%nat = Some T_c
         /\ faseB.M s !! 0%nat = Some 0
         /\ faseB.L s !! 0%nat = Some 0
         /\ (exists t, T_c ^! 2.5 = Ok t
                       /\ faseB.P s !! 0%nat = Some (k_prima * t))
         /\ take 3 (faseB.Ciclo_B s) = [Nulo; Nulo; Nulo]).
  assert (H2 : I st2).
  { unfold faseB.semillas in Hs.
    apply bind_Ok in Hs as ([s0 T0] & H0 & Hs). cbn beta iota in Hs.
    apply bind_Ok in Hs as ([s1 T1] & H1 & Hs). cbn beta iota in Hs.
    apply bind_Ok in Hs as ([s2 T2] & H2 & Hs). cbn beta iota in Hs.
    injection Hs as <-.
    pose proof (semilla_B_marco _ _ _ _ _ _ _ _ _ _ _ H0)
      as (P0 & M0 & L0 & EP0 & ET0 & EM0 & EL0 & lP0 & lT0 & lM0 & lL0 & Hc).
    pose proof (semilla_B_marco _ _ _ _ _ _ _ _ _ _ _ H1)
      as (P1 & M1 & L1 & EP1 & ET1 & EM1 & EL1 & _).
    pose proof (semilla_B_marco _ _ _ _ _ _ _ _ _ _ _ H2)
      as (P2 & M2 & L2 & EP2 & ET2 & EM2 & EL2 & _).
    destruct (Hc eq_refl) as (-> & -> & -> & t & Ht & ->).
    apply semilla_B_Ok in H0 as (_ & lr0 & Er0 & EC0).
    apply semilla_B_Ok in H1 as (_ & _ & Er1 & EC1).
    apply semilla_B_Ok in H2 as (_ & _ & Er2 & EC2).
    unfold I. rewrite Er2, Er1, Er0, EP2, EP1, EP0, ET2, ET1, ET0,
      EM2, EM1, EM0, EL2, EL1, EL0, EC2, EC1, EC0.
    rewrite !list_lookup_insert_ne by lia.
    rewrite !list_lookup_insert_eq by done.
    repeat split; try done.
    - f_equal. simpl. ring.
    - by exists t. }
  refine (proj1 (bucle_capas_B_inv _ _ _ _ _ _ _ I _ _ _ _ H2 Hst)).
  intros s s' (Hr & HT & HM & HL & (t & Ht & HP) & HC) Hp.
  pose proof (paso_B_Ok _ _ _ _ _ _ _ _ _ Hp) as (_ & _ & _ & c & EC).
  apply paso_B_marco in Hp as (_ & _ & Hm).
  unfold I.
  destruct (Hm 0%nat ltac:(lia)) as (-> & -> & -> & -> & ->).
  rewrite EC. repeat split; try done.
  - by exists t.
  - rewrite take_app_le; [done |].
    apply (f_equal length) in HC. rewrite length_take in HC.
    change (length [Nulo; Nulo; Nulo]) with 3%nat in HC. lia.
Qed.

(** X16.  When a run of Phase B returns, the boundary lies below its last
    layer, and, when a layer was accepted after the three first ones, not
    below the layer before the last: with [n] the index of the last layer,
    [rf < h*n], and [h*(n-1) <= rf] when [n > 2].  The values at the
    boundary are then interpolated between these two layers. *)
Theorem conveccion_frontera_entre_capas
    (fuel : nat) (T_c rf h X Y k_prima : R) :
  siempre (faseB.conveccion fuel T_c rf h X Y k_prima)
    (fun '(param, F, Ciclo_B) =>
       exists n,
         length Ciclo_B = (n + 1)%nat /\ (2 <= n)%nat
         /\ p_r param !! (n - 1)%nat = Some (h * INR (n - 1))
         /\ p_r param !! n = Some (h * INR n)
         /\ rf < h * INR n
         /\ ((2 < n)%nat -> h * INR (n - 1) <= rf)
         /\ rf_F F = rf).
Proof.
  apply siempre_Ok. intros [[param F] C] H.
  unfold faseB.conveccion, faseB.capas in H.
  apply bind_Ok in H as (st & Hst & H).
  apply bind_Ok in H as (F' & HF & H). injection H as <- <- <-. cbn.
  apply bind_Ok in Hst as (mu & _ & Hst).
  apply bind_Ok in Hst as (st2 & Hs & Hst).
  pose proof (semillas_B_radios _ _ _ _ _ _ _ Hs) as Hrad.
  pose proof (bucle_capas_B_radios _ _ _ _ _ _ _ _ _ _ Hrad Hst) as [HC Hr].
  assert (Hi2 : faseB.i st2 = 2%nat).
  { unfold faseB.semillas in Hs.
    apply bind_Ok in Hs as ([s0 T0] & _ & Hs). cbn beta iota in Hs.
    apply bind_Ok in Hs as ([s1 T1] & _ & Hs). cbn beta iota in Hs.
    apply bind_Ok in Hs as ([s2 T2] & H2 & Hs). cbn beta iota in Hs.
    injection Hs as <-. by apply semilla_B_Ok in H2 as (? & _). }
  set (I := fun s : faseB.Estado =>
         (2 <= faseB.i s)%nat
         /\ ((2 < faseB.i s)%nat -> h * INR (faseB.i s) <= rf + h)).
  assert (HI : I st2) by (unfold I; rewrite Hi2; split; lia).
  assert (Hpaso : forall s s', I s ->
            faseB.paso fuel rf h X Y k_prima mu s = Ok (faseB.Acepta s') ->
            I s').
  { intros s s' [Hs2 _] Hp. apply paso_B_marco in Hp as (Hle & Hi' & _).
    unfold I. rewrite Hi'. split; [lia | by intros _]. }
  destruct (bucle_capas_B_inv fuel rf h X Y k_prima mu I Hpaso fuel st2 st
              HI Hst) as [[Hge Hle] Hsale].
  apply paso_B_sale in Hsale.
  exists (faseB.i st). rewrite plus_INR in Hsale. simpl in Hsale.
  split; [exact HC |]. split; [exact Hge |].
  split; [apply Hr; lia |]. split; [apply Hr; lia |].
  split; [lra |]. split.
  - intros Hn. specialize (Hle Hn). rewrite minus_INR by lia. simpl. lra.
  - unfold faseB.frontera_B in HF. desmonta HF. by injection HF as <-.
Qed.

Lemma pow_py_0_pos (y : R) : 0 < y -> 0 ^! y = Ok 0.
Proof.
  intros Hy. unfold pow_py.
  destruct (Req_dec_T y 0); [lra |].
  destruct (Rlt_dec 0 0); [lra |].
  destruct (Req_dec_T 0 0); [| lra].
  destruct (Rlt_dec y 0); [lra | reflexivity].
Qed.

(** One of the three first layers for the central temperature 0: the
    layer has the temperature 0, and away from the centre its derivatives
    divide by it. *)
Lemma semilla_fria (h X Y k_prima mu : R) (st : faseB.Estado) (i : nat) :
  (i < length (faseB.r st))%nat -> (i < length (faseB.P st))%nat ->
  (i < length (faseB.T st))%nat -> (i < length (faseB.M st))%nat ->
  (i < length (faseB.L st))%nat ->
  (h * INR i = 0 ->
   exists st',
     faseB.semilla 0 h X Y k_prima mu st i 0 = Ok (st', 0)
     /\ length (faseB.r st') = length (faseB.r st)
     /\ length (faseB.P st') = length (faseB.P st)
     /\ length (faseB.T st') = length (faseB.T st)
     /\ length (faseB.M st') = length (faseB.M st)
     /\ length (faseB.L st') = length (faseB.L st))
  /\ (h * INR i <> 0 ->
      faseB.semilla 0 h X Y k_prima mu st i 0 = Err ZeroDivisionError).
Proof.
  intros Hr HP HT HM HL. unfold faseB.semilla.
  rewrite ciclo_fuera by lra. mon. cbn [primera_derivada.fracciones].
  rewrite !pow_py_2, (pow_py_0_pos 1.5) by lra. mon.
  replace (0 - 0.008207 * (mu * mu) * k_prima * 0 * (h * INR i * (h * INR i)))
    with 0 by ring.
  rewrite (pow_py_0_pos 2.5), pow_py_0_r by lra. mon.
  rewrite (pow_py_0_pos (3 + 0)) by lra. mon.
  rewrite !pow_py_3. mon.
  unfold np.escribir. rewrite !decide_True by done. mon.
  split; intros Hri.
  - replace (h * INR i =? 0) with true by (symmetry; by apply Reqb_true).
    eexists. split; [reflexivity |]. cbn. by rewrite !length_insert.
  - replace (h * INR i =? 0) with false by (symmetry; by apply Reqb_false).
    unfold derydif.derivadas, primera_derivada.presion.
    by rewrite div_py_0.
Qed.

(** The layers of a run of Phase B for the central temperature 0. *)
Lemma capas_frias (fuel : nat) (rf h X Y k_prima : R) :
  h <> 0 ->
  faseB.capas fuel 0 rf h X Y k_prima = Err ZeroDivisionError.
Proof.
  intros Hh. unfold faseB.capas, peso_molecular.
  destruct (div_py_casos 1 (2 * X + 3 / 4 * Y + 1 / 2 * (1 - X - Y)))
    as [[mu ->] | ->]; [| reflexivity]. mon.
  unfold faseB.semillas.
  destruct (semilla_fria h X Y k_prima mu faseB.inicial 0)
    as [H0 _]; try (cbn; lia).
  destruct H0 as (st0 & -> & lr & lP & lT & lM & lL); [simpl; ring |]. mon.
  destruct (semilla_fria h X Y k_prima mu st0 1) as [_ H1].
  - rewrite lr. cbn. lia.
  - rewrite lP. cbn. lia.
  - rewrite lT. cbn. lia.
  - rewrite lM. cbn. lia.
  - rewrite lL. cbn. lia.
  - rewrite H1; [reflexivity |]. simpl. lra.
Qed.

(** In exact arithmetic [star] returns no value: the fit of the central
    temperature, when it returns, hands the central temperature 0 to the
    last run of Phase B. *)
Lemma star_sin_valor (fuel : nat) (M_tot X Y R_tot L_tot T_c num_capas : R)
    (out : estrella.Agrupado * R * R) :
  estrella.star fuel M_tot X Y R_tot L_tot T_c num_capas <> Ok out.
Proof.
  unfold estrella.star. intros H.
  apply bind_Ok in H as ([[[[mu R_ini] h] A1] A2] & Hc & H).
  cbn beta iota in H.
  apply bind_Ok in H as (st0 & H0 & H). apply bind_Ok in H as (a & Ha & H).
  apply bind_Ok in H as (rf & Hrf & H). apply bind_Ok in H as (FA & HFA & H).
  apply bind_Ok in H as ([minimo T_c_def] & Haj & H). cbn beta iota in H.
  apply bind_Ok in H as ([[param FB] CB] & HB & _).
  pose proof (ajuste_hueco fuel
                (fun T => faseB.conveccion fuel T rf (- h) X Y
                            (estrella.k_prima a)) FA T_c) as Hh.
  rewrite Haj in Hh. cbn in Hh. injection Hh as -> ->.
  assert (HR : R_tot <> 0).
  { unfold estrella.fase_0 in H0. destruct fuel as [| n]; [done |].
    cbn [estrella.bucle_0] in H0. apply bind_Ok in H0 as (p & Hp & _).
    unfold estrella.paso_0 in Hp. apply bind_Ok in Hp as (x & _ & Hp).
    apply bind_Ok in Hp as (y & Hy & _). by apply div_py_inv in Hy as [? _]. }
  apply constantes_Ok in Hc as (Hn & _ & _ & -> & _).
  unfold faseB.conveccion in HB. rewrite capas_frias in HB; [done |].
  assert (0.9 * R_tot / num_capas <> 0).
  { unfold Rdiv. apply Rmult_integral_contrapositive_currified; [lra |].
    by apply Rinv_neq_0_compat. }
  lra.
Qed.

(** ** estrella.py: the number of layers of Phase 0 *)

(** With the constants of [star], the layer [j] of Phase 0 is not beyond
    the total radius exactly when [9*(j+1) <= num_capas]. *)
Lemma radio_0_capas (R_tot num_capas : R) (j : nat) :
  0 < R_tot -> 0 < num_capas ->
  let r := radio_0 (0.9 * R_tot) (- (0.9 * R_tot) / num_capas) j in
  0 < r
  /\ (9 * INR (j + 1) <= num_capas -> r <= R_tot)
  /\ (num_capas < 9 * INR (j + 1) -> R_tot < r).
Proof.
  intros HR Hn. cbn zeta. unfold radio_0.
  assert (Hj : 0 < INR (j + 1)) by (apply lt_0_INR; lia).
  set (q := INR (j + 1) / num_capas).
  assert (Hq : 0 < q) by (by apply Rdiv_lt_0_compat).
  replace (0.9 * R_tot - - (0.9 * R_tot) / num_capas * INR (j + 1))
    with (R_tot * (0.9 + 0.9 * q)) by (unfold q; field; lra).
  assert (Hqn : q * num_capas = INR (j + 1)) by (unfold q; field; lra).
  split; [nra |]. split; intros H.
  - assert (9 * q <= 1) by nra. nra.
  - assert (1 < 9 * q) by nra. nra.
Qed.

(** The loop of Phase 0 goes through the layers that are not beyond the
    total radius. *)
Lemma bucle_0_acepta (M_tot R_tot L_tot R_ini h A1 A2 : R) (m n j0 : nat) :
  R_tot <> 0 ->
  (forall j, (j0 <= j < j0 + m)%nat ->
     (j < 50)%nat /\ radio_0 R_ini h j <> 0 /\ radio_0 R_ini h j <= R_tot) ->
  estrella.bucle_0 M_tot R_tot L_tot R_ini h A1 A2 (m + n)
    (capas_0 M_tot R_tot L_tot R_ini h A1 A2 j0)
  = estrella.bucle_0 M_tot R_tot L_tot R_ini h A1 A2 n
      (capas_0 M_tot R_tot L_tot R_ini h A1 A2 (j0 + m)).
Proof.
  intros HR. revert j0. induction m as [| m IH]; intros j0 H.
  - by rewrite Nat.add_0_r.
  - cbn [Nat.add estrella.bucle_0].
    destruct (H j0) as (H50 & Hr & Hle); [lia |].
    rewrite paso_0_acepta by done. mon.
    rewrite IH by (intros j Hj; apply H; lia).
    f_equal. f_equal. lia.
Qed.

(** The number of layers of Phase 0 in exact arithmetic: with the constants
    that [star] computes from a positive total radius and a positive number
    of layers, and [k] the natural number with
    [9*k <= num_capas < 9*(k+1)], not above the 50 entries of the buffers,
    the loop accepts the layers 0 to [k-1] and ends. *)
Lemma fase_0_piso (M_tot R_tot L_tot num_capas A1 A2 : R) (k fuel : nat) :
  0 < R_tot -> 0 < num_capas ->
  9 * INR k <= num_capas < 9 * INR (k + 1) ->
  (k <= 50)%nat -> (k < fuel)%nat ->
  let R_ini := 0.9 * R_tot in
  let h := - R_ini / num_capas in
  estrella.fase_0 fuel M_tot R_tot L_tot R_ini h A1 A2
  = Ok (capas_0 M_tot R_tot L_tot R_ini h A1 A2 k).
Proof.
  intros HR Hn [Hlo Hhi] Hk Hfuel. cbn zeta.
  replace fuel with (k + 1 + (fuel - k - 1))%nat by lia.
  apply fase_0_cerrado; [lia | lra | | |].
  - intros j Hj.
    destruct (radio_0_capas R_tot num_capas j HR Hn) as (Hpos & Hle & _).
    split; [lra |]. apply Hle.
    assert (INR (j + 1) <= INR k) by (apply le_INR; lia). lra.
  - destruct (radio_0_capas R_tot num_capas k HR Hn) as (Hpos & _). lra.
  - destruct (radio_0_capas R_tot num_capas k HR Hn) as (_ & _ & Hgt).
    by apply Hgt.
Qed.

(** For a whole number [n] of layers, the layer [j] of Phase 0 is away from
    the total radius by [0.1 * R_tot / n] at least, unless [9*(j+1) = n]. *)
Lemma radio_0_margen (R_tot : R) (n j : nat) :
  0 < R_tot -> (0 < n)%nat ->
  let r := radio_0 (0.9 * R_tot) (- (0.9 * R_tot) / INR n) j in
  ((9 * (j + 1) < n)%nat -> r <= R_tot - 0.1 * R_tot / INR n)
  /\ ((n < 9 * (j + 1))%nat -> R_tot + 0.1 * R_tot / INR n <= r).
Proof.
  intros HR Hn. cbn zeta. unfold radio_0.
  assert (Hn' : 0 < INR n) by (apply lt_0_INR; lia).
  set (q := INR (j + 1) / INR n).
  replace (0.9 * R_tot - - (0.9 * R_tot) / INR n * INR (j + 1))
    with (R_tot * (0.9 + 0.9 * q)) by (unfold q; field; lra).
  set (e := 1 / INR n).
  replace (0.1 * R_tot / INR n) with (R_tot * (0.1 * e))
    by (unfold e; field; lra).
  assert (He : e * INR n = 1) by (unfold e; field; lra).
  assert (Hq : q * INR n = INR (j + 1)) by (unfold q; field; lra).
  split; intros H.
  - assert (H' : 9 * INR (j + 1) + 1 <= INR n).
    { apply le_INR in H. rewrite S_INR, mult_INR in H. simpl in H. lra. }
    assert (9 * q + e <= 1) by nra. nra.
  - assert (H' : INR n + 1 <= 9 * INR (j + 1)).
    { apply le_INR in H. rewrite S_INR, mult_INR in H. simpl in H. lra. }
    assert (1 + e <= 9 * q) by nra. nra.
Qed.

(** X17.  Phase 0 has [floor(n / 9)] layers when the number [n] of layers
    is a whole number that is not a multiple of 9: with the constants that
    [star] computes from a positive total radius, and [k] the natural number
    with [9*k < n < 9*(k+1)], not above the 50 entries of the buffers, the
    loop accepts the layers 0 to [k-1] and ends.  The layer [j] lies at the
    radius [R_ini - h*(j+1)], with the temperature [A1*(1/r - 1/R_tot)],
    the pressure [A2 * T**4.25], the total mass, the total luminosity and
    the label ['--'].  The radii of the accepted layers are below the total
    radius and the radius of the layer that ends the loop is above it, by
    [0.1 * R_tot / n] at least. *)
Theorem fase_0_capas (M_tot R_tot L_tot A1 A2 : R) (n k fuel : nat) :
  0 < R_tot -> (9 * k < n < 9 * (k + 1))%nat ->
  (k <= 50)%nat -> (k < fuel)%nat ->
  let R_ini := 0.9 * R_tot in
  let h := - R_ini / INR n in
  estrella.fase_0 fuel M_tot R_tot L_tot R_ini h A1 A2
  = Ok (capas_0 M_tot R_tot L_tot R_ini h A1 A2 k)
  /\ (forall j, (j < k)%nat ->
        radio_0 R_ini h j <= R_tot - 0.1 * R_tot / INR n)
  /\ R_tot + 0.1 * R_tot / INR n <= radio_0 R_ini h k.
Proof.
  intros HR [Hlo Hhi] Hk Hfuel. cbn zeta.
  assert (Hn : 0 < INR n) by (apply lt_0_INR; lia).
  split; [| split].
  - apply fase_0_piso; try done. split.
    + apply lt_INR in Hlo. rewrite mult_INR in Hlo. simpl in Hlo. lra.
    + apply lt_INR in Hhi. rewrite mult_INR in Hhi. simpl in Hhi. lra.
  - intros j Hj.
    destruct (radio_0_margen R_tot n j HR) as [Hle _]; [lia |].
    apply Hle. lia.
  - destruct (radio_0_margen R_tot n k HR) as [_ Hge]; [lia |].
    apply Hge. lia.
Qed.

Lemma fase_0_capas_witness :
  0 < 11.5 /\ (9 * 11 < 100 < 9 * (11 + 1))%nat
  /\ (11 <= 50)%nat /\ (11 < 100)%nat
  /\ let R_ini := 0.9 * 11.5 in
     let h := - R_ini / INR 100 in
     estrella.fase_0 100 5.0 11.5 70.0 R_ini h 1 1
     = Ok (capas_0 5.0 11.5 70.0 R_ini h 1 1 11)
     /\ (forall j, (j < 11)%nat ->
           radio_0 R_ini h j <= 11.5 - 0.1 * 11.5 / INR 100)
     /\ 11.5 + 0.1 * 11.5 / INR 100 <= radio_0 R_ini h 11.
Proof.
  assert (H1 : 0 < 11.5) by lra.
  assert (H2 : (9 * 11 < 100 < 9 * (11 + 1))%nat) by lia.
  assert (H3 : (11 <= 50)%nat) by lia. assert (H4 : (11 < 100)%nat) by lia.
  split; [exact H1 |]. split; [exact H2 |]. split; [exact H3 |].
  split; [exact H4 |].
  exact (fase_0_capas 5.0 11.5 70.0 1 1 100 11 100 H1 H2 H3 H4).
Defined.

(** In exact arithmetic, with 459 layers or more the layer 50 of Phase 0
    is still not beyond the total radius, and Phase 0 ends in [IndexError]
    when it stores it. *)
Lemma fase_0_lleno (M_tot R_tot L_tot num_capas A1 A2 : R) (fuel : nat) :
  0 < R_tot -> 459 <= num_capas -> (50 < fuel)%nat ->
  estrella.fase_0 fuel M_tot R_tot L_tot
    (0.9 * R_tot) (- (0.9 * R_tot) / num_capas) A1 A2
  = Err IndexError.
Proof.
  intros HR Hn Hfuel. unfold estrella.fase_0.
  change estrella.inicial0
    with (capas_0 M_tot R_tot L_tot (0.9 * R_tot)
            (- (0.9 * R_tot) / num_capas) A1 A2 0).
  replace fuel with (50 + S (fuel - 51))%nat by lia.
  assert (Hdentro : forall j, (j <= 50)%nat ->
            radio_0 (0.9 * R_tot) (- (0.9 * R_tot) / num_capas) j <> 0
            /\ radio_0 (0.9 * R_tot) (- (0.9 * R_tot) / num_capas) j
               <= R_tot).
  { intros j Hj.
    destruct (radio_0_capas R_tot num_capas j HR ltac:(lra)) as (Hpos & Hle & _).
    split; [lra |]. apply Hle.
    assert (H51 : INR (j + 1) <= INR 51) by (apply le_INR; lia).
    simpl in H51. lra. }
  rewrite bucle_0_acepta; [| lra |].
  2:{ intros j Hj. destruct (Hdentro j) as [? ?]; [lia |].
      split; [lia | done]. }
  cbn [Nat.add estrella.bucle_0]. destruct (Hdentro 50%nat) as [Hr Hle]; [lia |].
  unfold estrella.paso_0, capas_0.
  cbn [estrella.i0 estrella.r_0 estrella.P_0 estrella.T_0 estrella.M_0
       estrella.L_0 estrella.Ciclo_0].
  fold (radio_0 (0.9 * R_tot) (- (0.9 * R_tot) / num_capas) 50).
  rewrite !div_py_Ok by lra. mon.
  destruct (_ <=? 0) eqn:HT.
  - mon. decide_R. unfold np.escribir.
    rewrite decide_False; [reflexivity |].
    rewrite length_app, ?length_map, ?length_seq, !length_replicate. lia.
  - apply Rleb_false in HT. rewrite pow_py_pos by lra. mon. decide_R.
    unfold np.escribir.
    rewrite decide_False; [reflexivity |].
    rewrite length_app, ?length_map, ?length_seq, !length_replicate. lia.
Qed.

(** X18.  The buffers of Phase 0 have 50 entries and the loop does not
    check it: for a whole number of layers above 459, the layers 0 to 50
    are below the total radius (by [0.1 * R_tot / n] at least), and Phase 0
    ends in [IndexError] when it stores the layer 50. *)
Theorem fase_0_desborda (M_tot R_tot L_tot A1 A2 : R) (n fuel : nat) :
  0 < R_tot -> (459 < n)%nat -> (50 < fuel)%nat ->
  estrella.fase_0 fuel M_tot R_tot L_tot
    (0.9 * R_tot) (- (0.9 * R_tot) / INR n) A1 A2
  = Err IndexError
  /\ forall j, (j <= 50)%nat ->
       radio_0 (0.9 * R_tot) (- (0.9 * R_tot) / INR n) j
       <= R_tot - 0.1 * R_tot / INR n.
Proof.
  intros HR Hn Hfuel. split.
  - apply fase_0_lleno; try done.
    apply lt_INR in Hn. rewrite (INR_IZR_INZ 459) in Hn.
    change (Z.of_nat 459) with 459%Z in Hn. lra.
  - intros j Hj.
    destruct (radio_0_margen R_tot n j HR) as [Hle _]; [lia |].
    apply Hle. lia.
Qed.

Lemma fase_0_desborda_witness :
  0 < 11.5 /\ (459 < 500)%nat /\ (50 < 100)%nat
  /\ estrella.fase_0 100 5.0 11.5 70.0
       (0.9 * 11.5) (- (0.9 * 11.5) / INR 500) 1 1
     = Err IndexError
  /\ forall j, (j <= 50)%nat ->
       radio_0 (0.9 * 11.5) (- (0.9 * 11.5) / INR 500) j
       <= 11.5 - 0.1 * 11.5 / INR 500.
Proof.
  assert (H1 : 0 < 11.5) by lra. assert (H2 : (459 < 500)%nat) by lia.
  assert (H3 : (50 < 100)%nat) by lia.
  split; [exact H1 |]. split; [exact H2 |]. split; [exact H3 |].
  exact (fase_0_desborda 5.0 11.5 70.0 1 1 500 100 H1 H2 H3).
Defined.

(** ** estrella.py: the envelope with constant mass and luminosity *)

Lemma aceptar_ML (st st' : estrella.EstadoA) (r P T M L dP dT dM : R)
    (dL : option R) (c : Ciclo) :
  estrella.aceptar st r P T M L dP dT dM dL c = Ok st' ->
  estrella.i st' = (estrella.i st + 1)%nat
  /\ (estrella.i st + 1 < length (estrella.M_A st))%nat
  /\ (estrella.i st + 1 < length (estrella.L_A st))%nat
  /\ estrella.M_A st' = <[(estrella.i st + 1)%nat := M]> (estrella.M_A st)
  /\ estrella.L_A st' = <[(estrella.i st + 1)%nat := L]> (estrella.L_A st)
  /\ estrella.Ciclo_A st' = estrella.Ciclo_A st ++ [c].
Proof.
  unfold estrella.aceptar. intros H. desmonta H.
  injection H as <-. cbn. escrituras. done.
Qed.

Lemma semilla_A_ML (M_tot X Y R_tot L_tot mu R_ini h A1 A2 : R)
    (st st' : estrella.EstadoA) (i : nat) :
  estrella.semilla_A M_tot X Y R_tot L_tot mu R_ini h A1 A2 st i = Ok st' ->
  (i < length (estrella.M_A st))%nat /\ (i < length (estrella.L_A st))%nat
  /\ estrella.M_A st' = <[i := M_tot]> (estrella.M_A st)
  /\ estrella.L_A st' = <[i := L_tot]> (estrella.L_A st).
Proof.
  unfold estrella.semilla_A. intros H. desmonta H.
  injection H as <-. cbn. escrituras. done.
Qed.

(** Phase A.1.1 accepts a layer with the total mass, the total luminosity
    and the label ['--']. *)
Lemma paso_11_ML (fuel : nat) (M_tot X Y L_tot mu R_ini h : R)
    (st st' : estrella.EstadoA) :
  estrella.paso_11 fuel M_tot X Y L_tot mu R_ini h st
  = Ok (estrella.Acepta st') ->
  exists r P T dP dT dM,
    estrella.aceptar st r P T M_tot L_tot dP dT dM None Nulo = Ok st'.
Proof.
  unfold estrella.paso_11. intros H. desmonta H.
  destruct (E_rel_max <? Rabs _); [done |].
  desmonta H. injection H as <-. eauto 8.
Qed.

(** Phase A.1.2 accepts a layer with the total luminosity and the label
    ['--']. *)
Lemma paso_12_ML (fuel : nat) (X Y L_tot mu R_ini h : R)
    (st st' : estrella.EstadoA) :
  estrella.paso_12 fuel X Y L_tot mu R_ini h st = Ok (estrella.Acepta st') ->
  exists r P T M dP dT dM dL,
    estrella.aceptar st r P T M L_tot dP dT dM (Some dL) Nulo = Ok st'.
Proof.
  unfold estrella.paso_12. intros H. desmonta H.
  destruct (E_rel_max <? Rabs _); [done |].
  desmonta H. injection H as <-. eauto 10.
Qed.

Lemma luminosidad_constante_aceptar (L_tot : R) (st st' : estrella.EstadoA)
    (r P T M dP dT dM : R) (dL : option R) (c : Ciclo) :
  luminosidad_constante L_tot st ->
  estrella.aceptar st r P T M L_tot dP dT dM dL c = Ok st' ->
  luminosidad_constante L_tot st'.
Proof.
  intros Hinv H. apply aceptar_ML in H as (Hi & _ & Hl & _ & EL & _).
  intros j Hj. rewrite Hi in Hj. rewrite EL.
  destruct (decide (j = estrella.i st + 1)%nat) as [-> | Hne].
  - by rewrite list_lookup_insert_eq.
  - rewrite list_lookup_insert_ne by lia. apply Hinv. lia.
Qed.

Lemma masa_constante_aceptar (M_tot : R) (st st' : estrella.EstadoA)
    (r P T L dP dT dM : R) (dL : option R) (c : Ciclo) :
  masa_constante M_tot st ->
  estrella.aceptar st r P T M_tot L dP dT dM dL c = Ok st' ->
  masa_constante M_tot st'.
Proof.
  intros Hinv H. apply aceptar_ML in H as (Hi & Hl & _ & EM & _ & _).
  intros j Hj. rewrite Hi in Hj. rewrite EM.
  destruct (decide (j = estrella.i st + 1)%nat) as [-> | Hne].
  - by rewrite list_lookup_insert_eq.
  - rewrite list_lookup_insert_ne by lia. apply Hinv. lia.
Qed.

Lemma sin_ciclo_aceptar (st st' : estrella.EstadoA)
    (r P T M L dP dT dM : R) (dL : option R) :
  sin_ciclo st ->
  estrella.aceptar st r P T M L dP dT dM dL Nulo = Ok st' ->
  sin_ciclo st'.
Proof.
  unfold sin_ciclo. intros Hinv H.
  apply aceptar_ML in H as (Hi & _ & _ & _ & _ & EC).
  rewrite Hi, EC, Hinv. replace (estrella.i st + 1 + 1)%nat
    with (S (estrella.i st + 1)) by lia.
  by rewrite replicate_S_end.
Qed.

Lemma semillas_A_ML (M_tot X Y R_tot L_tot mu R_ini h A1 A2 : R)
    (st : estrella.EstadoA) :
  estrella.semillas_A M_tot X Y R_tot L_tot mu R_ini h A1 A2 = Ok st ->
  masa_constante M_tot st /\ luminosidad_constante L_tot st /\ sin_ciclo st.
Proof.
  intros H. pose proof (semillas_A_radios _ _ _ _ _ _ _ _ _ _ _ H) as [I2 _].
  unfold estrella.semillas_A in H.
  apply bind_Ok in H as (st0 & H0 & H). apply bind_Ok in H as (st1 & H1 & H).
  pose proof (semilla_A_ML _ _ _ _ _ _ _ _ _ _ _ _ _ H0)
    as (lM0 & lL0 & EM0 & EL0).
  pose proof (semilla_A_ML _ _ _ _ _ _ _ _ _ _ _ _ _ H1)
    as (lM1 & lL1 & EM1 & EL1).
  pose proof (semilla_A_ML _ _ _ _ _ _ _ _ _ _ _ _ _ H)
    as (lM2 & lL2 & EM2 & EL2).
  apply semilla_A_Ok in H0 as (_ & _ & _ & C0).
  apply semilla_A_Ok in H1 as (_ & _ & _ & C1).
  apply semilla_A_Ok in H as (_ & _ & _ & C2).
  rewrite EM1, EM0, !length_insert in lM2. rewrite EM0, length_insert in lM1.
  rewrite EL1, EL0, !length_insert in lL2. rewrite EL0, length_insert in lL1.
  unfold masa_constante, luminosidad_constante, sin_ciclo.
  rewrite I2, EM2, EM1, EM0, EL2, EL1, EL0, C2, C1, C0.
  split; [| split; [| reflexivity]].
  - intros j Hj. destruct j as [| [| [| j]]]; [| | | lia].
    + rewrite !list_lookup_insert_ne by lia. by rewrite list_lookup_insert_eq.
    + rewrite list_lookup_insert_ne by lia.
      rewrite list_lookup_insert_eq; [done |]. by rewrite length_insert.
    + rewrite list_lookup_insert_eq; [done |]. by rewrite !length_insert.
  - intros j Hj. destruct j as [| [| [| j]]]; [| | | lia].
    + rewrite !list_lookup_insert_ne by lia. by rewrite list_lookup_insert_eq.
    + rewrite list_lookup_insert_ne by lia.
      rewrite list_lookup_insert_eq; [done |]. by rewrite length_insert.
    + rewrite list_lookup_insert_eq; [done |]. by rewrite !length_insert.
Qed.

(** X19.  In the envelope the hypotheses of the phases are what the
    buffers hold.  When Phase A.1.1 ends, every layer from the three first
    ones on has the total mass and the total luminosity.  When Phase A.1.2
    ends, the layers of Phase A.1.1 still have the total mass, every layer
    has the total luminosity, and every layer carries the label ['--']:
    the cycle that Phase A.1.2 computes for its layers is not stored. *)
Theorem envoltura_constante
    (fuel : nat) (M_tot X Y R_tot L_tot mu R_ini h A1 A2 : R) :
  siempre (estrella.semillas_A M_tot X Y R_tot L_tot mu R_ini h A1 A2)
    (fun st =>
       siempre (estrella.fase_A11 fuel M_tot X Y L_tot mu R_ini h st)
         (fun st1 =>
            masa_constante M_tot st1
            /\ luminosidad_constante L_tot st1
            /\ sin_ciclo st1
            /\ siempre (estrella.fase_A12 fuel X Y L_tot mu R_ini h st1)
                 (fun st2 =>
                    (estrella.i st1 <= estrella.i st2)%nat
                    /\ (forall j, (j <= estrella.i st1)%nat ->
                          estrella.M_A st2 !! j = Some M_tot)
                    /\ luminosidad_constante L_tot st2
                    /\ sin_ciclo st2))).
Proof.
  apply siempre_Ok. intros st Hs. apply semillas_A_ML in Hs as (HM & HL & HC).
  apply siempre_Ok. intros st1 H1. unfold estrella.fase_A11 in H1.
  assert (Hinv1 : masa_constante M_tot st1 /\ luminosidad_constante L_tot st1
                  /\ sin_ciclo st1).
  { refine (bucle_capas_inv
              (fun s => masa_constante M_tot s /\ luminosidad_constante L_tot s
                        /\ sin_ciclo s) _ _ _ _ _ (conj HM (conj HL HC)) H1).
    intros s p (IM & IL & IC) Hp.
    pose proof (paso_11_Ok _ _ _ _ _ _ _ _ _ _ Hp) as Hcorr.
    destruct p as [s' | s']; cbn in Hcorr; [| by subst].
    apply paso_11_ML in Hp as (r & P & T & dP & dT & dM & Hac).
    split; [exact (masa_constante_aceptar _ _ _ _ _ _ _ _ _ _ _ _ IM Hac) |].
    split; [exact (luminosidad_constante_aceptar _ _ _ _ _ _ _ _ _ _ _ _ IL Hac) |].
    exact (sin_ciclo_aceptar _ _ _ _ _ _ _ _ _ _ _ IC Hac). }
  destruct Hinv1 as (HM1 & HL1 & HC1).
  split; [exact HM1 |]. split; [exact HL1 |]. split; [exact HC1 |].
  apply siempre_Ok. intros st2 H2. unfold estrella.fase_A12 in H2.
  refine (bucle_capas_inv
            (fun s => (estrella.i st1 <= estrella.i s)%nat
                      /\ (forall j, (j <= estrella.i st1)%nat ->
                            estrella.M_A s !! j = Some M_tot)
                      /\ luminosidad_constante L_tot s /\ sin_ciclo s)
            _ _ _ _ _ _ H2).
  - intros s p (Ii & IM & IL & IC) Hp.
    pose proof (paso_12_Ok _ _ _ _ _ _ _ _ _ Hp) as Hcorr.
    destruct p as [s' | s']; cbn in Hcorr; [| by subst].
    apply paso_12_ML in Hp as (r & P & T & M & dP & dT & dM & dL & Hac).
    pose proof (aceptar_ML _ _ _ _ _ _ _ _ _ _ _ _ Hac)
      as (Hi' & _ & _ & EM & _ & _).
    split; [lia |]. split.
    + intros j Hj. rewrite EM, list_lookup_insert_ne by lia. by apply IM.
    + split; [exact (luminosidad_constante_aceptar _ _ _ _ _ _ _ _ _ _ _ _ IL Hac) |].
      exact (sin_ciclo_aceptar _ _ _ _ _ _ _ _ _ _ _ IC Hac).
  - split; [lia |]. split; [exact HM1 |]. by split.
Qed.

(** ** estrella.py: the radius of the boundary *)

(** X20.  When the convective core of Phase A has a layer at least, the
    radius of the boundary, at which [n+1 = 2.5] is interpolated, lies
    between the radius of the first layer of the core and that of the last
    radiative layer: for a step [h <= 0],
    [R_ini + h*(i_f+1) <= rf <= R_ini + h*i_f]. *)
Theorem radio_frontera_entre_capas
    (fuel : nat) (M_tot X Y R_tot L_tot mu R_ini h A1 A2 : R) :
  siempre (estrella.fase_A fuel M_tot X Y R_tot L_tot mu R_ini h A1 A2)
    (fun a =>
       (estrella.i_f a < estrella.i (estrella.capas_A a))%nat ->
       h <= 0 ->
       siempre (estrella.radio_frontera a)
         (fun rf =>
            R_ini + h * INR (estrella.i_f a + 1) <= rf
            <= R_ini + h * INR (estrella.i_f a))).
Proof.
  apply siempre_Ok. intros a Ha Hif Hh.
  apply fase_A_radios in Ha as [_ [_ Hr]].
  apply siempre_Ok. intros rf H. unfold estrella.radio_frontera in H.
  apply bind_Ok in H as (n1 & _ & H). apply bind_Ok in H as (n0 & _ & H).
  apply bind_Ok in H as (r1 & Hr1 & H). apply bind_Ok in H as (r0 & Hr0 & H).
  injection H as <-.
  apply leer_Ok in Hr1, Hr0.
  rewrite Hr in Hr1 by lia. rewrite Hr in Hr0 by lia.
  injection Hr1 as <-. injection Hr0 as <-.
  pose proof (interp_acotado 2.5 n1 n0
                (R_ini + h * INR (estrella.i_f a + 1))
                (R_ini + h * INR (estrella.i_f a))) as Hb.
  rewrite plus_INR in *. simpl in *.
  rewrite Rmin_left, Rmax_right in Hb by lra. exact Hb.
Qed.

(** ** estrella.py: the columns of the final table, whatever the buffers *)

(** Whatever the buffers of the three phases hold, the column of the
    layer index of the final table counts the entries of the column of the
    radius, [0, 1, ..., len(Radio) - 1], and the column of the transport has
    as many entries as the column of the radius. *)
Lemma resultado_indices (param : Param) (Ciclo_B : list Ciclo)
    (stA : estrella.EstadoA) (i_f : nat) (st0 : estrella.Estado0) :
  let t := estrella.resultado param Ciclo_B stA i_f st0 in
  estrella.Capa_col t = seq 0 (length (estrella.Radio t))
  /\ length (estrella.Transporte_col t) = length (estrella.Radio t).
Proof.
  cbn zeta. unfold estrella.resultado.
  cbn [estrella.Capa_col estrella.Transporte_col estrella.Radio].
  split; [reflexivity |].
  rewrite length_columna, length_app, !length_replicate. lia.
Qed.

(** [np.round(x, 4)] gives a multiple of [10**-4] that is not farther than
    half of it from [x]. *)
Lemma round4_cerca (x : R) :
  exists z : Z, np.round4 x = IZR z / 10000
                /\ Rabs (np.round4 x - x) <= 1 / 20000.
Proof.
  unfold np.round4.
  set (y := x * 10000). set (n := Int_part y). set (f := frac_part y).
  assert (Hy : y = IZR n + f).
  { unfold n, f, frac_part. lra. }
  assert (Hf : 0 <= f < 1).
  { unfold f. destruct (base_fp y) as [H0 H1]. split; lra. }
  assert (Hx : x = (IZR n + f) / 10000) by (rewrite <- Hy; unfold y; field).
  assert (Hn : IZR (n + 1) = IZR n + 1) by (by rewrite plus_IZR).
  match goal with
  | |- exists z, IZR ?m / 10000 = _ /\ _ =>
      assert (Hm : Rabs (IZR m - y) <= 1 / 2)
  end.
  { destruct (f <? 1 / 2) eqn:H1.
    - apply Rltb_true in H1. rewrite Hy. apply Rabs_le. lra.
    - apply Rltb_false in H1. destruct (1 / 2 <? f) eqn:H2.
      + rewrite Hy, Hn. apply Rabs_le. lra.
      + apply Rltb_false in H2. destruct (Z.even n).
        * rewrite Hy. apply Rabs_le. lra.
        * rewrite Hy, Hn. apply Rabs_le. lra. }
  eexists. split; [reflexivity |].
  match goal with
  | |- Rabs (IZR ?m / 10000 - x) <= _ =>
      replace (IZR m / 10000 - x) with ((IZR m - y) / 10000)
        by (unfold y; field)
  end.
  unfold Rdiv at 1. rewrite Rabs_mult, (Rabs_pos_eq (/ 10000)) by lra.
  lra.
Qed.

(** The trim of a buffer is a prefix of the buffer. *)
Lemma trim_zeros_prefijo (a : list R) :
  exists n, np.trim_zeros a = take n a.
Proof.
  induction a as [| x a [n IH]]; [by exists 0%nat |].
  cbn [np.trim_zeros]. rewrite IH.
  destruct (take n a) eqn:Ht.
  - destruct (x =? 0); [by exists 0%nat | by exists 1%nat; destruct a].
  - exists (S n). cbn. by rewrite Ht.
Qed.

Lemma elem_of_trim_zeros (a : list R) (x : R) :
  x ∈ np.trim_zeros a -> x ∈ a.
Proof.
  destruct (trim_zeros_prefijo a) as [n ->]. apply subseteq_take.
Qed.

(** X21.  Every entry of a column of the final table is a value of one of
    the three buffers of its quantity, rounded to four decimals: it is a
    multiple of [10**-4], and it differs from the value of the buffer by
    [0.00005] at most. *)
Theorem columna_redondeada (x_B x_A x_0 : list R) (i_f : nat) (v : R) :
  v ∈ estrella.columna x_B x_A x_0 i_f ->
  exists (x : R) (z : Z),
    (x ∈ x_B \/ x ∈ x_A \/ x ∈ x_0)
    /\ v = np.round4 x
    /\ v = IZR z / 10000
    /\ Rabs (v - x) <= 1 / 20000.
Proof.
  unfold estrella.columna. intros Hv.
  apply list_elem_of_fmap in Hv as (x & -> & Hx).
  destruct (round4_cerca x) as (z & Hz & Hc).
  exists x, z. split; [| done].
  rewrite !elem_of_app, elem_of_reverse in Hx.
  destruct Hx as [Hx | [Hx | Hx]].
  - left. unfold estrella.sin_ultimo in Hx.
    by apply subseteq_take, elem_of_trim_zeros in Hx.
  - right. left. by apply subseteq_take, elem_of_trim_zeros in Hx.
  - right. right. by apply elem_of_trim_zeros.
Qed.

Lemma columna_redondeada_witness :
  np.round4 1 ∈ estrella.columna [0; 2] [1] [3] 0
  /\ exists (x : R) (z : Z),
       (x ∈ [0; 2] \/ x ∈ [1] \/ x ∈ [3])
       /\ np.round4 1 = np.round4 x
       /\ np.round4 1 = IZR z / 10000
       /\ Rabs (np.round4 1 - x) <= 1 / 20000.
Proof.
  assert (H : np.round4 1 ∈ estrella.columna [0; 2] [1] [3] 0).
  { unfold estrella.columna, estrella.sin_ultimo. cbn [np.trim_zeros].
    replace (2 =? 0) with false by (by decide_R).
    replace (1 =? 0) with false by (by decide_R).
    replace (3 =? 0) with false by (by decide_R).
    apply list_elem_of_lookup. by exists 1%nat. }
  split; [exact H |].
  exact (columna_redondeada [0; 2] [1] [3] 0 (np.round4 1) H).
Defined.

(** ** The convective layers lie on the polytrope *)

Lemma frac_part_2_5 : frac_part 2.5 <> 0.
Proof.
  unfold frac_part.
  replace (Int_part 2.5) with 2%Z by (apply Int_part_spec; lra). lra.
Qed.

(** Where [T ** 2.5] has a value, [k * T ** 2.5] is the pressure that
    [presion] gives. *)
Lemma presion_potencia (T k t : R) :
  T ^! 2.5 = Ok t -> politropo.presion T k = Ok (k * t).
Proof.
  intros Ht. unfold politropo.presion.
  destruct (T <=? 0) eqn:HT.
  - apply Rleb_true in HT. destruct HT as [Hneg | ->].
    + unfold pow_py in Ht.
      destruct (Req_dec_T 2.5 0); [lra |].
      destruct (Rlt_dec 0 T); [lra |].
      destruct (Req_dec_T T 0); [lra |].
      destruct (Req_dec_T (frac_part 2.5) 0) as [Hf | _]; [| done].
      by apply frac_part_2_5 in Hf.
    + rewrite pow_py_0_pos in Ht by lra. injection Ht as <-.
      f_equal. ring.
  - rewrite Ht. reflexivity.
Qed.

Lemma en_politropo_insert (k : R) (P T : list R) (i j : nat) (t p : R) :
  (i < length P)%nat -> (i < length T)%nat ->
  politropo.presion t k = Ok p ->
  (j <> i -> en_politropo k P T j) ->
  en_politropo k (<[i := p]> P) (<[i := t]> T) j.
Proof.
  intros HP HT Hp Hj. destruct (decide (j = i)) as [-> | Hne].
  - exists t, p. by rewrite !list_lookup_insert_eq.
  - destruct (Hj Hne) as (t' & p' & ? & ? & ?). exists t', p'.
    by rewrite !list_lookup_insert_ne.
Qed.

(** What one of the three first layers of Phase B stores as pressure and
    as temperature. *)
Lemma semilla_B_politropo (T_c h X Y k_prima mu : R)
    (st st' : faseB.Estado) (i : nat) (T_i T_i' : R) :
  faseB.semilla T_c h X Y k_prima mu st i T_i = Ok (st', T_i') ->
  exists p,
    faseB.P st' = <[i := p]> (faseB.P st)
    /\ faseB.T st' = <[i := T_i']> (faseB.T st)
    /\ (i < length (faseB.P st))%nat /\ (i < length (faseB.T st))%nat
    /\ politropo.presion T_i' k_prima = Ok p.
Proof.
  unfold faseB.semilla. intros H.
  apply bind_Ok in H as ([[C E1] nu] & _ & H). cbn beta iota in H.
  destruct (primera_derivada.fracciones C X Y) as [X1 X2].
  apply bind_Ok in H as (mu2 & _ & H). apply bind_Ok in H as (Tc15 & _ & H).
  apply bind_Ok in H as (r2 & _ & H). apply bind_Ok in H as (T25 & HT25 & H).
  apply bind_Ok in H as (p10 & _ & H). apply bind_Ok in H as (mu2' & _ & H).
  apply bind_Ok in H as (k2 & _ & H). apply bind_Ok in H as (Tcn & _ & H).
  apply bind_Ok in H as (r3 & _ & H). apply bind_Ok in H as (Tc15' & _ & H).
  apply bind_Ok in H as (r3' & _ & H).
  apply bind_Ok in H as (r' & Hr' & H). apply bind_Ok in H as (P' & HP' & H).
  apply bind_Ok in H as (T' & HT' & H). apply bind_Ok in H as (M' & HM' & H).
  apply bind_Ok in H as (L' & HL' & H).
  apply (presion_potencia _ k_prima) in HT25.
  assert (Hst : faseB.P st' = P' /\ faseB.T st' = T'
                /\ T_i' = T_c - 0.008207 * mu2 * k_prima * Tc15 * r2).
  { destruct (_ =? 0).
    - by injection H as <- <-.
    - desmonta H. by injection H as <- <-. }
  destruct Hst as (-> & -> & ->).
  apply escribir_Ok in HP' as [? ->]. apply escribir_Ok in HT' as [? ->].
  eexists. repeat split; done.
Qed.

(** What an accepting pass of the loop of Phase B stores as pressure and
    as temperature. *)
Lemma paso_B_politropo (fuel : nat) (rf h X Y k_prima mu : R)
    (st st' : faseB.Estado) :
  faseB.paso fuel rf h X Y k_prima mu st = Ok (faseB.Acepta st') ->
  exists t p,
    faseB.P st' = <[(faseB.i st + 1)%nat := p]> (faseB.P st)
    /\ faseB.T st' = <[(faseB.i st + 1)%nat := t]> (faseB.T st)
    /\ (faseB.i st + 1 < length (faseB.P st))%nat
    /\ (faseB.i st + 1 < length (faseB.T st))%nat
    /\ faseB.i st' = (faseB.i st + 1)%nat
    /\ politropo.presion t k_prima = Ok p.
Proof.
  unfold faseB.paso. intros H. desmonta H.
  destruct (_ <? _); [done |]. desmonta H. injection H as <-. cbn.
  escrituras.
  match goal with
  | Hp : politropo.presion ?t _ = Ok ?p |- _ => exists t, p
  end.
  done.
Qed.

(** X22.  The layers of Phase B lie on the polytrope of the constant
    [k_prima]: in every run that returns, the pressure of every layer,
    the three first ones included, is the one that [presion] gives for the
    temperature of the layer, [k_prima * T**2.5] or 0 when the temperature
    is not positive. *)
Theorem conveccion_politropo (fuel : nat) (T_c rf h X Y k_prima : R) :
  siempre (faseB.conveccion fuel T_c rf h X Y k_prima)
    (fun '(param, _, Ciclo_B) =>
       forall j, (j < length Ciclo_B)%nat ->
         en_politropo k_prima (p_P param) (p_T param) j).
Proof.
  apply siempre_Ok. intros [[param F] C] H.
  unfold faseB.conveccion, faseB.capas in H.
  apply bind_Ok in H as (st & Hst & H).
  apply bind_Ok in H as (F' & _ & H). injection H as <- _ <-. cbn.
  apply bind_Ok in Hst as (mu & _ & Hst).
  apply bind_Ok in Hst as (st2 & Hs & Hst).
  pose proof (semillas_B_radios _ _ _ _ _ _ _ Hs) as Hrad.
  pose proof (bucle_capas_B_radios _ _ _ _ _ _ _ _ _ _ Hrad Hst) as [HC _].
  set (I := fun s : faseB.Estado =>
         forall j, (j <= faseB.i s)%nat ->
           en_politropo k_prima (faseB.P s) (faseB.T s) j).
  assert (H2 : I st2).
  { unfold faseB.semillas in Hs.
    apply bind_Ok in Hs as ([s0 T0] & H0 & Hs). cbn beta iota in Hs.
    apply bind_Ok in Hs as ([s1 T1] & H1 & Hs). cbn beta iota in Hs.
    apply bind_Ok in Hs as ([s2 T2] & H2 & Hs). cbn beta iota in Hs.
    injection Hs as <-.
    pose proof (semilla_B_politropo _ _ _ _ _ _ _ _ _ _ _ H0)
      as (p0 & EP0 & ET0 & lP0 & lT0 & Hp0).
    pose proof (semilla_B_politropo _ _ _ _ _ _ _ _ _ _ _ H1)
      as (p1 & EP1 & ET1 & lP1 & lT1 & Hp1).
    pose proof (semilla_B_politropo _ _ _ _ _ _ _ _ _ _ _ H2)
      as (p2 & EP2 & ET2 & lP2 & lT2 & Hp2).
    apply semilla_B_Ok in H2 as (Hi2 & _).
    unfold I. rewrite Hi2, EP2, ET2. intros j Hj.
    apply en_politropo_insert; try done. intros Hj2.
    rewrite EP1, ET1. apply en_politropo_insert; try done. intros Hj1.
    rewrite EP0, ET0. apply en_politropo_insert; try done. intros Hj0.
    lia. }
  assert (Hpaso : forall s s', I s ->
            faseB.paso fuel rf h X Y k_prima mu s = Ok (faseB.Acepta s') ->
            I s').
  { intros s s' HI Hp.
    apply paso_B_politropo in Hp as (t & p & EP & ET & lP & lT & Hi & Hp).
    unfold I. rewrite Hi, EP, ET. intros j Hj.
    apply en_politropo_insert; try done. intros Hne. apply HI. lia. }
  destruct (bucle_capas_B_inv fuel rf h X Y k_prima mu I Hpaso fuel st2 st
              H2 Hst) as [HI _].
  intros j Hj. apply HI. lia.
Qed.

(** What [aceptar] stores as pressure and as temperature. *)
Lemma aceptar_PT (st st' : estrella.EstadoA) (r P T M L dP dT dM : R)
    (dL : option R) (c : Ciclo) :
  estrella.aceptar st r P T M L dP dT dM dL c = Ok st' ->
  estrella.i st' = (estrella.i st + 1)%nat
  /\ (estrella.i st + 1 < length (estrella.P_A st))%nat
  /\ (estrella.i st + 1 < length (estrella.T_A st))%nat
  /\ estrella.P_A st' = <[(estrella.i st + 1)%nat := P]> (estrella.P_A st)
  /\ estrella.T_A st' = <[(estrella.i st + 1)%nat := T]> (estrella.T_A st).
Proof.
  unfold estrella.aceptar. intros H. desmonta H.
  injection H as <-. cbn. escrituras. done.
Qed.

(** At the radius 0 the temperature loop of Phase A.2 accepts its
    estimate, and the pressure it gives is that of the polytrope. *)
Lemma bucle_T_2_centro (X Y mu h k_prima : R) (n : nat)
    (hi : estrella.Historia) (dT_prev T_est : R)
    (P_est M_cal dM_i1 T_cal dT_i1 : R) :
  estrella.bucle_T_2 X Y mu h k_prima n 0 hi dT_prev T_est
  = Ok (P_est, M_cal, dM_i1, T_cal, dT_i1) ->
  politropo.presion T_cal k_prima = Ok P_est.
Proof.
  revert dT_prev T_est. induction n as [| n IH]; intros dT_prev T_est H;
    [done |].
  cbn [estrella.bucle_T_2] in H.
  apply bind_Ok in H as (P_est' & HP & H).
  apply bind_Ok in H as ([M_cal' dM'] & _ & H). cbn beta iota in H.
  replace (0 =? 0) with true in H by (symmetry; by apply Reqb_true).
  apply bind_Ok in H as ([T_cal' dT'] & [= <- <-] & H). cbn beta iota in H.
  apply bind_Ok in H as (q & Hq & H).
  destruct (Rabs q <? E_rel_max).
  - by injection H as <- _ _ <- _.
  - exact (IH _ _ H).
Qed.

(** What an accepting pass of the loop of Phase A.2 stores. *)
Lemma paso_2_politropo (fuel : nat) (X Y mu R_ini h k_prima dP_i1_13 : R)
    (st : estrella.EstadoA) (d : R) (st' : estrella.EstadoA) (d' : R) :
  estrella.paso_2 fuel X Y mu R_ini h k_prima dP_i1_13 (st, d)
  = Ok (estrella.Acepta (st', d')) ->
  exists t p,
    estrella.P_A st' = <[(estrella.i st + 1)%nat := p]> (estrella.P_A st)
    /\ estrella.T_A st' = <[(estrella.i st + 1)%nat := t]> (estrella.T_A st)
    /\ (estrella.i st + 1 < length (estrella.P_A st))%nat
    /\ (estrella.i st + 1 < length (estrella.T_A st))%nat
    /\ estrella.i st' = (estrella.i st + 1)%nat
    /\ politropo.presion t k_prima = Ok p
    /\ 0 <= R_ini + h * INR (estrella.i st + 1).
Proof.
  unfold estrella.paso_2. intros H.
  apply bind_Ok in H as (hi & _ & H).
  apply bind_Ok in H as ([[[[P_est M_cal] dM_i1] T_cal] dT_i1] & HT & H).
  cbn beta iota in H.
  apply bind_Ok in H as (P_cal & HP & H).
  apply bind_Ok in H as ([[L_cal dL_i1] c] & _ & H). cbn beta iota in H.
  destruct (_ <? 0) eqn:Hr; [done |]. apply Rltb_false in Hr.
  apply bind_Ok in H as (st1 & Hac & H). injection H as <- _.
  apply aceptar_PT in Hac as (Hi & lP & lT & EP & ET).
  exists T_cal, P_cal. repeat split; try done.
  destruct (_ =? 0) eqn:H0.
  - apply Reqb_true in H0. rewrite H0 in HT. injection HP as <-.
    exact (bucle_T_2_centro _ _ _ _ _ _ _ _ _ _ _ _ _ _ HT).
  - exact HP.
Qed.

(** When the loop of Phase A.2 ends, a last pass has ended it. *)
Lemma bucle_2_sale (fuel : nat) (X Y mu R_ini h k_prima dP_i1_13 : R)
    (n : nat) (st : estrella.EstadoA) (d : R) (st' : estrella.EstadoA) :
  estrella.bucle_2 fuel X Y mu R_ini h k_prima dP_i1_13 n (st, d) = Ok st' ->
  R_ini + h * INR (estrella.i st' + 1) < 0.
Proof.
  revert st d. induction n as [| n IH]; intros st d H; [done |].
  cbn [estrella.bucle_2] in H. apply bind_Ok in H as (p & Hp & H).
  destruct p as [[st1 d1] | st1]; cbn in H.
  - exact (IH _ _ H).
  - injection H as <-. unfold estrella.paso_2 in Hp. desmonta Hp.
    destruct (_ <? 0) eqn:Hr.
    + injection Hp as <-. by apply Rltb_true in Hr.
    + desmonta Hp. done.
Qed.

(** X23.  The convective core of Phase A lies on the polytrope of the
    constant [k_prima]: when Phase A returns, every layer after the layer
    [i_f] of the boundary has the pressure that [presion] gives for its
    temperature and for [k_prima], also the layer at the radius 0, where
    the estimates are taken as they are. *)
Theorem nucleo_politropo
    (fuel : nat) (M_tot X Y R_tot L_tot mu R_ini h A1 A2 : R) :
  siempre (estrella.fase_A fuel M_tot X Y R_tot L_tot mu R_ini h A1 A2)
    (fun a =>
       (estrella.i_f a <= estrella.i (estrella.capas_A a))%nat
       /\ forall j,
            (estrella.i_f a < j <= estrella.i (estrella.capas_A a))%nat ->
            en_politropo (estrella.k_prima a)
              (estrella.P_A (estrella.capas_A a))
              (estrella.T_A (estrella.capas_A a)) j).
Proof.
  apply siempre_Ok. intros a H. unfold estrella.fase_A in H.
  apply bind_Ok in H as (st & _ & H).
  apply bind_Ok in H as (st1 & _ & H).
  apply bind_Ok in H as (st2 & _ & H).
  apply bind_Ok in H as ([[st3 nm] c] & _ & H). cbn beta iota in H.
  apply bind_Ok in H as (k & _ & H).
  apply bind_Ok in H as (st4 & H4 & H).
  injection H as <-. cbn.
  set (I := fun s : estrella.EstadoA =>
         (estrella.i st3 <= estrella.i s)%nat
         /\ forall j, (estrella.i st3 < j <= estrella.i s)%nat ->
              en_politropo k (estrella.P_A s) (estrella.T_A s) j).
  refine (bucle_2_inv _ _ _ _ _ _ _ _ I _ _ _ _ _ _ H4).
  - intros s d s' d' [Hle HI] Hp.
    apply paso_2_politropo
      in Hp as (t & p & EP & ET & lP & lT & Hi & Hp & _).
    unfold I. rewrite Hi, EP, ET. split; [lia |]. intros j Hj.
    apply en_politropo_insert; try done. intros Hne. apply HI. lia.
  - unfold I. split; [lia |]. intros j Hj. lia.
Qed.

(** X24.  Phase A ends at the centre: when it returns, the layer that
    would follow its last layer has a negative radius, and every layer of
    the convective core lies at a radius [R_ini + h*j] that is not
    negative. *)
Theorem fase_A_hasta_el_centro
    (fuel : nat) (M_tot X Y R_tot L_tot mu R_ini h A1 A2 : R) :
  siempre (estrella.fase_A fuel M_tot X Y R_tot L_tot mu R_ini h A1 A2)
    (fun a =>
       let n := estrella.i (estrella.capas_A a) in
       R_ini + h * INR (n + 1) < 0
       /\ forall j, (estrella.i_f a < j <= n)%nat ->
            estrella.r_A (estrella.capas_A a) !! j
            = Some (R_ini + h * INR j)
            /\ 0 <= R_ini + h * INR j).
Proof.
  apply siempre_Ok. intros a H.
  pose proof (fase_A_radios _ _ _ _ _ _ _ _ _ _ _ _ H) as [_ [_ Hrad]].
  unfold estrella.fase_A in H.
  apply bind_Ok in H as (st & _ & H).
  apply bind_Ok in H as (st1 & _ & H).
  apply bind_Ok in H as (st2 & _ & H).
  apply bind_Ok in H as ([[st3 nm] c] & _ & H). cbn beta iota in H.
  apply bind_Ok in H as (k & _ & H).
  apply bind_Ok in H as (st4 & H4 & H).
  injection H as <-. cbn in *.
  split; [exact (bucle_2_sale _ _ _ _ _ _ _ _ _ _ _ _ H4) |].
  set (I := fun s : estrella.EstadoA =>
         forall j, (estrella.i st3 < j <= estrella.i s)%nat ->
           0 <= R_ini + h * INR j).
  assert (HI : I st4).
  { refine (bucle_2_inv _ _ _ _ _ _ _ _ I _ _ _ _ _ _ H4).
    - intros s d s' d' HI Hp.
      apply paso_2_politropo
        in Hp as (t & p & _ & _ & _ & _ & Hi & _ & Hr).
      unfold I. rewrite Hi. intros j Hj.
      destruct (decide (j = estrella.i s + 1)%nat) as [-> | Hne];
        [exact Hr | apply HI; lia].
    - unfold I. intros j Hj. lia. }
  intros j Hj. split; [apply Hrad; lia | by apply HI].
Qed.

(** ** ajuste.py: the searches of the radius and of the luminosity *)

Lemma ceil_entre (x : R) (z : Z) : IZR z - 1 < x <= IZR z -> np.ceil x = z.
Proof.
  intros H. unfold np.ceil.
  replace (Int_part (- x)) with (- z)%Z; [lia |].
  apply Int_part_spec. rewrite opp_IZR. lra.
Qed.

Lemma lookup_arange (start stop step : R) (k : nat) :
  (k < length (np.arange start stop step))%nat ->
  np.arange start stop step !! k = Some (start + INR k * step).
Proof.
  rewrite length_arange. intros Hk. unfold np.arange.
  rewrite list_lookup_fmap, lookup_seq_lt by done. reflexivity.
Qed.

(** The two grids of the first search have 7 values, and those of the fine
    search 11. *)
Lemma length_arange_R (R_tot : R) :
  length (np.arange (R_tot - 3 * ajuste.dR) (R_tot + 3 * ajuste.dR + 0.1)
            ajuste.dR) = 7%nat.
Proof.
  rewrite length_arange, (ceil_entre _ 7); [done |].
  unfold ajuste.dR. lra.
Qed.

Lemma length_arange_L (L_tot : R) :
  length (np.arange (L_tot - 3 * ajuste.dL) (L_tot + 3 * ajuste.dL + 0.1)
            ajuste.dL) = 7%nat.
Proof.
  rewrite length_arange, (ceil_entre _ 7); [done |].
  unfold ajuste.dL. lra.
Qed.

Lemma length_arange_R_fino (R_base : R) :
  length (np.arange (R_base - 0.5) (R_base + 0.51) 0.1) = 11%nat.
Proof. rewrite length_arange, (ceil_entre _ 11); [done | lra]. Qed.

Lemma length_arange_L_fino (L_base : R) :
  length (np.arange (L_base - 5) (L_base + 5.1) 1) = 11%nat.
Proof. rewrite length_arange, (ceil_entre _ 11); [done | lra]. Qed.

Lemma celda_zeros2 (n m i j : nat) :
  celda (ajuste.zeros2 n m) i j
  = if decide (i < n /\ j < m)%nat then Some 0 else None.
Proof.
  unfold celda, ajuste.zeros2, np.zeros.
  destruct (decide (i < n)%nat) as [Hi | Hi].
  - rewrite (lookup_replicate_2 n _ i Hi). cbn.
    destruct (decide (j < m)%nat) as [Hj | Hj].
    + rewrite decide_True by done. by apply lookup_replicate_2.
    + rewrite decide_False by lia. apply lookup_replicate_None. lia.
  - rewrite decide_False by lia.
    replace (replicate n (replicate m 0) !! i) with (@None (list R));
      [done |].
    symmetry. apply lookup_replicate_None. lia.
Qed.

Lemma celda_escribir2 (E E' : list (list R)) (i j : nat) (v : R) :
  ajuste.escribir2 E i j v = Ok E' ->
  is_Some (celda E i j)
  /\ forall i' j',
       celda E' i' j'
       = if decide (i' = i /\ j' = j) then Some v else celda E i' j'.
Proof.
  unfold ajuste.escribir2, celda.
  destruct (E !! i) as [f |] eqn:Hf; [| done]. intros H.
  apply bind_Ok in H as (f' & Hf' & [= <-]).
  apply escribir_Ok in Hf' as [Hj ->]. cbn.
  split; [by apply lookup_lt_is_Some_2 |]. intros i' j'.
  destruct (decide (i' = i)) as [-> | Hi].
  - rewrite list_lookup_insert_eq by (by eapply lookup_lt_Some). cbn.
    destruct (decide (j' = j)) as [-> | Hj'].
    + rewrite decide_True by done. by apply list_lookup_insert_eq.
    + rewrite decide_False by (intros [_ ?]; done).
      rewrite list_lookup_insert_ne by done. by rewrite Hf.
  - rewrite decide_False by (intros [? _]; done).
    by rewrite list_lookup_insert_ne.
Qed.

Lemma escribir2_total (E : list (list R)) (i j : nat) (v : R) :
  is_Some (celda E i j) -> exists E', ajuste.escribir2 E i j v = Ok E'.
Proof.
  unfold celda, ajuste.escribir2. destruct (E !! i) as [f |]; cbn.
  - intros Hj%lookup_lt_is_Some_1. unfold np.escribir.
    rewrite decide_True by done. by eexists.
  - by intros [? ?].
Qed.

Section busqueda.

Variable star : R -> R -> res (estrella.Agrupado * R * R).

(** What the loop over the luminosities leaves in the array: the row [i]
    holds, from the column [j] on, the errors that [star] returns for the
    luminosities, and the rest of the array is as it was. *)
Lemma fila_Ok (Ls : list R) (R' : R) (i j : nat) (E E' : list (list R)) :
  ajuste.fila star Ls R' i j E = Ok E' ->
  (forall i' j', (i' <> i \/ j' < j \/ j + length Ls <= j')%nat ->
     celda E' i' j' = celda E i' j')
  /\ (forall k L', Ls !! k = Some L' ->
        exists p e T, star R' L' = Ok (p, e, T)
                      /\ celda E' i (j + k) = Some e)
  /\ (forall i' j', is_Some (celda E' i' j') <-> is_Some (celda E i' j')).
Proof.
  revert j E. induction Ls as [| L' Ls IH]; intros j E H.
  - injection H as <-. repeat split; try done.
  - cbn [ajuste.fila] in H.
    apply bind_Ok in H as ([[p e] T] & Hs & H). cbn beta iota in H.
    apply bind_Ok in H as (E1 & H1 & H).
    apply celda_escribir2 in H1 as [Hsome H1].
    apply IH in H as (Hm & Hv & Hf). cbn [length]. split; [| split].
    + intros i' j' Hij. rewrite Hm by lia. rewrite H1.
      apply decide_False. lia.
    + intros [| k] L'' HL; cbn in HL.
      * injection HL as <-. exists p, e, T. split; [done |].
        rewrite Hm by lia. rewrite H1. apply decide_True.
        split; [done | lia].
      * destruct (Hv k L'' HL) as (p' & e' & T' & Hs' & Hc).
        exists p', e', T'. split; [done |].
        by replace (j + S k)%nat with (j + 1 + k)%nat by lia.
    + intros i' j'. rewrite Hf, H1.
      destruct (decide (i' = i /\ j' = j)) as [[-> ->] | _]; [| done].
      split; [done | by eexists].
Qed.

Lemma fila_total (Ls : list R) (R' : R) (i j : nat) (E : list (list R)) :
  (forall L', L' ∈ Ls -> exists p e T, star R' L' = Ok (p, e, T)) ->
  (forall k, (k < length Ls)%nat -> is_Some (celda E i (j + k))) ->
  exists E', ajuste.fila star Ls R' i j E = Ok E'.
Proof.
  revert j E. induction Ls as [| L' Ls IH]; intros j E Hs Hc.
  - by eexists.
  - cbn [ajuste.fila].
    destruct (Hs L') as (p & e & T & ->); [by left |]. mon.
    destruct (escribir2_total E i j e) as [E1 H1].
    { specialize (Hc 0%nat). rewrite Nat.add_0_r in Hc.
      apply Hc. cbn. lia. }
    rewrite H1. mon. apply IH.
    + intros L'' HL. apply Hs. by right.
    + intros k Hk. apply celda_escribir2 in H1 as [_ H1]. rewrite H1.
      rewrite decide_False by lia.
      replace (j + 1 + k)%nat with (j + S k)%nat by lia.
      apply Hc. cbn. lia.
Qed.

(** What the loop over the radii leaves in the array: the entry
    [(i + k, j)] is the error that [star] returns for the radius [k] and
    the luminosity [j] of the grids. *)
Lemma malla_Ok (Rs Ls : list R) (i : nat) (E E' : list (list R)) :
  ajuste.malla star Rs Ls i E = Ok E' ->
  (forall i' j', (i' < i)%nat -> celda E' i' j' = celda E i' j')
  /\ (forall k j R' L', Rs !! k = Some R' -> Ls !! j = Some L' ->
        exists p e T, star R' L' = Ok (p, e, T)
                      /\ celda E' (i + k) j = Some e)
  /\ (forall i' j', is_Some (celda E' i' j') <-> is_Some (celda E i' j')).
Proof.
  revert i E. induction Rs as [| R' Rs IH]; intros i E H.
  - injection H as <-. repeat split; try done.
  - cbn [ajuste.malla] in H. apply bind_Ok in H as (E1 & H1 & H).
    apply fila_Ok in H1 as (Hm1 & Hv1 & Hf1).
    apply IH in H as (Hm & Hv & Hf). split; [| split].
    + intros i' j' Hi. rewrite Hm by lia. apply Hm1. lia.
    + intros [| k] j R'' L' HR HL; cbn in HR.
      * injection HR as <-.
        destruct (Hv1 j L' HL) as (p & e & T & Hs & Hc).
        exists p, e, T. split; [done |].
        rewrite Nat.add_0_r. by rewrite Hm by lia.
      * destruct (Hv k j R'' L' HR HL) as (p & e & T & Hs & Hc).
        exists p, e, T. split; [done |].
        by replace (i + S k)%nat with (i + 1 + k)%nat by lia.
    + intros i' j'. by rewrite Hf, Hf1.
Qed.

Lemma malla_total (Rs Ls : list R) (i : nat) (E : list (list R)) :
  (forall R' L', R' ∈ Rs -> L' ∈ Ls -> exists p e T, star R' L' = Ok (p, e, T)) ->
  (forall k j, (k < length Rs)%nat -> (j < length Ls)%nat ->
     is_Some (celda E (i + k) j)) ->
  exists E', ajuste.malla star Rs Ls i E = Ok E'.
Proof.
  revert i E. induction Rs as [| R' Rs IH]; intros i E Hs Hc.
  - by eexists.
  - cbn [ajuste.malla].
    destruct (fila_total Ls R' i 0 E) as [E1 H1].
    { intros L' HL. apply Hs; [by left | done]. }
    { intros k Hk. specialize (Hc 0%nat k). rewrite Nat.add_0_r in Hc.
      apply Hc; [cbn; lia | done]. }
    rewrite H1. mon. apply IH.
    + intros R'' L' HR HL. apply Hs; [by right | done].
    + intros k j Hk Hj. apply fila_Ok in H1 as (_ & _ & Hf). rewrite Hf.
      replace (i + 1 + k)%nat with (i + S k)%nat by lia.
      apply Hc; [cbn; lia | done].
Qed.

End busqueda.

(** The entries of the array and its minimum. *)
Lemma elem_of_celda (E : list (list R)) (x : R) :
  x ∈ mjoin E <-> exists i j, celda E i j = Some x.
Proof.
  rewrite list_elem_of_join. unfold celda. split.
  - intros (f & [j Hj]%list_elem_of_lookup & [i Hi]%list_elem_of_lookup).
    exists i, j. by rewrite Hi.
  - intros (i & j & H). destruct (E !! i) as [f |] eqn:Hf; [| done].
    exists f. split; apply list_elem_of_lookup; eauto.
Qed.

Lemma min2_Ok (E : list (list R)) (m : R) :
  ajuste.min2 E = Ok m ->
  (exists i j, celda E i j = Some m)
  /\ forall i j x, celda E i j = Some x -> m <= x.
Proof.
  unfold ajuste.min2. intros [Hin Hmin]%minimo_de_Ok. split.
  - by apply elem_of_celda.
  - intros i j x Hx. apply Hmin, elem_of_celda. eauto.
Qed.

Lemma min2_total (E : list (list R)) (i j : nat) :
  is_Some (celda E i j) -> exists m, ajuste.min2 E = Ok m.
Proof.
  intros [x Hx]. unfold ajuste.min2, estrella.minimo_de.
  destruct (mjoin E) as [| y l] eqn:HE; [| by eexists].
  assert (H : x ∈ mjoin E) by (apply elem_of_celda; eauto).
  rewrite HE in H. by apply elem_of_nil in H.
Qed.

Lemma elem_of_where2 (E : list (list R)) (v : R) (i j : nat) :
  (i, j) ∈ ajuste.where2 E v <-> celda E i j = Some v.
Proof.
  unfold ajuste.where2, celda. rewrite list_elem_of_bind. split.
  - intros (i' & H & Hi'%elem_of_seq).
    apply list_elem_of_bind in H as (j' & H & Hj'%where_eq_elem).
    apply list_elem_of_singleton in H as [= <- <-].
    destruct (lookup_lt_is_Some_2 E i) as [f Hf]; [lia |].
    rewrite Hf. cbn. by rewrite (list_lookup_total_correct _ _ _ Hf) in Hj'.
  - intros H. destruct (E !! i) as [f |] eqn:Hf; [| done]. cbn in H.
    exists i. split.
    + apply list_elem_of_bind. exists j. split; [by left |].
      apply where_eq_elem.
      by rewrite (list_lookup_total_correct _ _ _ Hf).
    + apply elem_of_seq. apply lookup_lt_Some in Hf. lia.
Qed.

Lemma NoDup_where2 (E : list (list R)) (v : R) : NoDup (ajuste.where2 E v).
Proof.
  unfold ajuste.where2. apply NoDup_bind.
  - intros i1 i2 [i j] _ _ H1 H2.
    apply list_elem_of_bind in H1 as (j1 & [= -> ->]%list_elem_of_singleton & _).
    by apply list_elem_of_bind in H2
      as (j2 & [= -> ->]%list_elem_of_singleton & _).
  - intros i _. apply NoDup_bind.
    + intros j1 j2 y _ _ [= ->]%list_elem_of_singleton
        [= Hj]%list_elem_of_singleton. done.
    + intros j _. apply NoDup_singleton.
    + unfold np.where_eq. apply NoDup_filter, NoDup_seq.
  - apply NoDup_seq.
Qed.

Lemma unico_Ok {A : Type} (l : list A) (x : A) :
  ajuste.unico l = Ok x <-> l = [x].
Proof.
  destruct l as [| y [| z l]]; cbn; split; try done.
  - by intros [= ->].
  - by intros [= ->].
Qed.

Lemma unico_NoDup {A : Type} (l : list A) (x : A) :
  NoDup l -> (forall y, y ∈ l <-> y = x) -> l = [x].
Proof.
  intros Hnd Hx. destruct l as [| y l].
  - assert (H : x ∈ @nil A) by (by apply Hx). by apply elem_of_nil in H.
  - assert (y = x) as -> by (apply Hx; by left).
    destruct l as [| z l]; [done |].
    assert (z = x) as -> by (apply Hx; right; by left).
    apply NoDup_cons in Hnd as [Hnd _]. exfalso. apply Hnd. by left.
Qed.

Lemma unico_dos {A : Type} (l : list A) (x y : A) :
  x ∈ l -> y ∈ l -> x <> y -> ajuste.unico l = Err ValueError.
Proof.
  intros Hx Hy Hne. destruct l as [| z [| w l]]; [done | | done].
  apply list_elem_of_singleton in Hx, Hy. congruence.
Qed.

Section malla_minimo.

Variable star : R -> R -> res (estrella.Agrupado * R * R).
Variables Rs Ls : list R.
Variables n m : nat.
(** [e i j] is the error that [star] returns at the point [(i, j)] of the
    grid. *)
Variable e : nat -> nat -> R.
Hypothesis HRs : length Rs = n.
Hypothesis HLs : length Ls = m.
Hypothesis Hstar : forall i j R' L',
  Rs !! i = Some R' -> Ls !! j = Some L' ->
  exists p T, star R' L' = Ok (p, e i j, T).

(** The loops fill the array. *)
Lemma malla_llena :
  exists E, ajuste.malla star Rs Ls 0 (ajuste.zeros2 n m) = Ok E.
Proof.
  apply malla_total.
  - intros R' L' [i Hi]%list_elem_of_lookup [j Hj]%list_elem_of_lookup.
    destruct (Hstar i j R' L' Hi Hj) as (p & T & H). eauto.
  - intros k j Hk Hj.
    rewrite celda_zeros2, decide_True by (cbn; lia). by eexists.
Qed.

(** The entries of the array are the errors at the points of the grid. *)
Lemma malla_celdas (E : list (list R)) :
  ajuste.malla star Rs Ls 0 (ajuste.zeros2 n m) = Ok E ->
  (forall i j, (i < n)%nat -> (j < m)%nat -> celda E i j = Some (e i j))
  /\ (forall i j x, celda E i j = Some x ->
        (i < n)%nat /\ (j < m)%nat /\ x = e i j).
Proof.
  intros H. apply malla_Ok in H as (_ & Hv & Hf).
  assert (Hc : forall i j, (i < n)%nat -> (j < m)%nat ->
            celda E i j = Some (e i j)).
  { intros i j Hi Hj.
    destruct (lookup_lt_is_Some_2 Rs i) as [R' HR]; [lia |].
    destruct (lookup_lt_is_Some_2 Ls j) as [L' HL]; [lia |].
    destruct (Hv i j R' L' HR HL) as (p & e' & T & He & Hc).
    destruct (Hstar i j R' L' HR HL) as (p' & T' & He').
    rewrite He' in He. by injection He as _ <- _. }
  split; [exact Hc |]. intros i j x Hx.
  assert (Hs : is_Some (celda (ajuste.zeros2 n m) i j))
    by (apply Hf; by eexists).
  rewrite celda_zeros2 in Hs.
  destruct (decide (i < n /\ j < m)%nat) as [[Hi Hj] |]; [| by destruct Hs].
  rewrite Hc in Hx by done. by injection Hx as <-.
Qed.

(** The minimum of the array and the entries that hold it, when no error
    is below the error at the point [(i0, j0)]. *)
Lemma malla_minimo (E : list (list R)) (i0 j0 : nat) :
  ajuste.malla star Rs Ls 0 (ajuste.zeros2 n m) = Ok E ->
  (i0 < n)%nat -> (j0 < m)%nat ->
  (forall i j, (i < n)%nat -> (j < m)%nat -> e i0 j0 <= e i j) ->
  ajuste.min2 E = Ok (e i0 j0)
  /\ forall i j, (i, j) ∈ ajuste.where2 E (e i0 j0)
       <-> ((i < n)%nat /\ (j < m)%nat /\ e i j = e i0 j0).
Proof.
  intros [Hc Hval]%malla_celdas Hi0 Hj0 Hmin. split.
  - destruct (min2_total E i0 j0) as [x Hx];
      [rewrite Hc by done; by eexists |].
    rewrite Hx. f_equal.
    apply min2_Ok in Hx as [(i & j & Hij) Hle].
    apply Hval in Hij as (Hi & Hj & ->).
    apply Rle_antisym; [| by apply Hmin].
    apply (Hle i0 j0). by apply Hc.
  - intros i j. rewrite elem_of_where2. split.
    + intros (Hi & Hj & He)%Hval. done.
    + intros (Hi & Hj & He). rewrite Hc by done. by rewrite He.
Qed.

(** The positions of the minimum, when the error at the point [(i0, j0)]
    is strictly below the others. *)
Lemma malla_minimo_unico (E : list (list R)) (i0 j0 : nat) :
  ajuste.malla star Rs Ls 0 (ajuste.zeros2 n m) = Ok E ->
  (i0 < n)%nat -> (j0 < m)%nat ->
  (forall i j, (i < n)%nat -> (j < m)%nat -> (i, j) <> (i0, j0) ->
     e i0 j0 < e i j) ->
  ajuste.min2 E = Ok (e i0 j0)
  /\ ajuste.where2 E (e i0 j0) = [(i0, j0)].
Proof.
  intros HE Hi0 Hj0 Hmin.
  destruct (malla_minimo E i0 j0 HE Hi0 Hj0) as [Hm Hw].
  { intros i j Hi Hj.
    destruct (decide ((i, j) = (i0, j0))) as [[= -> ->] | Hne]; [lra |].
    left. by apply Hmin. }
  split; [exact Hm |]. apply unico_NoDup; [apply NoDup_where2 |].
  intros [i j]. rewrite Hw. split.
  - intros (Hi & Hj & He).
    destruct (decide ((i, j) = (i0, j0))) as [Heq | Hne]; [done |].
    specialize (Hmin i j Hi Hj Hne). lra.
  - by intros [= -> ->].
Qed.

End malla_minimo.

Lemma lookup_radio_malla (R_tot : R) (i : nat) (R' : R) :
  np.arange (R_tot - 3 * ajuste.dR) (R_tot + 3 * ajuste.dR + 0.1) ajuste.dR
    !! i = Some R' ->
  (i < 7)%nat /\ R' = radio_malla R_tot i.
Proof.
  intros H. pose proof (lookup_lt_Some _ _ _ H) as Hi.
  rewrite lookup_arange in H by done. rewrite length_arange_R in Hi.
  injection H as <-. split; [done |]. unfold radio_malla. ring.
Qed.

Lemma lookup_luminosidad_malla (L_tot : R) (j : nat) (L' : R) :
  np.arange (L_tot - 3 * ajuste.dL) (L_tot + 3 * ajuste.dL + 0.1) ajuste.dL
    !! j = Some L' ->
  (j < 7)%nat /\ L' = luminosidad_malla L_tot j.
Proof.
  intros H. pose proof (lookup_lt_Some _ _ _ H) as Hj.
  rewrite lookup_arange in H by done. rewrite length_arange_L in Hj.
  injection H as <-. split; [done |]. unfold luminosidad_malla. ring.
Qed.

Lemma lookup_radio_fino (R_base : R) (i : nat) (R' : R) :
  np.arange (R_base - 0.5) (R_base + 0.51) 0.1 !! i = Some R' ->
  (i < 11)%nat /\ R' = radio_fino R_base i.
Proof.
  intros H. pose proof (lookup_lt_Some _ _ _ H) as Hi.
  rewrite lookup_arange in H by done. rewrite length_arange_R_fino in Hi.
  injection H as <-. done.
Qed.

Lemma lookup_luminosidad_fina (L_base : R) (j : nat) (L' : R) :
  np.arange (L_base - 5) (L_base + 5.1) 1 !! j = Some L' ->
  (j < 11)%nat /\ L' = luminosidad_fina L_base j.
Proof.
  intros H. pose proof (lookup_lt_Some _ _ _ H) as Hj.
  rewrite lookup_arange in H by done. rewrite length_arange_L_fino in Hj.
  injection H as <-. done.
Qed.

(** X25.  The first search of [ajuste.py] finds the best point of its
    grid: when [star] returns at the 7 x 7 points
    [(R_tot + (i-3)*0.5, L_tot + (j-3)*5)], with the error [e i j], and the
    error at the point [(i0, j0)] is strictly below the error at every other
    point, the search fills its array without an [IndexError] and returns
    the radius and the luminosity of the point [(i0, j0)]. *)
Theorem base_Ok (star : R -> R -> res (estrella.Agrupado * R * R))
    (R_tot L_tot : R) (e : nat -> nat -> R) (i0 j0 : nat) :
  (forall i j, (i < 7)%nat -> (j < 7)%nat ->
     exists p T,
       star (radio_malla R_tot i) (luminosidad_malla L_tot j)
       = Ok (p, e i j, T)) ->
  (i0 < 7)%nat -> (j0 < 7)%nat ->
  (forall i j, (i < 7)%nat -> (j < 7)%nat -> (i, j) <> (i0, j0) ->
     e i0 j0 < e i j) ->
  ajuste.base star R_tot L_tot
  = Ok (radio_malla R_tot i0, luminosidad_malla L_tot j0).
Proof.
  intros Hs Hi0 Hj0 Hmin.
  assert (Hstar : forall i j R' L',
            np.arange (R_tot - 3 * ajuste.dR) (R_tot + 3 * ajuste.dR + 0.1)
              ajuste.dR !! i = Some R' ->
            np.arange (L_tot - 3 * ajuste.dL) (L_tot + 3 * ajuste.dL + 0.1)
              ajuste.dL !! j = Some L' ->
            exists p T, star R' L' = Ok (p, e i j, T)).
  { intros i j R' L' [Hi ->]%lookup_radio_malla
      [Hj ->]%lookup_luminosidad_malla. by apply Hs. }
  destruct (malla_llena star _ _ 7 7 e (length_arange_R R_tot)
              (length_arange_L L_tot) Hstar) as [E HE].
  destruct (malla_minimo_unico star _ _ 7 7 e (length_arange_R R_tot)
              (length_arange_L L_tot) Hstar E i0 j0 HE Hi0 Hj0 Hmin)
    as [Hm Hw].
  unfold ajuste.base. cbn zeta. rewrite HE. mon. rewrite Hm. mon.
  rewrite Hw. reflexivity.
Qed.

Lemma base_Ok_witness :
  ajuste.base star_cuadratica 10 70
  = Ok (radio_malla 10 3, luminosidad_malla 70 3).
Proof.
  apply (base_Ok star_cuadratica 10 70
           (fun i j => (INR i - 3) * ajuste.dR * ((INR i - 3) * ajuste.dR)
                       + (INR j - 3) * ajuste.dL * ((INR j - 3) * ajuste.dL))
           3 3).
  - intros i j _ _. unfold star_cuadratica, radio_malla, luminosidad_malla.
    do 2 eexists. f_equal. f_equal. f_equal. ring.
  - lia.
  - lia.
  - intros i j Hi Hj Hne. unfold ajuste.dR, ajuste.dL.
    assert (Hi' : (i = 0 \/ i = 1 \/ i = 2 \/ i = 3 \/ i = 4 \/ i = 5
                  \/ i = 6)%nat) by lia.
    assert (Hj' : (j = 0 \/ j = 1 \/ j = 2 \/ j = 3 \/ j = 4 \/ j = 5
                  \/ j = 6)%nat) by lia.
    destruct Hi' as [-> | [-> | [-> | [-> | [-> | [-> | ->]]]]]];
      destruct Hj' as [-> | [-> | [-> | [-> | [-> | [-> | ->]]]]]];
      try done; simpl; lra.
Defined.

(** X26.  The first search of [ajuste.py] needs a single best point: when
    [star] returns at the 7 x 7 points of the grid and the least error is
    the error of two points of the grid, the unpacking of the positions of
    the minimum ends in [ValueError]. *)
Theorem base_empate (star : R -> R -> res (estrella.Agrupado * R * R))
    (R_tot L_tot : R) (e : nat -> nat -> R) (i0 j0 i1 j1 : nat) :
  (forall i j, (i < 7)%nat -> (j < 7)%nat ->
     exists p T,
       star (radio_malla R_tot i) (luminosidad_malla L_tot j)
       = Ok (p, e i j, T)) ->
  (i0 < 7)%nat -> (j0 < 7)%nat -> (i1 < 7)%nat -> (j1 < 7)%nat ->
  (i0, j0) <> (i1, j1) -> e i1 j1 = e i0 j0 ->
  (forall i j, (i < 7)%nat -> (j < 7)%nat -> e i0 j0 <= e i j) ->
  ajuste.base star R_tot L_tot = Err ValueError.
Proof.
  intros Hs Hi0 Hj0 Hi1 Hj1 Hne He Hmin.
  assert (Hstar : forall i j R' L',
            np.arange (R_tot - 3 * ajuste.dR) (R_tot + 3 * ajuste.dR + 0.1)
              ajuste.dR !! i = Some R' ->
            np.arange (L_tot - 3 * ajuste.dL) (L_tot + 3 * ajuste.dL + 0.1)
              ajuste.dL !! j = Some L' ->
            exists p T, star R' L' = Ok (p, e i j, T)).
  { intros i j R' L' [Hi ->]%lookup_radio_malla
      [Hj ->]%lookup_luminosidad_malla. by apply Hs. }
  destruct (malla_llena star _ _ 7 7 e (length_arange_R R_tot)
              (length_arange_L L_tot) Hstar) as [E HE].
  destruct (malla_minimo star _ _ 7 7 e (length_arange_R R_tot)
              (length_arange_L L_tot) Hstar E i0 j0 HE Hi0 Hj0 Hmin)
    as [Hm Hw].
  unfold ajuste.base. cbn zeta. rewrite HE. mon. rewrite Hm. mon.
  rewrite (unico_dos _ (i0, j0) (i1, j1)); [reflexivity | | | done].
  - by apply Hw.
  - by apply Hw.
Qed.

Lemma base_empate_witness :
  ajuste.base star_constante 10 70 = Err ValueError.
Proof.
  apply (base_empate star_constante 10 70 (fun _ _ => 1) 0 0 0 1).
  - intros i j _ _. by do 2 eexists.
  - lia.
  - lia.
  - lia.
  - lia.
  - done.
  - reflexivity.
  - intros i j _ _. lra.
Defined.

Section busqueda_fina.

Variable star : R -> R -> res (estrella.Agrupado * R * R).

(** The loop over the luminosities of the fine search fills the array as
    that of the first search does, and stores the luminosities. *)
Lemma fila_fina_Ok (Ls : list R) (R' : R) (i j : nat)
    (E E' : list (list R)) (Lf Lf' : list R) :
  ajuste.fila_fina star Ls R' i j E Lf = Ok (E', Lf') ->
  ajuste.fila star Ls R' i j E = Ok E'
  /\ (forall j', (j' < j)%nat -> Lf' !! j' = Lf !! j')
  /\ (forall k L', Ls !! k = Some L' -> Lf' !! (j + k)%nat = Some L').
Proof.
  revert j E Lf. induction Ls as [| L' Ls IH]; intros j E Lf H.
  - injection H as <- <-. repeat split; try done.
  - cbn [ajuste.fila_fina] in H. cbn [ajuste.fila].
    apply bind_Ok in H as ([[p e] T] & Hs & H). cbn beta iota in H.
    apply bind_Ok in H as (E1 & H1 & H). apply bind_Ok in H as (Lf1 & HL & H).
    apply escribir_Ok in HL as [Hj ->].
    apply IH in H as (HE & Hm & Hv). rewrite Hs. mon. rewrite H1. mon.
    split; [exact HE |]. split.
    + intros j' Hj'. rewrite Hm by lia. by rewrite list_lookup_insert_ne by lia.
    + intros [| k] L'' HL; cbn in HL.
      * injection HL as <-. rewrite Nat.add_0_r, Hm by lia.
        by apply list_lookup_insert_eq.
      * replace (j + S k)%nat with (j + 1 + k)%nat by lia. by apply Hv.
Qed.

Lemma fila_fina_total (Ls : list R) (R' : R) (i j : nat)
    (E : list (list R)) (Lf : list R) :
  (forall L', L' ∈ Ls -> exists p e T, star R' L' = Ok (p, e, T)) ->
  (forall k, (k < length Ls)%nat -> is_Some (celda E i (j + k))) ->
  (j + length Ls <= length Lf)%nat ->
  exists E' Lf',
    ajuste.fila_fina star Ls R' i j E Lf = Ok (E', Lf')
    /\ length Lf' = length Lf.
Proof.
  revert j E Lf. induction Ls as [| L' Ls IH]; intros j E Lf Hs Hc Hl.
  - by eexists _, _.
  - cbn [ajuste.fila_fina]. cbn [length] in Hl.
    destruct (Hs L') as (p & e & T & ->); [by left |]. mon.
    destruct (escribir2_total E i j e) as [E1 H1].
    { specialize (Hc 0%nat). rewrite Nat.add_0_r in Hc.
      apply Hc. cbn. lia. }
    rewrite H1. mon. unfold np.escribir at 1.
    rewrite decide_True by lia. mon.
    destruct (IH (j + 1)%nat E1 (<[j := L']> Lf)) as (E' & Lf' & H & Hlen).
    + intros L'' HL. apply Hs. by right.
    + intros k Hk. apply celda_escribir2 in H1 as [_ H1]. rewrite H1.
      rewrite decide_False by lia.
      replace (j + 1 + k)%nat with (j + S k)%nat by lia.
      apply Hc. cbn. lia.
    + rewrite length_insert. lia.
    + exists E', Lf'. split; [exact H |]. by rewrite Hlen, length_insert.
Qed.

(** The loop over the radii of the fine search fills the array as that of
    the first search does, and stores the radii and the luminosities of the
    grid. *)
Lemma malla_fina_Ok (Rs Ls : list R) (i : nat) (E E' : list (list R))
    (Rf Lf Rf' Lf' : list R) :
  ajuste.malla_fina star Rs Ls i E Rf Lf = Ok (E', Rf', Lf') ->
  ajuste.malla star Rs Ls i E = Ok E'
  /\ (forall i', (i' < i)%nat -> Rf' !! i' = Rf !! i')
  /\ (forall k R', Rs !! k = Some R' -> Rf' !! (i + k)%nat = Some R')
  /\ (Rs = [] -> Lf' = Lf)
  /\ (Rs <> [] -> forall j L', Ls !! j = Some L' -> Lf' !! j = Some L').
Proof.
  revert i E Rf Lf. induction Rs as [| R' Rs IH]; intros i E Rf Lf H.
  - injection H as <- <- <-. repeat split; try done.
  - cbn [ajuste.malla_fina] in H. cbn [ajuste.malla].
    apply bind_Ok in H as ([E1 Lf1] & H1 & H). cbn beta iota in H.
    apply bind_Ok in H as (Rf1 & HR & H).
    apply escribir_Ok in HR as [Hi ->].
    apply fila_fina_Ok in H1 as (HE1 & _ & HL1).
    apply IH in H as (HE & Hm & Hv & Hnil & Hcons).
    rewrite HE1. mon. split; [exact HE |]. split; [| split; [| split]].
    + intros i' Hi'. rewrite Hm by lia. by rewrite list_lookup_insert_ne by lia.
    + intros [| k] R'' HR; cbn in HR.
      * injection HR as <-. rewrite Nat.add_0_r, Hm by lia.
        by apply list_lookup_insert_eq.
      * replace (i + S k)%nat with (i + 1 + k)%nat by lia. by apply Hv.
    + done.
    + intros _ j L' HL. destruct Rs as [| R'' Rs].
      * rewrite Hnil by done. exact (HL1 j L' HL).
      * by apply Hcons.
Qed.

Lemma malla_fina_total (Rs Ls : list R) (i : nat) (E : list (list R))
    (Rf Lf : list R) :
  (forall R' L', R' ∈ Rs -> L' ∈ Ls -> exists p e T, star R' L' = Ok (p, e, T)) ->
  (forall k j, (k < length Rs)%nat -> (j < length Ls)%nat ->
     is_Some (celda E (i + k) j)) ->
  (i + length Rs <= length Rf)%nat -> (length Ls <= length Lf)%nat ->
  exists E' Rf' Lf', ajuste.malla_fina star Rs Ls i E Rf Lf = Ok (E', Rf', Lf').
Proof.
  revert i E Rf Lf. induction Rs as [| R' Rs IH]; intros i E Rf Lf Hs Hc HR HL.
  - by eexists _, _, _.
  - cbn [ajuste.malla_fina]. cbn [length] in HR.
    destruct (fila_fina_total Ls R' i 0 E Lf) as (E1 & Lf1 & H1 & Hlen).
    { intros L' HL'. apply Hs; [by left | done]. }
    { intros k Hk. specialize (Hc 0%nat k). rewrite Nat.add_0_r in Hc.
      apply Hc; [cbn; lia | done]. }
    { lia. }
    rewrite H1. mon. unfold np.escribir at 1.
    rewrite decide_True by lia. mon. apply IH.
    + intros R'' L' HR' HL'. apply Hs; [by right | done].
    + intros k j Hk Hj. apply fila_fina_Ok in H1 as (H1 & _).
      apply fila_Ok in H1 as (_ & _ & Hf). rewrite Hf.
      replace (i + 1 + k)%nat with (i + S k)%nat by lia.
      apply Hc; [cbn; lia | done].
    + rewrite length_insert. lia.
    + lia.
Qed.

End busqueda_fina.

(** X27.  The fine search of [ajuste.py] finds the best point of its grid:
    when [star] returns at the 11 x 11 points
    [(R_base - 0.5 + i*0.1, L_base - 5 + j)], with the error [e i j], and the
    error at the point [(i0, j0)] is strictly below the error at every other
    point, the search fills its arrays without an [IndexError] and returns
    the radius and the luminosity that it stored for the point [(i0, j0)],
    which lie within 0.5 of [R_base] and within 5 of [L_base]. *)
Theorem fino_Ok (star : R -> R -> res (estrella.Agrupado * R * R))
    (R_base L_base : R) (e : nat -> nat -> R) (i0 j0 : nat) :
  (forall i j, (i < 11)%nat -> (j < 11)%nat ->
     exists p T,
       star (radio_fino R_base i) (luminosidad_fina L_base j)
       = Ok (p, e i j, T)) ->
  (i0 < 11)%nat -> (j0 < 11)%nat ->
  (forall i j, (i < 11)%nat -> (j < 11)%nat -> (i, j) <> (i0, j0) ->
     e i0 j0 < e i j) ->
  ajuste.fino star R_base L_base
  = Ok (radio_fino R_base i0, luminosidad_fina L_base j0)
  /\ Rabs (radio_fino R_base i0 - R_base) <= 0.5
  /\ Rabs (luminosidad_fina L_base j0 - L_base) <= 5.
Proof.
  intros Hs Hi0 Hj0 Hmin.
  assert (Hstar : forall i j R' L',
            np.arange (R_base - 0.5) (R_base + 0.51) 0.1 !! i = Some R' ->
            np.arange (L_base - 5) (L_base + 5.1) 1 !! j = Some L' ->
            exists p T, star R' L' = Ok (p, e i j, T)).
  { intros i j R' L' [Hi ->]%lookup_radio_fino
      [Hj ->]%lookup_luminosidad_fina. by apply Hs. }
  split.
  - destruct (malla_fina_total star
                (np.arange (R_base - 0.5) (R_base + 0.51) 0.1)
                (np.arange (L_base - 5) (L_base + 5.1) 1) 0
                (ajuste.zeros2 11 11) (np.zeros 11) (np.zeros 11))
      as (E & Rf & Lf & HE).
    { intros R' L' [i Hi]%list_elem_of_lookup [j Hj]%list_elem_of_lookup.
      destruct (Hstar i j R' L' Hi Hj) as (p & T & H). eauto. }
    { intros k j Hk Hj.
      rewrite length_arange_R_fino in Hk. rewrite length_arange_L_fino in Hj.
      rewrite celda_zeros2, decide_True by (cbn; lia). by eexists. }
    { rewrite length_arange_R_fino. unfold np.zeros.
      rewrite length_replicate. lia. }
    { rewrite length_arange_L_fino. unfold np.zeros.
      rewrite length_replicate. lia. }
    unfold ajuste.fino. rewrite HE. mon.
    apply malla_fina_Ok in HE as (HE & _ & HR & _ & HL).
    destruct (malla_minimo_unico star _ _ 11 11 e
                (length_arange_R_fino R_base) (length_arange_L_fino L_base)
                Hstar E i0 j0 HE Hi0 Hj0 Hmin) as [Hm Hw].
    rewrite Hm. mon. rewrite Hw. cbn [ajuste.unico]. mon. cbn [fst snd].
    assert (HRf : Rf !! i0 = Some (radio_fino R_base i0)).
    { apply (HR i0). apply lookup_arange.
      by rewrite length_arange_R_fino. }
    assert (HLf : Lf !! j0 = Some (luminosidad_fina L_base j0)).
    { apply HL.
      - intros Hnil. apply (f_equal length) in Hnil.
        by rewrite length_arange_R_fino in Hnil.
      - apply lookup_arange. by rewrite length_arange_L_fino. }
    apply leer_Ok in HRf, HLf. rewrite HRf. mon. rewrite HLf. reflexivity.
  - assert (0 <= INR i0 <= 10).
    { split; [apply pos_INR |]. replace 10 with (INR 10) by (simpl; lra).
      apply le_INR. lia. }
    assert (0 <= INR j0 <= 10).
    { split; [apply pos_INR |]. replace 10 with (INR 10) by (simpl; lra).
      apply le_INR. lia. }
    unfold radio_fino, luminosidad_fina.
    split; apply Rabs_le; lra.
Qed.

Lemma fino_Ok_witness :
  ajuste.fino star_cuadratica 10 70
  = Ok (radio_fino 10 5, luminosidad_fina 70 5)
  /\ Rabs (radio_fino 10 5 - 10) <= 0.5
  /\ Rabs (luminosidad_fina 70 5 - 70) <= 5.
Proof.
  apply (fino_Ok star_cuadratica 10 70
           (fun i j => (radio_fino 10 i - 10) * (radio_fino 10 i - 10)
                       + (luminosidad_fina 70 j - 70)
                         * (luminosidad_fina 70 j - 70))
           5 5).
  - intros i j _ _. by do 2 eexists.
  - lia.
  - lia.
  - intros i j Hi Hj Hne. unfold radio_fino, luminosidad_fina.
    assert (Hi' : (i = 0 \/ i = 1 \/ i = 2 \/ i = 3 \/ i = 4 \/ i = 5
                  \/ i = 6 \/ i = 7 \/ i = 8 \/ i = 9 \/ i = 10)%nat) by lia.
    assert (Hj' : (j = 0 \/ j = 1 \/ j = 2 \/ j = 3 \/ j = 4 \/ j = 5
                  \/ j = 6 \/ j = 7 \/ j = 8 \/ j = 9 \/ j = 10)%nat) by lia.
    destruct Hi' as [-> | [-> | [-> | [-> | [-> | [-> | [-> | [-> | [-> |
                    [-> | ->]]]]]]]]]];
      destruct Hj' as [-> | [-> | [-> | [-> | [-> | [-> | [-> | [-> | [-> |
                      [-> | ->]]]]]]]]]];
      try done; simpl; lra.
Defined.

(** ** ajuste.py: the table that is printed *)

Lemma elemento_Ok {A : Type} (l : list A) (k : nat) :
  (k < length l)%nat -> exists x, ajuste.elemento l k = Ok x /\ l !! k = Some x.
Proof.
  intros Hk. unfold ajuste.elemento.
  destruct (lookup_lt_is_Some_2 l k Hk) as [x ->]. by exists x.
Qed.

Lemma elemento_Err {A : Type} (l : list A) (k : nat) :
  (length l <= k)%nat -> ajuste.elemento l k = Err IndexError.
Proof.
  intros Hk. unfold ajuste.elemento. by rewrite (lookup_ge_None_2 l k Hk).
Qed.

(** A row is printed when every column has an entry for it, and the first
    column without one raises [IndexError]. *)
Lemma fila_k_altura (t : estrella.Agrupado) (k : nat) :
  (k < length (estrella.Capa_col t))%nat ->
  if decide (k < altura t)%nat
  then exists f, ajuste.fila_k t k = Ok f
  else ajuste.fila_k t k = Err IndexError.
Proof.
  intros Hk. unfold altura, ajuste.fila_k.
  destruct (elemento_Ok _ k Hk) as (c & -> & _). mon.
  destruct (decide (k < length (estrella.Transporte_col t))%nat) as [H1 | H1];
    [destruct (elemento_Ok _ k H1) as (x1 & -> & _); mon
    | rewrite (elemento_Err (estrella.Transporte_col t)), decide_False by lia;
      reflexivity].
  destruct (decide (k < length (estrella.Ciclo_col t))%nat) as [H2 | H2];
    [destruct (elemento_Ok _ k H2) as (x2 & -> & _); mon
    | rewrite (elemento_Err (estrella.Ciclo_col t)), decide_False by lia;
      reflexivity].
  destruct (decide (k < length (estrella.Radio t))%nat) as [H3 | H3];
    [destruct (elemento_Ok _ k H3) as (x3 & -> & _); mon
    | rewrite (elemento_Err (estrella.Radio t)), decide_False by lia;
      reflexivity].
  destruct (decide (k < length (estrella.Presion t))%nat) as [H4 | H4];
    [destruct (elemento_Ok _ k H4) as (x4 & -> & _); mon
    | rewrite (elemento_Err (estrella.Presion t)), decide_False by lia;
      reflexivity].
  destruct (decide (k < length (estrella.Temperatura t))%nat) as [H5 | H5];
    [destruct (elemento_Ok _ k H5) as (x5 & -> & _); mon
    | rewrite (elemento_Err (estrella.Temperatura t)), decide_False by lia;
      reflexivity].
  destruct (decide (k < length (estrella.Masa t))%nat) as [H6 | H6];
    [destruct (elemento_Ok _ k H6) as (x6 & -> & _); mon
    | rewrite (elemento_Err (estrella.Masa t)), decide_False by lia;
      reflexivity].
  destruct (decide (k < length (estrella.Luminosidad t))%nat) as [H7 | H7];
    [destruct (elemento_Ok _ k H7) as (x7 & -> & _); mon
    | rewrite (elemento_Err (estrella.Luminosidad t)), decide_False by lia;
      reflexivity].
  rewrite decide_True by lia. by eexists.
Qed.

(** The loop over the rows [a, a+1, ..., a+n-1]. *)
Lemma filas_seq (t : estrella.Agrupado) (n a : nat) :
  (a + n <= length (estrella.Capa_col t))%nat -> (a <= altura t)%nat ->
  length (ajuste.filas t (seq a n)).1 = Nat.min n (altura t - a)
  /\ (ajuste.filas t (seq a n)).2
     = (if decide (a + n <= altura t)%nat then Ok () else Err IndexError)
  /\ forall k f, (ajuste.filas t (seq a n)).1 !! k = Some f ->
       ajuste.fila_k t (a + k) = Ok f.
Proof.
  revert a. induction n as [| n IH]; intros a Hn Ha.
  - cbn. rewrite decide_True by lia. done.
  - cbn [seq ajuste.filas].
    pose proof (fila_k_altura t a ltac:(lia)) as Hf.
    destruct (decide (a < altura t)%nat) as [Hlt | Hge].
    + destruct Hf as [f Hf]. rewrite Hf.
      destruct (IH (S a) ltac:(lia) ltac:(lia)) as (Hlen & Hfin & Hrows).
      destruct (ajuste.filas t (seq (S a) n)) as [fs fin].
      cbn [fst snd] in *. cbn [length].
      split; [lia |]. split.
      * rewrite Hfin. repeat case_decide; done || lia.
      * intros [| k] f' Hk; cbn [lookup list_lookup] in Hk.
        -- injection Hk as <-. by rewrite Nat.add_0_r.
        -- replace (a + S k)%nat with (S (a + k))%nat by lia. by apply Hrows.
    + rewrite Hf. cbn [fst snd length].
      split; [lia |]. split; [by rewrite decide_False by lia |]. done.
Qed.

(** The rows that the loop prints, and how it ends. *)
Lemma tabla_filas (t : estrella.Agrupado) :
  length (ajuste.tabla t).1
  = Nat.min (length (estrella.Capa_col t)) (altura t)
  /\ (ajuste.tabla t).2
     = (if decide (length (estrella.Capa_col t) <= altura t)%nat
        then Ok () else Err IndexError).
Proof.
  unfold ajuste.tabla.
  destruct (filas_seq t (length (estrella.Capa_col t)) 0)
    as (Hlen & Hfin & _); [lia | lia |].
  rewrite Nat.sub_0_r in Hlen. cbn [Nat.add] in Hfin. done.
Qed.

(** X28.  The loop of [ajuste.py] that prints the table has one pass for
    each entry of the column of the layer index and reads the eight columns
    at the index of the row: it prints the rows for which every column has
    an entry, and ends in [IndexError] at the first row for which a column
    has none. *)
Theorem tabla_columnas (t : estrella.Agrupado) :
  length (ajuste.tabla t).1
  = Nat.min (length (estrella.Capa_col t)) (altura t)
  /\ (ajuste.tabla t).2
     = (if decide (length (estrella.Capa_col t) <= altura t)%nat
        then Ok () else Err IndexError)
  /\ forall k f, (ajuste.tabla t).1 !! k = Some f ->
       estrella.Capa_col t !! k = Some (ajuste.f_Capa f)
       /\ estrella.Transporte_col t !! k = Some (ajuste.f_Transporte f)
       /\ estrella.Ciclo_col t !! k = Some (ajuste.f_Ciclo f)
       /\ estrella.Radio t !! k = Some (ajuste.f_Radio f)
       /\ estrella.Presion t !! k = Some (ajuste.f_Presion f)
       /\ estrella.Temperatura t !! k = Some (ajuste.f_Temperatura f)
       /\ estrella.Masa t !! k = Some (ajuste.f_Masa f)
       /\ estrella.Luminosidad t !! k = Some (ajuste.f_Luminosidad f).
Proof.
  unfold ajuste.tabla.
  destruct (filas_seq t (length (estrella.Capa_col t)) 0)
    as (Hlen & Hfin & Hrows); [lia | lia |].
  rewrite Nat.sub_0_r in Hlen. cbn [Nat.add] in Hfin.
  split; [exact Hlen |]. split; [exact Hfin |].
  intros k f Hk. apply Hrows in Hk. cbn [Nat.add] in Hk.
  unfold ajuste.fila_k, ajuste.elemento in Hk.
  destruct (estrella.Capa_col t !! k); [| done]. mon.
  destruct (estrella.Transporte_col t !! k); [| done]. mon.
  destruct (estrella.Ciclo_col t !! k); [| done]. mon.
  destruct (estrella.Radio t !! k); [| done]. mon.
  destruct (estrella.Presion t !! k); [| done]. mon.
  destruct (estrella.Temperatura t !! k); [| done]. mon.
  destruct (estrella.Masa t !! k); [| done]. mon.
  destruct (estrella.Luminosidad t !! k); [| done]. mon.
  by injection Hk as <-.
Qed.

(** X29.  When Phase 0 has stored a layer at the total radius itself, the
    table cannot be printed.  The temperature of such a layer is 0, and
    [np.trim_zeros] removes it from the column of the temperature and not
    from the column of the radius.  Let [st0] be buffers of Phase 0 in which
    the trimmed temperatures are fewer than the trimmed radii, and the step
    [h] not 0: for every result of Phase A and every result of a run of
    Phase B with the step [-h], the loop of [ajuste.py] that prints the
    table that [star] builds from them ends in [IndexError] before the last
    row: the column of the temperature has no entry for it. *)
Theorem tabla_incompleta
    (fuel : nat) (M_tot X Y R_tot L_tot mu R_ini h A1 A2 : R)
    (st0 : estrella.Estado0) :
  h <> 0 ->
  (length (np.trim_zeros (estrella.T_0 st0))
   < length (np.trim_zeros (estrella.r_0 st0)))%nat ->
  siempre (estrella.fase_A fuel M_tot X Y R_tot L_tot mu R_ini h A1 A2)
    (fun a =>
       forall T_c rf,
         siempre
           (faseB.conveccion fuel T_c rf (- h) X Y (estrella.k_prima a))
           (fun '(param, _, Ciclo_B) =>
              let t := estrella.resultado param Ciclo_B
                         (estrella.capas_A a) (estrella.i_f a) st0 in
              (ajuste.tabla t).2 = Err IndexError
              /\ (length (ajuste.tabla t).1
                  < length (estrella.Capa_col t))%nat)).
Proof.
  intros Hh H0. apply siempre_Ok. intros a Ha.
  apply fase_A_capa in Ha as (HrA & HTA & HCA).
  intros T_c rf. apply siempre_Ok. intros [[param F] Ciclo_B] HB.
  assert (Hh' : - h <> 0) by lra.
  apply (conveccion_llena _ _ _ _ _ _ _ _ _ _ Hh') in HB as [HrB HTB].
  cbn zeta.
  set (t := estrella.resultado _ _ _ _ _).
  assert (Hcorta : (altura t < length (estrella.Capa_col t))%nat).
  { apply Nat.le_lt_trans with (length (estrella.Temperatura t)).
    - unfold altura. lia.
    - unfold t, estrella.resultado.
      cbn [estrella.Capa_col estrella.Temperatura].
      rewrite length_seq.
      rewrite !length_columna, !length_sin_ultimo, !length_take_trim by done.
      rewrite HrB, HTB. lia. }
  destruct (tabla_filas t) as (Hlen & Hfin).
  rewrite Hfin, Hlen. rewrite decide_False by lia. split; [done | lia].
Qed.

(** The total radius 11.5 and 90 layers give such buffers: the layer 9 of
    Phase 0 lies at the total radius (in binary64 as well, lemma
    [binary64_capa_en_R_tot]). *)
Lemma tabla_incompleta_witness :
  exists mu R_ini h A1 A2 st0,
    estrella.constantes 5.0 0.75 0.22 11.5 70.0 90
    = Ok (mu, R_ini, h, A1, A2)
    /\ estrella.fase_0 100 5.0 11.5 70.0 R_ini h A1 A2 = Ok st0
    /\ h <> 0
    /\ (length (np.trim_zeros (estrella.T_0 st0))
        < length (np.trim_zeros (estrella.r_0 st0)))%nat
    /\ siempre
         (estrella.fase_A 100 5.0 0.75 0.22 11.5 70.0 mu R_ini h A1 A2)
         (fun a =>
            forall T_c rf,
              siempre
                (faseB.conveccion 100 T_c rf (- h) 0.75 0.22
                   (estrella.k_prima a))
                (fun '(param, _, Ciclo_B) =>
                   let t := estrella.resultado param Ciclo_B
                              (estrella.capas_A a) (estrella.i_f a) st0 in
                   (ajuste.tabla t).2 = Err IndexError
                   /\ (length (ajuste.tabla t).1
                       < length (estrella.Capa_col t))%nat)).
Proof.
  destruct fase_0_R11_5_n90
    as (mu & R_ini & h & A1 & A2 & st0 & Hc & H0 & _ & _ & Hr & HT).
  assert (H1 : h <> 0).
  { apply constantes_Ok in Hc as (_ & _ & _ & -> & _). lra. }
  assert (H2 : (length (np.trim_zeros (estrella.T_0 st0))
                < length (np.trim_zeros (estrella.r_0 st0)))%nat)
    by (rewrite Hr, HT; lia).
  exists mu, R_ini, h, A1, A2, st0.
  split; [exact Hc |]. split; [exact H0 |]. split; [exact H1 |].
  split; [exact H2 |].
  exact (tabla_incompleta 100 5.0 0.75 0.22 11.5 70.0 mu R_ini h A1 A2 st0
           H1 H2).
Defined.
